(** * cook-dobby: the recipe route handler ([src/app/api/recipe/route.ts])

    A shallow embedding of the request/response handling of the recipe
    endpoint: the retrying transport [fwFetchWithRetry], the slug helper
    [slugify] and the handler [POST] (extraction of the model's JSON,
    validation and normalization of the two payload shapes).
    The two pages that call the route are embedded as far as their
    requests go: [unslugify] of the recipe page
    ([src/unnamed/part_000]) and the bodies that [callAPI], [onSubmit],
    [openRecipe] ([src/app/page.tsx]) and [run] post.

    Modelled fragment of the platform.  Texts are Rocq [string]s read as
    sequences of 7-bit ASCII code units: on that alphabet [toUpperCase],
    [toLowerCase], [trim] and the regular-expression class [\s] are exactly
    the ECMAScript functions (code units above 127 are left alone by the
    case mappings here and are never white space).  JSON numbers are the
    integers [Z].

    Limits of the fragment.  Outside that alphabet the case mappings and
    the white space of ECMAScript do more than the functions of this file
    (a sharp s has a two-letter upper case, a no-break space is trimmed):
    a statement that compares the slug of a title with the slug of its
    upper case carries the hypothesis [asciiText].  [JsonText.parse]
    reads the JSON texts whose numerals are integers and whose [\u]
    escapes are below 0080, and refuses the others, which [JSON.parse]
    accepts; the statements about a parsed text are conditional on the
    result of the parse.  [Js.numberToString] prints an integer in full,
    as ECMAScript does below 10^21 for the integers a double holds. *)

From Stdlib Require Import String Ascii List ZArith Lia Bool.
From Stdlib Require Import Numbers.DecimalString.
Import ListNotations.

Set Warnings "-register-all".
Local Open Scope string_scope.
Local Open Scope Z_scope.

(* ===================================================================== *)
(** ** ECMAScript string primitives used by the route                     *)
(* ===================================================================== *)

Module JsString.

(** White space of [String.prototype.trim] and of [\s], within ASCII:
    TAB, LF, VT, FF, CR and SPACE. *)
Definition isWhiteSpace (c : ascii) : bool :=
  let n := N_of_ascii c in
  ((9 <=? n)%N && (n <=? 13)%N) || (n =? 32)%N.

Definition toUpperChar (c : ascii) : ascii :=
  let n := N_of_ascii c in
  if ((97 <=? n)%N && (n <=? 122)%N) then ascii_of_N (n - 32) else c.

Definition toLowerChar (c : ascii) : ascii :=
  let n := N_of_ascii c in
  if ((65 <=? n)%N && (n <=? 90)%N) then ascii_of_N (n + 32) else c.

Fixpoint mapChars (f : ascii -> ascii) (s : string) : string :=
  match s with
  | EmptyString => EmptyString
  | String c s' => String (f c) (mapChars f s')
  end.

Fixpoint filterChars (p : ascii -> bool) (s : string) : string :=
  match s with
  | EmptyString => EmptyString
  | String c s' => if p c then String c (filterChars p s') else filterChars p s'
  end.

(** [s.toUpperCase()], [s.toLowerCase()] *)
Definition toUpperCase : string -> string := mapChars toUpperChar.
Definition toLowerCase : string -> string := mapChars toLowerChar.

Definition isEmpty (s : string) : bool :=
  match s with EmptyString => true | String _ _ => false end.

(** [s.trimStart()]: drop the leading white space. *)
Fixpoint trimStart (s : string) : string :=
  match s with
  | EmptyString => EmptyString
  | String c s' => if isWhiteSpace c then trimStart s' else s
  end.

(** [s.trimEnd()]: drop the trailing white space.  A character goes exactly
    when it is white space and nothing but white space follows it. *)
Fixpoint trimEnd (s : string) : string :=
  match s with
  | EmptyString => EmptyString
  | String c s' =>
      let r := trimEnd s' in
      if isWhiteSpace c && isEmpty r then EmptyString else String c r
  end.

(** [s.trim()] *)
Definition trim (s : string) : string := trimEnd (trimStart s).

(** [s.startsWith(p)] *)
Definition startsWith (p s : string) : bool := String.prefix p s.

(** [s.replace(/\s+/g, "-")]: every maximal run of white space becomes one
    hyphen.  [inRun] tells that the previous character was white space, so
    the hyphen of the current run is already out. *)
Fixpoint replaceRuns (inRun : bool) (s : string) : string :=
  match s with
  | EmptyString => EmptyString
  | String c s' =>
      if isWhiteSpace c
      then (if inRun then replaceRuns true s' else String "-" (replaceRuns true s'))
      else String c (replaceRuns false s')
  end.

(** The class [[a-z0-9\s-]]; [replace(/[^a-z0-9\s-]/g, "")] keeps exactly
    the characters of the class. *)
Definition slugChar (c : ascii) : bool :=
  let n := N_of_ascii c in
  ((97 <=? n)%N && (n <=? 122)%N) || ((48 <=? n)%N && (n <=? 57)%N)
  || isWhiteSpace c || (n =? 45)%N.

End JsString.

Import JsString.

(** [slugify] (route.ts, lines 28-34). *)
Definition slugify (input : string) : string :=
  replaceRuns false (trim (filterChars slugChar (toLowerCase input))).

(* ===================================================================== *)
(** ** JSON values and the ECMAScript operations on them                  *)
(* ===================================================================== *)

(** What [JSON.parse] returns.  An object is the list of its own
    properties in the order of their creation; [undefined] is the [None]
    of [option json]. *)
Inductive json : Type :=
| JNull
| JBool (b : bool)
| JNum (n : Z)
| JStr (s : string)
| JArr (elements : list json)
| JObj (members : list (string * json)).

(** The exceptions the route can meet.  The message of a [TypeError] or a
    [SyntaxError] is the engine's own text and is left abstract. *)
Inductive exn : Type :=
| Error (message : string)
| TypeError
| SyntaxError.

Inductive completion (A : Type) : Type :=
| Normal (a : A)
| Throw (e : exn).
Arguments Normal {A} a.
Arguments Throw {A} e.

Definition cbind {A B} (c : completion A) (k : A -> completion B) : completion B :=
  match c with
  | Normal a => k a
  | Throw e => Throw e
  end.

Declare Scope js_scope.
Delimit Scope js_scope with js.
Notation "x <- c ;; k" := (cbind c (fun x => k))
  (at level 61, c at next level, right associativity) : js_scope.
Local Open Scope js_scope.

(** [xs.map(f)] for a callback that may throw. *)
Fixpoint mapM {A B} (f : A -> completion B) (xs : list A) : completion (list B) :=
  match xs with
  | [] => Normal []
  | x :: rest => y <- f x ;; ys <- mapM f rest ;; Normal (y :: ys)
  end.

Module Js.

(** Own property lookup, [o[k]]. *)
Fixpoint lookup (k : string) (ms : list (string * json)) : option json :=
  match ms with
  | [] => None
  | (k', v) :: rest => if String.eqb k k' then Some v else lookup k rest
  end.

(** Property assignment [o[k] = v]: an existing property keeps its place,
    a new one goes last. *)
Fixpoint set (k : string) (v : json) (ms : list (string * json)) : list (string * json) :=
  match ms with
  | [] => [(k, v)]
  | (k', v') :: rest =>
      if String.eqb k k' then (k', v) :: rest else (k', v') :: set k v rest
  end.

(** [v.k] for the property names of the route ([mode], [title], [items], ...),
    none of which is inherited: only [null] throws, and only an object can
    have the property. *)
Definition get (v : json) (k : string) : completion (option json) :=
  match v with
  | JNull => Throw TypeError
  | JObj ms => Normal (lookup k ms)
  | _ => Normal None
  end.

(** [v?.k] *)
Definition optGet (v : option json) (k : string) : option json :=
  match v with
  | Some (JObj ms) => lookup k ms
  | _ => None
  end.

(** [v?.[0]]: the first element of an array, the first code unit of a text,
    the property ["0"] of an object. *)
Definition optIndex0 (v : option json) : option json :=
  match v with
  | Some (JArr (x :: _)) => Some x
  | Some (JStr (String c _)) => Some (JStr (String c EmptyString))
  | Some (JObj ms) => lookup "0" ms
  | _ => None
  end.

(** [a ?? b] *)
Definition nullish (a : option json) (b : json) : json :=
  match a with
  | None | Some JNull => b
  | Some v => v
  end.

(** ToBoolean *)
Definition truthy (v : option json) : bool :=
  match v with
  | None | Some JNull => false
  | Some (JBool b) => b
  | Some (JNum n) => negb (n =? 0)
  | Some (JStr s) => negb (isEmpty s)
  | Some (JArr _) | Some (JObj _) => true
  end.

(** Number to text, for the integers. *)
Definition numberToString (n : Z) : string :=
  NilZero.string_of_int (Z.to_int n).

(** [String(v)].  An array is joined with commas, [null] elements giving
    the empty text.  An object gives ["[object Object]"] through the
    inherited [toString], unless it has a property [toString] of its own:
    a JSON value is never callable, so the conversion then throws. *)
Fixpoint ToString (v : json) : completion string :=
  match v with
  | JNull => Normal "null"
  | JBool true => Normal "true"
  | JBool false => Normal "false"
  | JNum n => Normal (numberToString n)
  | JStr s => Normal s
  | JArr l =>
      (fix join (l : list json) : completion string :=
         match l with
         | [] => Normal ""
         | x :: rest =>
             s <- match x with JNull => Normal "" | _ => ToString x end ;;
             match rest with
             | [] => Normal s
             | _ :: _ => r <- join rest ;; Normal (s ++ "," ++ r)
             end
         end) l
  | JObj ms =>
      match lookup "toString" ms with
      | Some _ => Throw TypeError
      | None => Normal "[object Object]"
      end
  end.

(** [xs.filter(Boolean)] on texts. *)
Definition filterBoolean (xs : list string) : list string :=
  filter (fun s => negb (isEmpty s)) xs.

End Js.

Import Js.

(* ===================================================================== *)
(** ** [JSON.parse]                                                       *)
(* ===================================================================== *)

(** A recursive-descent reader of the JSON grammar (ECMA-404) for the
    modelled fragment: numerals are integers, and a [\u] escape denotes a
    code unit below 128.  A duplicated key keeps the place of its first
    occurrence and the value of its last, as property creation does. *)
Module JsonText.

Definition isJsonSpace (c : ascii) : bool :=
  let n := N_of_ascii c in
  (n =? 32)%N || (n =? 9)%N || (n =? 10)%N || (n =? 13)%N.

Fixpoint skipSpace (s : string) : string :=
  match s with
  | String c s' => if isJsonSpace c then skipSpace s' else s
  | EmptyString => s
  end.

Definition isDigit (c : ascii) : bool :=
  let n := N_of_ascii c in (48 <=? n)%N && (n <=? 57)%N.

Definition digitValue (c : ascii) : Z := Z.of_N (N_of_ascii c) - 48.

Definition hexValue (c : ascii) : option N :=
  let n := N_of_ascii c in
  if ((48 <=? n) && (n <=? 57))%N then Some (n - 48)%N
  else if ((65 <=? n) && (n <=? 70))%N then Some (n - 55)%N
  else if ((97 <=? n) && (n <=? 102))%N then Some (n - 87)%N
  else None.

(** The code unit of [\uXXXX], when it is in the modelled alphabet. *)
Definition unicodeEscape (a b c d : ascii) : option ascii :=
  match hexValue a, hexValue b, hexValue c, hexValue d with
  | Some x, Some y, Some z, Some w =>
      let n := (((x * 16 + y) * 16 + z) * 16 + w)%N in
      if (n <? 128)%N then Some (ascii_of_N n) else None
  | _, _, _, _ => None
  end.

Definition simpleEscape (c : ascii) : option ascii :=
  let n := N_of_ascii c in
  if (n =? 34)%N then Some c                      (* quote *)
  else if (n =? 92)%N then Some c                 (* backslash *)
  else if (n =? 47)%N then Some c                 (* solidus *)
  else if (n =? 98)%N then Some (ascii_of_N 8)    (* b: backspace *)
  else if (n =? 102)%N then Some (ascii_of_N 12)  (* f: form feed *)
  else if (n =? 110)%N then Some (ascii_of_N 10)  (* n: line feed *)
  else if (n =? 114)%N then Some (ascii_of_N 13)  (* r: carriage return *)
  else if (n =? 116)%N then Some (ascii_of_N 9)   (* t: tab *)
  else None.

(** The characters of a string literal, after its opening quote: the text
    it denotes and what follows the closing quote. *)
Fixpoint readChars (s : string) : option (string * string) :=
  match s with
  | EmptyString => None
  | String c s' =>
      let n := N_of_ascii c in
      if (n =? 34)%N then Some (EmptyString, s')
      else if (n =? 92)%N then
        match s' with
        | EmptyString => None
        | String e s'' =>
            if (N_of_ascii e =? 117)%N then
              match s'' with
              | String h1 (String h2 (String h3 (String h4 s5))) =>
                  match unicodeEscape h1 h2 h3 h4, readChars s5 with
                  | Some u, Some (t, r) => Some (String u t, r)
                  | _, _ => None
                  end
              | _ => None
              end
            else
              match simpleEscape e, readChars s'' with
              | Some u, Some (t, r) => Some (String u t, r)
              | _, _ => None
              end
        end
      else if (n <? 32)%N then None
      else
        match readChars s' with
        | Some (t, r) => Some (String c t, r)
        | None => None
        end
  end.

Fixpoint readDigits (acc : Z) (s : string) : Z * string :=
  match s with
  | String c s' => if isDigit c then readDigits (acc * 10 + digitValue c) s' else (acc, s)
  | EmptyString => (acc, s)
  end.

(** An unsigned integer numeral: [0] or a digit from 1 to 9 followed by
    digits; a fraction or an exponent is outside the fragment. *)
Definition readNatural (s : string) : option (Z * string) :=
  match s with
  | String c s' =>
      if negb (isDigit c) then None
      else
        let (n, r) := if (N_of_ascii c =? 48)%N then (0, s') else readDigits (digitValue c) s' in
        match r with
        | String d _ =>
            let k := N_of_ascii d in
            if isDigit d || (k =? 46)%N || (k =? 101)%N || (k =? 69)%N then None
            else Some (n, r)
        | EmptyString => Some (n, r)
        end
  | EmptyString => None
  end.

Definition readLiteral (word : string) (v : json) (s : string) : option (json * string) :=
  if String.prefix word s
  then Some (v, String.substring (String.length word) (String.length s - String.length word) s)
  else None.

Fixpoint readValue (fuel : nat) (s : string) : option (json * string) :=
  match fuel with
  | O => None
  | S fuel' =>
      match skipSpace s with
      | EmptyString => None
      | String c r =>
          let n := N_of_ascii c in
          if (n =? 123)%N then                                (* { *)
            match skipSpace r with
            | String c' r' =>
                if (N_of_ascii c' =? 125)%N then Some (JObj [], r')
                else readMembers fuel' [] (skipSpace r)
            | EmptyString => None
            end
          else if (n =? 91)%N then                            (* [ *)
            match skipSpace r with
            | String c' r' =>
                if (N_of_ascii c' =? 93)%N then Some (JArr [], r')
                else readElements fuel' [] (skipSpace r)
            | EmptyString => None
            end
          else if (n =? 34)%N then                            (* string *)
            match readChars r with
            | Some (t, r') => Some (JStr t, r')
            | None => None
            end
          else if (n =? 45)%N then                            (* -numeral *)
            match readNatural r with
            | Some (k, r') => Some (JNum (- k), r')
            | None => None
            end
          else if isDigit c then
            match readNatural (String c r) with
            | Some (k, r') => Some (JNum k, r')
            | None => None
            end
          else if (n =? 116)%N then readLiteral "true" (JBool true) (String c r)
          else if (n =? 102)%N then readLiteral "false" (JBool false) (String c r)
          else if (n =? 110)%N then readLiteral "null" JNull (String c r)
          else None
      end
  end

with readElements (fuel : nat) (acc : list json) (s : string) : option (json * string) :=
  match fuel with
  | O => None
  | S fuel' =>
      match readValue fuel' s with
      | Some (v, r) =>
          match skipSpace r with
          | String c r' =>
              if (N_of_ascii c =? 44)%N then readElements fuel' (acc ++ [v]) r'
              else if (N_of_ascii c =? 93)%N then Some (JArr (acc ++ [v]), r')
              else None
          | EmptyString => None
          end
      | None => None
      end
  end

with readMembers (fuel : nat) (acc : list (string * json)) (s : string) : option (json * string) :=
  match fuel with
  | O => None
  | S fuel' =>
      match skipSpace s with
      | String q r0 =>
          if negb (N_of_ascii q =? 34)%N then None
          else
            match readChars r0 with
            | Some (k, r1) =>
                match skipSpace r1 with
                | String colon r2 =>
                    if negb (N_of_ascii colon =? 58)%N then None
                    else
                      match readValue fuel' r2 with
                      | Some (v, r) =>
                          match skipSpace r with
                          | String c r' =>
                              if (N_of_ascii c =? 44)%N then readMembers fuel' (set k v acc) r'
                              else if (N_of_ascii c =? 125)%N then Some (JObj (set k v acc), r')
                              else None
                          | EmptyString => None
                          end
                      | None => None
                      end
                | EmptyString => None
                end
            | None => None
            end
      | EmptyString => None
      end
  end.

(** [JSON.parse(text)]; [None] is the thrown [SyntaxError].  Every call of
    the reader consumes a character within two steps, so twice the length
    of the text is enough fuel. *)
Definition parse (text : string) : option json :=
  match readValue (2 * String.length text + 2) text with
  | Some (v, r) => match skipSpace r with EmptyString => Some v | String _ _ => None end
  | None => None
  end.

End JsonText.

(** [JSON.parse] as an operation that throws. *)
Definition JSON_parse (text : string) : completion json :=
  match JsonText.parse text with
  | Some v => Normal v
  | None => Throw SyntaxError
  end.

(** JSON texts of the examples are written with ['] for the double quote
    and [|] for a line feed. *)
Definition quoted (s : string) : string :=
  mapChars (fun c => if (N_of_ascii c =? 39)%N then ascii_of_N 34
                     else if (N_of_ascii c =? 124)%N then ascii_of_N 10
                     else c) s.

(* ===================================================================== *)
(** ** The regular expression of the extraction step                      *)
(* ===================================================================== *)

(** A backtracking matcher for the patterns the route needs: single code
    units, the class [[\s\S]], greedy iteration of a single unit and the end
    anchor (without the [m] flag, [$] is the end of the input). *)
Module Regex.

Inductive Atom : Type :=
| Lit (c : ascii)          (* one given code unit *)
| AnyUnit.                 (* [\s\S] *)

Inductive Term : Type :=
| One (a : Atom)
| Star (a : Atom)          (* a*, greedy *)
| EndOfInput.              (* $ *)

Definition Pattern := list Term.

Definition atomMatches (a : Atom) (c : ascii) : bool :=
  match a with
  | Lit c' => Ascii.eqb c c'
  | AnyUnit => true
  end.

(** The text the pattern matches at the start of [s], the first one in the
    order backtracking tries them: a greedy iteration takes one more unit
    whenever the rest of the pattern can still match after it. *)
Fixpoint matchHere (p : Pattern) (s : string) : option string :=
  match p with
  | [] => Some EmptyString
  | One a :: p' =>
      match s with
      | String c s' =>
          if atomMatches a c
          then match matchHere p' s' with Some m => Some (String c m) | None => None end
          else None
      | EmptyString => None
      end
  | Star a :: p' =>
      (fix iterate (s : string) : option string :=
         match s with
         | String c s' =>
             if atomMatches a c
             then match iterate s' with
                  | Some m => Some (String c m)
                  | None => matchHere p' s
                  end
             else matchHere p' s
         | EmptyString => matchHere p' s
         end) s
  | EndOfInput :: p' =>
      match s with
      | EmptyString => matchHere p' s
      | String _ _ => None
      end
  end.

(** [s.match(p)]: the match at the leftmost position that has one; [None]
    is [null], [Some m] is a result whose element [0] is [m]. *)
Fixpoint search (p : Pattern) (s : string) : option string :=
  match matchHere p s with
  | Some m => Some m
  | None =>
      match s with
      | String _ s' => search p s'
      | EmptyString => None
      end
  end.

End Regex.

(** [/\{[\s\S]*\}$/] (route.ts, line 166). *)
Definition objectAtEnd : Regex.Pattern :=
  [Regex.One (Regex.Lit "{"); Regex.Star Regex.AnyUnit;
   Regex.One (Regex.Lit "}"); Regex.EndOfInput].

(* ===================================================================== *)
(** ** The provider, the clock and the retrying transport                 *)
(* ===================================================================== *)

(** A [fetch] response: [res.status] and the text [res.text()] reads;
    [res.ok] holds for the statuses 200 to 299. *)
Record Response : Type := { status : Z; text : string }.

Definition ok (res : Response) : bool :=
  (200 <=? status res) && (status res <=? 299).

(** [fetch] resolves with a response or rejects (a network failure). *)
Inductive FetchOutcome : Type :=
| Resolves (res : Response)
| Rejects (e : exn).

(** The provider seen from the route: the outcome of its n-th call,
    counted from 0. *)
Definition Provider := nat -> FetchOutcome.

(** What the route does to the outside: calls of [fetch] and timer waits. *)
Inductive Event : Type :=
| Fetch
| Wait (ms : Z).

Record World : Type := { calls : nat; trace : list Event }.

Definition start : World := {| calls := 0; trace := [] |}.

(** Asynchronous code: a computation on the world that ends normally or
    throws. *)
Definition Async (A : Type) : Type := World -> completion A * World.

Definition ret {A} (a : A) : Async A := fun w => (Normal a, w).

Definition throw {A} (e : exn) : Async A := fun w => (Throw e, w).

Definition bind {A B} (m : Async A) (k : A -> Async B) : Async B :=
  fun w =>
    match m w with
    | (Normal a, w') => k a w'
    | (Throw e, w') => (Throw e, w')
    end.

Definition lift {A} (c : completion A) : Async A := fun w => (c, w).

Notation "x <~ m ;; k" := (bind m (fun x => k))
  (at level 61, m at next level, right associativity) : js_scope.

(** [await fetch(url, init)] *)
Definition fetch (provider : Provider) : Async Response :=
  fun w =>
    let w' := {| calls := S (calls w); trace := trace w ++ [Fetch] |} in
    match provider (calls w) with
    | Resolves res => (Normal res, w')
    | Rejects e => (Throw e, w')
    end.

(** [await new Promise((r) => setTimeout(r, wait))] *)
Definition sleep (ms : Z) : Async unit :=
  fun w => (Normal tt, {| calls := calls w; trace := trace w ++ [Wait ms] |}).

(** The statuses the transport retries: [res.status === 429 ||
    (res.status >= 500 && res.status < 600)]. *)
Definition retryable (res : Response) : bool :=
  (status res =? 429) || ((500 <=? status res) && (status res <? 600)).

(** The loop of [fwFetchWithRetry] from iteration [i] on, with
    [remaining = tries - i] iterations left. *)
Fixpoint retryFrom (provider : Provider) (remaining i : nat) (lastErr : option string)
  : Async Response :=
  match remaining with
  | O =>
      throw (Error (match lastErr with
                    | Some e => e
                    | None => "Fireworks retry failed"
                    end))
  | S remaining' =>
      res <~ fetch provider ;;
      if ok res then ret res
      else if retryable res then
        _ <~ sleep (300 * 2 ^ Z.of_nat i) ;;
        retryFrom provider remaining' (S i) (Some (text res))
      else ret res
  end.

(** [fwFetchWithRetry] (route.ts, lines 37-55). *)
Definition fwFetchWithRetry (provider : Provider) (tries : nat) : Async Response :=
  retryFrom provider tries 0 None.

(* ===================================================================== *)
(** ** The handler [POST] (route.ts, lines 108-240)                       *)
(* ===================================================================== *)

(** [process.env] *)
Record Env : Type := {
  FIREWORKS_API_KEY : option string;
  FIREWORKS_MODEL : option string
}.

(** The second property of an error body, when there is one. *)
Inductive Extra : Type :=
| NoExtra
| Details (details : string)
| Raw (raw : string)
| Parsed (parsed : json).

(** The bodies the handler sends: the normalized payload, [{ error, ... }]
    with one of the route's own texts, or [{ error: err.message }] from the
    [catch] clause. *)
Inductive Body : Type :=
| Payload (parsed : json)
| Failure (error : string) (extra : Extra)
| Caught (err : exn).

Record NextResponse : Type := { httpStatus : Z; body : Body }.

(** [NextResponse.json(body, { status })] *)
Definition NextResponse_json (b : Body) (st : Z) : NextResponse :=
  {| httpStatus := st; body := b |}.

(** [typeof v === "string"] *)
Definition isString (v : option json) : bool :=
  match v with Some (JStr _) => true | _ => false end.

(** [v === "literal"] *)
Definition strictEq (v : option json) (literal : string) : bool :=
  match v with Some (JStr s) => String.eqb s literal | _ => false end.

(** Line 164: [data?.choices?.[0]?.message?.content], and the same with
    [?? ""]. *)
Definition completionAt (data : json) : option json :=
  optGet (optGet (optIndex0 (optGet (Some data) "choices")) "message") "content".

Definition completionText (data : json) : json :=
  nullish (completionAt data) (JStr "").

(** Lines 166-167: [raw.match(/\{[\s\S]*\}$/)], then [raw = match[0]] when
    there is a match.  Only a text has a [match] method. *)
Definition extract (raw : json) : completion string :=
  match raw with
  | JStr s =>
      Normal (match Regex.search objectAtEnd s with
              | Some m => m
              | None => s
              end)
  | _ => Throw TypeError
  end.

(** Lines 186-192, the callback of [map] over the sections.  A method of
    [String.prototype] called on anything but a text throws; [?.] lets
    [undefined] and [null] through. *)
Definition normalizeSection (s : json) : completion json :=
  t <- get s "title" ;;
  title <- match t with
           | Some (JStr x) => Normal (trim (toUpperCase x))
           | _ => Throw TypeError
           end ;;
  u <- get s "url" ;;
  url <- match u with
         | None | Some JNull => Normal ("/recipes/" ++ slugify title)
         | Some (JStr x) =>
             Normal (if startsWith "/" x then x else "/recipes/" ++ slugify title)
         | Some _ => Throw TypeError
         end ;;
  te <- get s "teaser" ;;
  teaser <- match te with
            | None | Some JNull => Normal ""
            | Some (JStr x) => Normal (trim x)
            | Some _ => Throw TypeError
            end ;;
  Normal (JObj [("title", JStr title); ("teaser", JStr teaser); ("url", JStr url)]).

(** Lines 180-193, the landing branch on the properties [ms] of [parsed]. *)
Definition landing (parsed : json) (ms : list (string * json)) : completion NextResponse :=
  match lookup "intro" ms, lookup "sections" ms with
  | Some (JStr _), Some (JArr sections) =>
      out <- mapM normalizeSection (firstn 8 sections) ;;
      Normal (NextResponse_json (Payload (JObj (set "sections" (JArr out) ms))) 200)
  | _, _ =>
      Normal (NextResponse_json (Failure "Landing shape invalid" (Parsed parsed)) 502)
  end.

(** [String(v).trim()] *)
Definition trimmed (v : json) : completion string :=
  s <- ToString v ;; Normal (trim s).

(** Lines 208-213, the callback of [map] over the ingredient groups.  The
    property [group: undefined] of the new object is not set here: the
    serialization of the payload leaves such a property out. *)
Definition normalizeGroup (g : json) : completion json :=
  grp <- get g "group" ;;
  group <- match grp with
           | Some v => if truthy grp then (s <- trimmed v ;; Normal (Some s)) else Normal None
           | None => Normal None
           end ;;
  its <- get g "items" ;;
  items <- match its with
           | Some (JArr l) => xs <- mapM trimmed l ;; Normal (filterBoolean xs)
           | _ => Normal []
           end ;;
  Normal (JObj (match group with
                | Some s => [("group", JStr s)]
                | None => []
                end ++ [("items", JArr (map JStr items))])).

(** [(v ?? []).map((s) => String(s).trim())]: only an array has [map]. *)
Definition trimmedList (v : option json) : completion json :=
  match nullish v (JArr []) with
  | JArr l => xs <- mapM trimmed l ;; Normal (JArr (map JStr xs))
  | _ => Throw TypeError
  end.

(** Lines 217-220: [if (parsed.intro) parsed.intro = String(parsed.intro).trim()]. *)
Definition trimIntro (ms : list (string * json)) : completion (list (string * json)) :=
  match lookup "intro" ms with
  | Some v =>
      if truthy (Some v)
      then (s <- trimmed v ;; Normal (set "intro" (JStr s) ms))
      else Normal ms
  | None => Normal ms
  end.

(** Lines 197-227, the recipe branch on the properties [ms] of [parsed];
    each assignment is read by the statements after it. *)
Definition recipe (parsed : json) (ms : list (string * json)) : completion NextResponse :=
  match lookup "title" ms, lookup "ingredients" ms, lookup "steps" ms with
  | Some (JStr title), Some (JArr ingredients), Some (JArr steps) =>
      let ms1 := set "title" (JStr (trim title)) ms in
      groups <- mapM normalizeGroup ingredients ;;
      let ms2 := set "ingredients" (JArr groups) ms1 in
      xs <- mapM trimmed steps ;;
      let ms3 := set "steps" (JArr (map JStr (filterBoolean xs))) ms2 in
      ms4 <- trimIntro ms3 ;;
      used <- trimmedList (lookup "used_ingredients" ms4) ;;
      let ms5 := set "used_ingredients" used ms4 in
      suggested <- trimmedList (lookup "suggested_additions" ms5) ;;
      let ms6 := set "suggested_additions" suggested ms5 in
      Normal (NextResponse_json (Payload (JObj ms6)) 200)
  | _, _, _ =>
      Normal (NextResponse_json (Failure "Recipe shape invalid" (Parsed parsed)) 502)
  end.

(** Lines 179-233: the branch on [parsed.mode].  Reading a property of
    [null] throws; of the other values only an object has a [mode]. *)
Definition validate (parsed : json) : completion NextResponse :=
  match parsed with
  | JNull => Throw TypeError
  | JObj ms =>
      if strictEq (lookup "mode" ms) "landing" then landing parsed ms
      else if strictEq (lookup "mode" ms) "recipe" then recipe parsed ms
      else Normal (NextResponse_json (Failure "Unknown mode" (Parsed parsed)) 502)
  | _ => Normal (NextResponse_json (Failure "Unknown mode" (Parsed parsed)) 502)
  end.

(** Lines 163-233: from the provider's envelope to the reply. *)
Definition fromEnvelope (data : json) : completion NextResponse :=
  raw <- extract (completionText data) ;;
  match JsonText.parse raw with
  | None => Normal (NextResponse_json (Failure "Invalid JSON from model" (Raw raw)) 502)
  | Some parsed => validate parsed
  end.

(** Lines 155-233: what the handler does with the transport's response. *)
Definition fromResponse (fwRes : Response) : completion NextResponse :=
  if negb (ok fwRes)
  then Normal (NextResponse_json (Failure "Fireworks error" (Details (text fwRes))) 502)
  else data <- JSON_parse (text fwRes) ;; fromEnvelope data.

(** The [try] block of [POST].  The outgoing request (model, messages,
    temperature) is built from texts only and decides nothing below; the
    provider is given by its responses. *)
Definition POST_try (env : Env) (provider : Provider) (request : string)
  : Async NextResponse :=
  req <~ lift (JSON_parse request) ;;
  prompt <~ lift (get req "prompt") ;;
  if negb (truthy prompt) || negb (isString prompt)
  then ret (NextResponse_json (Failure "Missing prompt" NoExtra) 400)
  else
    if negb (match FIREWORKS_API_KEY env with
             | Some k => negb (isEmpty k)
             | None => false
             end)
    then ret (NextResponse_json (Failure "Missing FIREWORKS_API_KEY" NoExtra) 500)
    else
      fwRes <~ fwFetchWithRetry provider 3 ;;
      lift (fromResponse fwRes).

(** [POST]: whatever the [try] block throws is answered with status 500
    and the message of the error. *)
Definition POST (env : Env) (provider : Provider) (request : string)
  : World -> NextResponse * World :=
  fun w =>
    match POST_try env provider request w with
    | (Normal res, w') => (res, w')
    | (Throw err, w') => (NextResponse_json (Caught err) 500, w')
    end.

(* ===================================================================== *)
(** ** The pages that call the route                                      *)
(* ===================================================================== *)

(** *** The recipe page ([src/unnamed/part_000], lines 22-27) *)

(** [\w] *)
Definition isWordChar (c : ascii) : bool :=
  let n := N_of_ascii c in
  ((48 <=? n)%N && (n <=? 57)%N) || ((65 <=? n)%N && (n <=? 90)%N)
  || (n =? 95)%N || ((97 <=? n)%N && (n <=? 122)%N).

(** [s.replace(/\b\w/g, (m) => m.toUpperCase())]: a word character that no
    word character precedes is put in upper case.  [afterWord] tells that
    the previous character of the text was a word character. *)
Fixpoint capitalizeWords (afterWord : bool) (s : string) : string :=
  match s with
  | EmptyString => EmptyString
  | String c s' =>
      String (if isWordChar c && negb afterWord then toUpperChar c else c)
             (capitalizeWords (isWordChar c) s')
  end.

(** [s.replace(/-/g, " ")] on one character. *)
Definition hyphenToSpace (c : ascii) : ascii :=
  if Ascii.eqb c "-" then " "%char else c.

(** [unslugify]: hyphens to spaces, the first letter of every word in
    upper case, trimmed. *)
Definition unslugify (s : string) : string :=
  trim (capitalizeWords false (mapChars hyphenToSpace s)).

(** *** [JSON.stringify({ prompt })] *)

(** The text is quoted as QuoteJSONString does: the short escapes of
    backspace, tab, line feed, form feed, carriage return, quote and
    backslash, a [\u00XX] escape in lower-case hexadecimal for the other
    characters below space, and every other character as it is. *)
Module JsonStringify.

Definition hexDigit (n : N) : ascii :=
  if (n <? 10)%N then ascii_of_N (48 + n) else ascii_of_N (87 + n).

(** A backslash and [e]. *)
Definition escaped (e : ascii) : string := String (ascii_of_N 92) (String e EmptyString).

Definition quoteUnit (c : ascii) : string :=
  let n := N_of_ascii c in
  if (n =? 8)%N then escaped "b"
  else if (n =? 9)%N then escaped "t"
  else if (n =? 10)%N then escaped "n"
  else if (n =? 12)%N then escaped "f"
  else if (n =? 13)%N then escaped "r"
  else if (n =? 34)%N then escaped c
  else if (n =? 92)%N then escaped c
  else if (n <? 32)%N then
    escaped "u" ++ "00" ++ String (hexDigit (n / 16)) (String (hexDigit (n mod 16)) EmptyString)
  else String c EmptyString.

Fixpoint quoteUnits (s : string) : string :=
  match s with
  | EmptyString => EmptyString
  | String c s' => quoteUnit c ++ quoteUnits s'
  end.

Definition quoteJSONString (s : string) : string :=
  String (ascii_of_N 34) (quoteUnits s ++ String (ascii_of_N 34) EmptyString).

(** [JSON.stringify({ prompt: p })] *)
Definition stringifyPrompt (p : string) : string :=
  "{" ++ quoteJSONString "prompt" ++ ":" ++ quoteJSONString p ++ "}".

End JsonStringify.

(** *** The requests of the pages *)

(** [callAPI(p)] of the home page ([src/app/page.tsx], lines 44-69) and
    [run] of the recipe page ([src/unnamed/part_000], lines 36-62) post
    [JSON.stringify({ prompt })] to the route.  The functions below give
    the body of the request that is posted. *)
Module Page.

Definition callAPI (p : string) : string := JsonStringify.stringifyPrompt p.

(** [onSubmit] (page.tsx, lines 71-75) returns without a request when the
    trimmed text of the textarea is empty. *)
Definition onSubmit (prompt : string) : option string :=
  if isEmpty (trim prompt) then None else Some (callAPI (trim prompt)).

(** The prompt of [openRecipe(title)] and of the recipe page. *)
Definition recipePrompt (title : string) : string :=
  "Give me the full recipe for: " ++ title.

(** [openRecipe] (page.tsx, lines 77-81) *)
Definition openRecipe (title : string) : string := callAPI (recipePrompt title).

(** [run] of the recipe page, for the slug of the address. *)
Definition run (slug : string) : string :=
  JsonStringify.stringifyPrompt (recipePrompt (unslugify slug)).

(** What a visitor does: the form is submitted with the text of the
    textarea, an idea of the landing is opened, or the recipe page is
    loaded for a slug. *)
Inductive Action : Type :=
| Submit (prompt : string)
| OpenRecipe (title : string)
| LoadRecipe (slug : string).

Definition requestOf (a : Action) : option string :=
  match a with
  | Submit prompt => onSubmit prompt
  | OpenRecipe title => Some (openRecipe title)
  | LoadRecipe slug => Some (run slug)
  end.

End Page.

(* ===================================================================== *)
(** ** Vocabulary of the properties                                       *)
(* ===================================================================== *)

(** The code unit [c] occurs in [s]. *)
Fixpoint hasUnit (c : ascii) (s : string) : bool :=
  match s with
  | EmptyString => false
  | String d s' => Ascii.eqb d c || hasUnit c s'
  end.

(** The last code unit of [s] is [c]. *)
Fixpoint lastIs (c : ascii) (s : string) : bool :=
  match s with
  | EmptyString => false
  | String d s' =>
      match s' with
      | EmptyString => Ascii.eqb d c
      | String _ _ => lastIs c s'
      end
  end.

(** The end of the extraction pattern: [\}$]. *)
Definition closing : Regex.Pattern := [Regex.One (Regex.Lit "}"); Regex.EndOfInput].

(** The response has status 429 or 5xx. *)
Definition transient (res : Response) : Prop :=
  status res = 429 \/ 500 <= status res < 600.

(** The events of [n] attempts that are all retried, the first of them
    being iteration [i] of the loop. *)
Fixpoint retries (i n : nat) : list Event :=
  match n with
  | O => []
  | S n' => Fetch :: Wait (300 * 2 ^ Z.of_nat i) :: retries (S i) n'
  end.

(** A provider that answers by a script and goes on with [final]. *)
Definition scripted (script : list Response) (final : Response) : Provider :=
  fun n => Resolves (nth n script final).

(** The provider's envelope around a completion. *)
Definition envelope (content : json) : json :=
  JObj [("choices", JArr [JObj [("message", JObj [("content", content)])]])].

(** The request reaches the transport: its body is JSON with a non-empty
    text [prompt], and the credential is configured. *)
Definition accepted (env : Env) (request : string) : Prop :=
  exists req p k,
    JsonText.parse request = Some req /\
    get req "prompt" = Normal (Some (JStr p)) /\ isEmpty p = false /\
    FIREWORKS_API_KEY env = Some k /\ isEmpty k = false.

(** A text that [trim] leaves alone; a trimmed text that is not empty. *)
Definition trimmedText (s : string) : Prop := trim s = s.
Definition cleanText (s : string) : Prop := trim s = s /\ isEmpty s = false.

(** A property that is a text, [null] or not there. *)
Definition textOrAbsent (v : option json) : bool :=
  match v with
  | None | Some JNull | Some (JStr _) => true
  | Some _ => false
  end.

(** A section the callback of the landing branch accepts: an object whose
    [title] is a text and whose [url] and [teaser] are texts when given. *)
Definition validSection (s : json) : bool :=
  match s with
  | JObj ms =>
      isString (lookup "title" ms) && textOrAbsent (lookup "url" ms)
      && textOrAbsent (lookup "teaser" ms)
  | _ => false
  end.

(** The value is a text that starts with a solidus. *)
Definition startsWithSolidus (u : option json) : bool :=
  match u with
  | Some (JStr x) => startsWith "/" x
  | _ => false
  end.

(** The landing shape check of line 180 passes on an object of mode
    landing. *)
Definition landingShape (ms : list (string * json)) (sections : list json) : Prop :=
  strictEq (lookup "mode" ms) "landing" = true /\
  isString (lookup "intro" ms) = true /\
  lookup "sections" ms = Some (JArr sections).

(** What the callback of the landing branch builds: the three texts, the
    title in upper case, title and teaser trimmed, the url a path. *)
Definition isNormalSection (o : json) : Prop :=
  exists t te u,
    o = JObj [("title", JStr t); ("teaser", JStr te); ("url", JStr u)] /\
    trim (toUpperCase t) = t /\ trim te = te /\ startsWith "/" u = true.

(** What the callback of the recipe branch builds: the items are clean
    texts, and the label, when there is one, is a trimmed text. *)
Definition isNormalGroup (g : json) : Prop :=
  exists items label,
    g = JObj (match label with
              | Some s => [("group", JStr s)]
              | None => []
              end ++ [("items", JArr (map JStr items))]) /\
    Forall cleanText items /\
    (forall s, label = Some s -> trimmedText s).

(** The group has the empty text for its label. *)
Definition emptyLabel (g : json) : bool :=
  match optGet (Some g) "group" with
  | Some (JStr s) => isEmpty s
  | _ => false
  end.

(** The texts of a landing payload after the landing branch. *)
Definition LandingNormalized (ms : list (string * json)) : Prop :=
  exists out, lookup "sections" ms = Some (JArr out) /\ Forall isNormalSection out.

(** The texts of a recipe payload after the recipe branch: [steps] and the
    items of the groups are clean, [used_ingredients] and
    [suggested_additions] are trimmed, [title] is trimmed and so is [intro]
    unless it is a falsy value, which stays as it was. *)
Record RecipeNormalized (ms : list (string * json)) : Prop := {
  normalized_title :
    exists t, lookup "title" ms = Some (JStr t) /\ trimmedText t;
  normalized_ingredients :
    exists gs, lookup "ingredients" ms = Some (JArr gs) /\ Forall isNormalGroup gs;
  normalized_steps :
    exists xs, lookup "steps" ms = Some (JArr (map JStr xs)) /\ Forall cleanText xs;
  normalized_intro :
    forall v, lookup "intro" ms = Some v -> truthy (Some v) = true ->
              exists s, v = JStr s /\ trimmedText s;
  normalized_used :
    exists xs, lookup "used_ingredients" ms = Some (JArr (map JStr xs)) /\
               Forall trimmedText xs;
  normalized_suggested :
    exists xs, lookup "suggested_additions" ms = Some (JArr (map JStr xs)) /\
               Forall trimmedText xs
}.

(** The model's output has the declared type [RecipePayload] (route.ts,
    lines 12-24) in the properties the recipe branch reads: [title] is a
    text, [steps] an array of texts, [ingredients] an array of objects with
    an array of texts for [items] and, when given, a text for [group];
    [intro], [used_ingredients] and [suggested_additions] are optional. *)
Definition isText (v : json) : bool :=
  match v with JStr _ => true | _ => false end.

Definition textArray (v : option json) : bool :=
  match v with Some (JArr l) => forallb isText l | _ => false end.

Definition optional (check : option json -> bool) (v : option json) : bool :=
  match v with None => true | Some _ => check v end.

Definition typedGroup (g : json) : bool :=
  match g with
  | JObj ms => optional isString (lookup "group" ms) && textArray (lookup "items" ms)
  | _ => false
  end.

Definition typedRecipe (ms : list (string * json)) : bool :=
  isString (lookup "title" ms)
  && match lookup "ingredients" ms with
     | Some (JArr gs) => forallb typedGroup gs
     | _ => false
     end
  && textArray (lookup "steps" ms)
  && optional isString (lookup "intro" ms)
  && optional textArray (lookup "used_ingredients" ms)
  && optional textArray (lookup "suggested_additions" ms).

(** The properties the recipe branch assigns. *)
Definition rewritten (k : string) : bool :=
  existsb (String.eqb k)
    ["title"; "ingredients"; "steps"; "intro"; "used_ingredients"; "suggested_additions"].

(** No ingredient group of a recipe payload has the empty text for label. *)
Definition noEmptyLabel (p : json) : Prop :=
  strictEq (optGet (Some p) "mode") "recipe" = true ->
  forall gs, optGet (Some p) "ingredients" = Some (JArr gs) ->
             Forall (fun g => emptyLabel g = false) gs.

(** The successful reply carrying [p]. *)
Definition success (p : json) : NextResponse := NextResponse_json (Payload p) 200.

(** The envelope has no completion at the expected place. *)
Definition lacksCompletion (data : json) : Prop :=
  completionAt data = None \/ completionAt data = Some JNull.

(** The reply to a completion that [JSON.parse] refuses. *)
Definition invalidModelJSON (raw : string) : NextResponse :=
  NextResponse_json (Failure "Invalid JSON from model" (Raw raw)) 502.

(** A list of texts as the data model of the specification wants every
    one of them: each element a trimmed text, none of them empty. *)
Definition cleanList (v : option json) : bool :=
  match v with
  | Some (JArr l) =>
      forallb (fun x => match x with
                        | JStr s => String.eqb (trim s) s && negb (isEmpty s)
                        | _ => false
                        end) l
  | _ => false
  end.

(** Every code unit of [s] satisfies [p]. *)
Fixpoint allUnits (p : ascii -> bool) (s : string) : bool :=
  match s with
  | EmptyString => true
  | String c s' => p c && allUnits p s'
  end.

(** The characters of a slug: lower-case letters, digits and the hyphen. *)
Definition slugUnit (c : ascii) : bool := slugChar c && negb (isWhiteSpace c).

(** The characters [slugify] keeps, the hyphen apart. *)
Definition plainUnit (c : ascii) : bool := slugChar c && negb (Ascii.eqb c "-").

(** A slug of words: slug characters, no hyphen at either end and no two
    hyphens in a row.  [afterHyphen] tells that a word has to start here. *)
Fixpoint wordsFrom (afterHyphen : bool) (s : string) : bool :=
  match s with
  | EmptyString => negb afterHyphen
  | String c s' =>
      if Ascii.eqb c "-" then negb afterHyphen && wordsFrom true s'
      else slugUnit c && wordsFrom false s'
  end.

Definition wordSlug (s : string) : bool := isEmpty s || wordsFrom true s.

(** The time spent waiting in a trace, in milliseconds, and the number of
    its calls of [fetch]. *)
Fixpoint waited (t : list Event) : Z :=
  match t with
  | [] => 0
  | Fetch :: t' => waited t'
  | Wait ms :: t' => ms + waited t'
  end.

Fixpoint fetches (t : list Event) : nat :=
  match t with
  | [] => 0%nat
  | Fetch :: t' => S (fetches t')
  | Wait _ :: t' => fetches t'
  end.

(** The request carries a prompt the handler accepts: a text that is not
    empty. *)
Definition validPrompt (req : json) : bool :=
  match req with
  | JObj ms =>
      match lookup "prompt" ms with
      | Some (JStr p) => negb (isEmpty p)
      | _ => false
      end
  | _ => false
  end.

(** The credential is configured: set and not empty. *)
Definition hasKey (env : Env) : bool :=
  match FIREWORKS_API_KEY env with
  | Some k => negb (isEmpty k)
  | None => false
  end.

(** The property is [null] or not there. *)
Definition nullOrAbsent (v : option json) : bool :=
  match v with
  | None | Some JNull => true
  | Some _ => false
  end.

(** [v ?? []] has a [map]: [v] is an array, [null] or not there. *)
Definition listOrAbsent (v : option json) : bool :=
  match nullish v (JArr []) with
  | JArr _ => true
  | _ => false
  end.

(** The code units of the alphabet on which the case mappings and the
    white space of this file are those of ECMAScript. *)
Definition isAsciiUnit (c : ascii) : bool := (N_of_ascii c <? 128)%N.

Definition asciiText (s : string) : bool := allUnits isAsciiUnit s.

(** The words of a text, its maximal runs of characters that are not
    white space, and the words joined by hyphens.  [startsWord s] tells
    that [s] starts inside a word; [extendWords c joined ws] puts [c] in
    front of the first word of [ws] when [joined], and makes a word of
    [c] otherwise. *)
Definition startsWord (s : string) : bool :=
  match s with
  | String d _ => negb (isWhiteSpace d)
  | EmptyString => false
  end.

Definition extendWords (c : ascii) (joined : bool) (ws : list string) : list string :=
  match joined, ws with
  | true, w :: rest => String c w :: rest
  | _, _ => String c EmptyString :: ws
  end.

Fixpoint wordsOf (s : string) : list string :=
  match s with
  | EmptyString => []
  | String c s' =>
      if isWhiteSpace c then wordsOf s'
      else extendWords c (startsWord s') (wordsOf s')
  end.

Definition hyphenated (ws : list string) : string := String.concat "-" ws.

(** [x] is [String(v).trim()]. *)
Definition TrimmedOf (v : json) (x : string) : Prop :=
  exists s, ToString v = Normal s /\ x = trim s.

(** [output] is what [(input ?? []).map((s) => String(s).trim())] gives:
    as many texts as [input] has elements, the i-th being the trimmed text
    of the i-th element, the empty ones included. *)
Definition ListTexts (input output : option json) : Prop :=
  exists l xs,
    nullish input (JArr []) = JArr l /\ Forall2 TrimmedOf l xs /\
    output = Some (JArr (map JStr xs)).

(** [output] is what [input.map((s) => String(s).trim()).filter(Boolean)]
    gives: the trimmed texts of the elements in their order, without the
    empty ones. *)
Definition CleanTexts (input : list json) (output : option json) : Prop :=
  exists xs,
    Forall2 TrimmedOf input xs /\ output = Some (JArr (map JStr (filterBoolean xs))).

(** [output] is the trimmed text of [input] when that is a truthy value,
    and [whenFalsy] otherwise. *)
Definition TextIfTruthy (input output whenFalsy : option json) : Prop :=
  if truthy input
  then exists v x, input = Some v /\ TrimmedOf v x /\ output = Some (JStr x)
  else output = whenFalsy.

(** The group [o] of a payload against the group [g] of the output: the
    label is the trimmed text of a truthy label and is left out
    otherwise; the items are the clean texts of the items, none when [g]
    has no array of items. *)
Definition GroupTexts (g o : json) : Prop :=
  TextIfTruthy (optGet (Some g) "group") (optGet (Some o) "group") None /\
  CleanTexts (match optGet (Some g) "items" with Some (JArr l) => l | _ => [] end)
             (optGet (Some o) "items").

(** The texts of a recipe payload against the output [input] of the
    model. *)
Record RecipeTexts (input output : list (string * json)) : Prop := {
  texts_title :
    exists t, lookup "title" input = Some (JStr t) /\
              lookup "title" output = Some (JStr (trim t));
  texts_ingredients :
    exists gs os, lookup "ingredients" input = Some (JArr gs) /\
                  lookup "ingredients" output = Some (JArr os) /\
                  Forall2 GroupTexts gs os;
  texts_steps :
    exists l, lookup "steps" input = Some (JArr l) /\ CleanTexts l (lookup "steps" output);
  texts_intro :
    TextIfTruthy (lookup "intro" input) (lookup "intro" output) (lookup "intro" input);
  texts_used :
    ListTexts (lookup "used_ingredients" input) (lookup "used_ingredients" output);
  texts_suggested :
    ListTexts (lookup "suggested_additions" input) (lookup "suggested_additions" output);
  texts_notes : lookup "notes" output = lookup "notes" input
}.

(** The section [o] of a payload against the section [s] of the output:
    the title in upper case and trimmed, the teaser trimmed, the empty
    text when [s] has [null] or nothing there. *)
Definition SectionTexts (s o : json) : Prop :=
  exists t,
    optGet (Some s) "title" = Some (JStr t) /\
    optGet (Some o) "title" = Some (JStr (trim (toUpperCase t))) /\
    optGet (Some o) "teaser"
    = Some (JStr (match optGet (Some s) "teaser" with
                  | Some (JStr x) => trim x
                  | _ => ""
                  end)).

(** The texts of a landing payload against the output [input] of the
    model: the first eight sections, the intro as it was. *)
Definition LandingTexts (input output : list (string * json)) : Prop :=
  (exists sections out,
      lookup "sections" input = Some (JArr sections) /\
      lookup "sections" output = Some (JArr out) /\
      Forall2 SectionTexts (firstn 8 sections) out) /\
  lookup "intro" output = lookup "intro" input.

(** Sample requests, provider answers and model outputs. *)
Module Sample.

Definition env : Env :=
  {| FIREWORKS_API_KEY := Some "fw-key"; FIREWORKS_MODEL := None |}.

Definition request : string := quoted "{'prompt':'Give me dinner ideas'}".

(** The provider answers 200 with [body] at once. *)
Definition answering (body : string) : Provider :=
  scripted [] {| status := 200; text := body |}.

Definition once : World := {| calls := 1; trace := [Fetch] |}.

(** A landing output whose only section has no title. *)
Definition untitledLanding : string :=
  quoted "{'mode':'landing','intro':'Ideas','sections':[{'teaser':'Warm and quick'}]}".
Definition untitledLandingEnvelope : string :=
  quoted "{'choices':[{'message':{'content':'{\'mode\':\'landing\',\'intro\':\'Ideas\',\'sections\':[{\'teaser\':\'Warm and quick\'}]}'}}]}".

(** A recipe object, alone and inside a code fence after a greeting. *)
Definition recipeMembers : string :=
  quoted "'mode':'recipe','title':'Toast','ingredients':[],'steps':[]".
Definition recipeObject : string := "{" ++ recipeMembers ++ "}".
Definition fenced : string :=
  quoted "Sure! ```json|" ++ recipeObject ++ quoted "|```".
Definition braced : string := "Here is {toast}: " ++ recipeObject.
Definition fencedEnvelope : string :=
  quoted "{'choices':[{'message':{'content':'Sure! ```json\n{\'mode\':\'recipe\',\'title\':\'Toast\',\'ingredients\':[],\'steps\':[]}\n```'}}]}".

(** The stubbed answer of the specification's end-to-end scenario. *)
Definition tunaRollEnvelope : string :=
  quoted "{'choices':[{'message':{'content':'{\'mode\':\'recipe\',\'title\':\'  spicy tuna roll \',\'ingredients\':[{\'items\':[\'tuna\',\' \',\'rice\']}],\'steps\':[\' Cook rice.\',\'Roll it.\']}'}}]}".

(** Envelopes without a completion, and with a completion in prose. *)
Definition noChoices : string := quoted "{'choices':[]}".
Definition proseEnvelope : string :=
  quoted "{'choices':[{'message':{'content':'Sorry, no recipe today.'}}]}".

(** A provider that is always busy. *)
Definition busy : Provider := scripted [] {| status := 429; text := "slow down" |}.

(** Nine ideas. *)
Definition idea (name : string) : json :=
  JObj [("title", JStr name); ("teaser", JStr " try it ")].
Definition nineIdeas : list json :=
  map idea ["one"; "two"; "three"; "four"; "five"; "six"; "seven"; "eight"; "nine"].
Definition nineIdeasLanding : list (string * json) :=
  [("mode", JStr "landing"); ("intro", JStr "Ideas"); ("sections", JArr nineIdeas)].

(** A landing output with a relative url and with a path. *)
Definition soups : list json :=
  [JObj [("title", JStr " Miso  Soup! "); ("url", JStr "miso")];
   JObj [("title", JStr "Ramen"); ("url", JStr "/noodles/ramen")]].
Definition soupsLanding : list (string * json) :=
  [("mode", JStr "landing"); ("intro", JStr "Soups"); ("sections", JArr soups)].

Definition paddedLanding : list (string * json) :=
  [("mode", JStr "landing"); ("intro", JStr " Two soups. "); ("sections", JArr soups)].

(** Recipe outputs: one with a blank group label, a blank used ingredient
    and a padded note, and one with servings, time and notes. *)
Definition blankLabel : list (string * json) :=
  [("mode", JStr "recipe"); ("title", JStr " Toast ");
   ("ingredients", JArr [JObj [("group", JStr " "); ("items", JArr [JStr "bread"])]]);
   ("steps", JArr [JStr " Toast the bread. "]);
   ("notes", JArr [JStr " Serve warm. "]);
   ("used_ingredients", JArr [JStr "bread"; JStr " "])].

Definition timedRecipe : list (string * json) :=
  [("mode", JStr "recipe"); ("title", JStr " Toast ");
   ("servings", JNum 2);
   ("time", JObj [("prep", JStr " 2 min "); ("total", JStr "5 min")]);
   ("ingredients", JArr [JObj [("items", JArr [JStr " bread "; JStr ""])]]);
   ("steps", JArr [JStr " Toast the bread. "]);
   ("notes", JArr [JStr " Serve warm. "])].

(** An environment without the credential. *)
Definition noKey : Env := {| FIREWORKS_API_KEY := None; FIREWORKS_MODEL := None |}.

(** A provider that is busy once and cannot be reached afterwards. *)
Definition unreachable : Provider :=
  fun n =>
    match n with
    | O => Resolves {| status := 503; text := "busy" |}
    | S _ => Rejects TypeError
    end.

(** A recipe output with blank entries and no list of used or suggested
    ingredients, and the same with a [null] group and with a text for the
    used ingredients. *)
Definition sparseRecipe : list (string * json) :=
  [("mode", JStr "recipe"); ("title", JStr "Toast");
   ("ingredients", JArr [JObj [("items", JArr [JStr " bread "; JStr ""; JStr "butter"])]]);
   ("steps", JArr [JStr " Slice. "; JStr "  "; JStr "Toast."]);
   ("suggested_additions", JNull)].

Definition nullGroupRecipe : list (string * json) :=
  [("mode", JStr "recipe"); ("title", JStr "Toast");
   ("ingredients", JArr [JObj [("items", JArr [JStr "bread"])]; JNull]);
   ("steps", JArr [JStr "Toast."])].

Definition usedTextRecipe : list (string * json) :=
  [("mode", JStr "recipe"); ("title", JStr "Toast");
   ("ingredients", JArr []); ("steps", JArr [JStr "Toast."]);
   ("used_ingredients", JStr "bread, butter")].

(** A landing output whose section has a number for url. *)
Definition numberUrlLanding : list (string * json) :=
  [("mode", JStr "landing"); ("intro", JStr "Noodles");
   ("sections", JArr [JObj [("title", JStr "Ramen"); ("url", JNum 7)]])].

End Sample.

(* ===================================================================== *)
(** * Properties                                                          *)
(* ===================================================================== *)

(* ===================================================================== *)
(** ** Texts                                                             *)
(* ===================================================================== *)

Ltac inv H := inversion H; subst; clear H.

(** *** Code units *)

Ltac by_cases_on_unit c :=
  destruct c as [[] [] [] [] [] [] [] []]; vm_compute; try reflexivity; try discriminate.

Lemma isWhiteSpace_toUpperChar c : isWhiteSpace (toUpperChar c) = isWhiteSpace c.
Proof. by_cases_on_unit c. Qed.

Lemma isWhiteSpace_toLowerChar c : isWhiteSpace (toLowerChar c) = isWhiteSpace c.
Proof. by_cases_on_unit c. Qed.

Lemma toUpperChar_idem c : toUpperChar (toUpperChar c) = toUpperChar c.
Proof. by_cases_on_unit c. Qed.

Lemma toLowerChar_toUpperChar c : toLowerChar (toUpperChar c) = toLowerChar c.
Proof. by_cases_on_unit c. Qed.

Lemma slugChar_whiteSpace c : isWhiteSpace c = true -> slugChar c = true.
Proof. by_cases_on_unit c. Qed.

(** *** Trimming *)

Lemma isEmpty_true s : isEmpty s = true -> s = "".
Proof. destruct s; [reflexivity | discriminate]. Qed.

Lemma trimStart_idem s : trimStart (trimStart s) = trimStart s.
Proof.
  induction s as [|c s IH]; simpl; [reflexivity|].
  destruct (isWhiteSpace c) eqn:E; [exact IH|].
  simpl. now rewrite E.
Qed.

Lemma trimEnd_idem s : trimEnd (trimEnd s) = trimEnd s.
Proof.
  induction s as [|c s IH]; simpl; [reflexivity|].
  destruct (isWhiteSpace c && isEmpty (trimEnd s)) eqn:E; [reflexivity|].
  simpl. now rewrite IH, E.
Qed.

Lemma trimEnd_trimStart s : trimEnd (trimStart s) = trimStart (trimEnd s).
Proof.
  induction s as [|c s IH]; simpl; [reflexivity|].
  destruct (isWhiteSpace c) eqn:W; simpl.
  - rewrite IH. destruct (isEmpty (trimEnd s)) eqn:E; simpl.
    + apply isEmpty_true in E. now rewrite E.
    + now rewrite W.
  - now rewrite W.
Qed.

Lemma trim_idem s : trim (trim s) = trim s.
Proof.
  unfold trim.
  now rewrite <- (trimEnd_trimStart (trimStart s)), trimStart_idem, trimEnd_idem.
Qed.

Section MapChars.
Variable f : ascii -> ascii.
Hypothesis f_space : forall c, isWhiteSpace (f c) = isWhiteSpace c.

Lemma isEmpty_mapChars s : isEmpty (mapChars f s) = isEmpty s.
Proof. now destruct s. Qed.

Lemma trimStart_mapChars s : trimStart (mapChars f s) = mapChars f (trimStart s).
Proof.
  induction s as [|c s IH]; simpl; [reflexivity|].
  rewrite f_space. now destruct (isWhiteSpace c).
Qed.

Lemma trimEnd_mapChars s : trimEnd (mapChars f s) = mapChars f (trimEnd s).
Proof.
  induction s as [|c s IH]; simpl; [reflexivity|].
  rewrite f_space, IH, isEmpty_mapChars.
  now destruct (isWhiteSpace c && isEmpty (trimEnd s)).
Qed.

Lemma trim_mapChars s : trim (mapChars f s) = mapChars f (trim s).
Proof. unfold trim. now rewrite trimStart_mapChars, trimEnd_mapChars. Qed.
End MapChars.

Lemma mapChars_mapChars f g s : mapChars f (mapChars g s) = mapChars (fun c => f (g c)) s.
Proof. induction s as [|c s IH]; simpl; [reflexivity | now rewrite IH]. Qed.

Lemma mapChars_ext f g s : (forall c, f c = g c) -> mapChars f s = mapChars g s.
Proof. intros E. induction s as [|c s IH]; simpl; [reflexivity | now rewrite IH, E]. Qed.

Section FilterChars.
Variable keep : ascii -> bool.
Hypothesis keep_space : forall c, isWhiteSpace c = true -> keep c = true.

Lemma trimStart_filterChars s :
  trimStart (filterChars keep (trimStart s)) = trimStart (filterChars keep s).
Proof.
  induction s as [|c s IH]; simpl; [reflexivity|].
  destruct (isWhiteSpace c) eqn:W; [|reflexivity].
  rewrite (keep_space c W). simpl. now rewrite W.
Qed.

Lemma trimEnd_filterChars s :
  trimEnd (filterChars keep (trimEnd s)) = trimEnd (filterChars keep s).
Proof.
  induction s as [|c s IH]; simpl; [reflexivity|].
  destruct (isWhiteSpace c) eqn:W; simpl.
  - rewrite (keep_space c W). simpl. rewrite W. simpl.
    destruct (isEmpty (trimEnd s)) eqn:E.
    + apply isEmpty_true in E. rewrite E in IH. simpl in IH. now rewrite <- IH.
    + simpl. rewrite (keep_space c W). simpl. now rewrite W, IH.
  - destruct (keep c) eqn:K; simpl; rewrite ?K; simpl; rewrite ?W; simpl; now rewrite IH.
Qed.

Lemma trim_filterChars s :
  trim (filterChars keep (trim s)) = trim (filterChars keep s).
Proof.
  unfold trim.
  rewrite (trimEnd_trimStart (filterChars keep _)).
  rewrite trimEnd_filterChars.
  rewrite <- trimEnd_trimStart. 
  now rewrite trimStart_filterChars.
Qed.
End FilterChars.

Lemma toUpperCase_trim s : toUpperCase (trim s) = trim (toUpperCase s).
Proof. unfold toUpperCase. now rewrite trim_mapChars by apply isWhiteSpace_toUpperChar. Qed.

Lemma toUpperCase_idem s : toUpperCase (toUpperCase s) = toUpperCase s.
Proof.
  unfold toUpperCase. rewrite mapChars_mapChars.
  apply mapChars_ext, toUpperChar_idem.
Qed.

Lemma slugify_normalized_title t : slugify (trim (toUpperCase t)) = slugify t.
Proof.
  unfold slugify. f_equal.
  unfold toLowerCase, toUpperCase.
  rewrite <- (trim_mapChars toLowerChar isWhiteSpace_toLowerChar).
  rewrite mapChars_mapChars.
  rewrite (mapChars_ext _ toLowerChar) by apply toLowerChar_toUpperChar.
  apply trim_filterChars, slugChar_whiteSpace.
Qed.

(* ===================================================================== *)
(** ** Objects and arrays                                                *)
(* ===================================================================== *)

(** *** Objects *)

Lemma lookup_set_same k v ms : lookup k (set k v ms) = Some v.
Proof.
  induction ms as [|[k' v'] ms IH]; simpl.
  - now rewrite String.eqb_refl.
  - destruct (String.eqb k k') eqn:E; simpl; now rewrite E.
Qed.

Lemma lookup_set_other k k' v ms :
  String.eqb k k' = false -> lookup k (set k' v ms) = lookup k ms.
Proof.
  intros N. induction ms as [|[k'' v''] ms IH]; simpl.
  - now rewrite N.
  - destruct (String.eqb k' k'') eqn:E; simpl.
    + apply String.eqb_eq in E. subst k''. now rewrite N.
    + now rewrite IH.
Qed.

Lemma set_unchanged k v ms : lookup k ms = Some v -> set k v ms = ms.
Proof.
  induction ms as [|[k' v'] ms IH]; simpl; [discriminate|].
  destruct (String.eqb k k'); intros H.
  - now inversion H.
  - now rewrite IH.
Qed.

(** *** [map] with a callback that may throw *)

Lemma mapM_Forall2 {A B} (f : A -> completion B) xs ys :
  mapM f xs = Normal ys -> Forall2 (fun x y => f x = Normal y) xs ys.
Proof.
  revert ys. induction xs as [|x xs IH]; simpl; intros ys H.
  - inversion H. constructor.
  - destruct (f x) eqn:Fx; simpl in H; [|discriminate].
    destruct (mapM f xs) eqn:Fxs; simpl in H; [|discriminate].
    inversion H. subst. constructor; auto.
Qed.

Lemma mapM_results {A B} (f : A -> completion B) (P : B -> Prop) xs ys :
  (forall x y, f x = Normal y -> P y) -> mapM f xs = Normal ys -> Forall P ys.
Proof.
  intros HP H. apply mapM_Forall2 in H.
  induction H; constructor; eauto.
Qed.

Lemma mapM_length {A B} (f : A -> completion B) xs ys :
  mapM f xs = Normal ys -> length ys = length xs.
Proof. intros H. apply mapM_Forall2 in H. symmetry. eapply Forall2_length, H. Qed.

Lemma mapM_fixed {A} (f : A -> completion A) xs :
  Forall (fun x => f x = Normal x) xs -> mapM f xs = Normal xs.
Proof.
  induction 1 as [|x xs Hx _ IH]; simpl; [reflexivity|].
  now rewrite Hx, IH.
Qed.

Lemma mapM_total {A B} (f : A -> completion B) xs :
  Forall (fun x => exists y, f x = Normal y) xs -> exists ys, mapM f xs = Normal ys.
Proof.
  induction 1 as [|x xs [y Hx] _ [ys IH]]; simpl.
  - now exists [].
  - exists (y :: ys). now rewrite Hx, IH.
Qed.

Lemma mapM_throws {A B} (f : A -> completion B) e xs :
  Forall (fun x => forall e', f x = Throw e' -> e' = e) xs ->
  Exists (fun x => f x = Throw e) xs ->
  mapM f xs = Throw e.
Proof.
  intros HA HE. induction HE as [x xs Hx | x xs HE IH]; simpl.
  - now rewrite Hx.
  - inversion HA as [|? ? Hx HA']; subst.
    destruct (f x) eqn:Fx; simpl.
    + now rewrite (IH HA').
    + now rewrite (Hx _ eq_refl).
Qed.

(* ===================================================================== *)
(** ** The retrying transport *)
(* ===================================================================== *)

Lemma retryable_transient res : retryable res = true <-> transient res.
Proof. unfold retryable, transient. lia. Qed.

Lemma retryable_not_ok res : retryable res = true -> ok res = false.
Proof. unfold retryable, ok. lia. Qed.

Lemma fetch_at provider c t res :
  provider c = Resolves res ->
  fetch provider {| calls := c; trace := t |}
  = (Normal res, {| calls := S c; trace := t ++ [Fetch] |}).
Proof. intros H. unfold fetch. simpl. now rewrite H. Qed.

(** One turn of the loop on a response that is returned. *)
Lemma retryFrom_returns provider n i lastErr c t res :
  provider c = Resolves res ->
  retryable res = false ->
  retryFrom provider (S n) i lastErr {| calls := c; trace := t |}
  = (Normal res, {| calls := S c; trace := t ++ [Fetch] |}).
Proof.
  intros H R. simpl. unfold bind. rewrite (fetch_at _ _ _ _ H).
  destruct (ok res); [reflexivity|]. now rewrite R.
Qed.

(** One turn of the loop on a response that is retried. *)
Lemma retryFrom_retries provider n i lastErr c t res :
  provider c = Resolves res ->
  retryable res = true ->
  retryFrom provider (S n) i lastErr {| calls := c; trace := t |}
  = retryFrom provider n (S i) (Some (text res))
      {| calls := S c; trace := t ++ [Fetch; Wait (300 * 2 ^ Z.of_nat i)] |}.
Proof.
  intros H R. simpl. unfold bind at 1. rewrite (fetch_at _ _ _ _ H).
  rewrite (retryable_not_ok _ R), R. unfold bind, sleep. simpl.
  now rewrite <- app_assoc.
Qed.

(** The loop on a provider whose next [n] answers are all transient: every
    attempt is followed by its wait, and the loop ends by throwing. *)
Lemma retryFrom_exhausts provider n :
  forall i lastErr c t,
    (forall k, (k < n)%nat ->
               exists res, provider (c + k)%nat = Resolves res /\ transient res) ->
    exists message,
      retryFrom provider n i lastErr {| calls := c; trace := t |}
      = (Throw (Error message), {| calls := c + n; trace := t ++ retries i n |}) /\
      (forall res, provider (c + n - 1)%nat = Resolves res -> (0 < n)%nat ->
                   message = text res).
Proof.
  induction n as [|n IH]; intros i lastErr c t H.
  - eexists. split.
    + cbn [retryFrom retries]. unfold throw. now rewrite Nat.add_0_r, app_nil_r.
    + intros res _ N. lia.
  - destruct (H 0%nat ltac:(lia)) as (res & P & T).
    rewrite Nat.add_0_r in P. apply retryable_transient in T.
    rewrite (retryFrom_retries _ _ _ _ _ _ _ P T).
    destruct (IH (S i) (Some (text res)) (S c) (t ++ [Fetch; Wait (300 * 2 ^ Z.of_nat i)])%list)
      as (message & R & M).
    { intros k Hk. destruct (H (S k) ltac:(lia)) as (res' & P' & T').
      exists res'. split; [|exact T']. now rewrite <- P', Nat.add_succ_r. }
    destruct n as [|n].
    + exists (text res). split.
      * cbn [retryFrom retries]. unfold throw. now rewrite Nat.add_1_r.
      * intros res' P' _. replace (c + 1 - 1)%nat with c in P' by lia.
        rewrite P in P'. now inv P'.
    + exists message. split.
      * rewrite R. cbn [retries]. rewrite <- app_assoc. cbn [app].
        do 2 f_equal. lia.
      * intros res' P' _. apply (M res'); [|lia].
        now replace (S c + S n - 1)%nat with (c + S (S n) - 1)%nat by lia.
Qed.

(** The three turns of the default budget, all retried. *)
Lemma fwFetchWithRetry_exhausted provider r0 r1 r2 :
  provider 0%nat = Resolves r0 -> provider 1%nat = Resolves r1 ->
  provider 2%nat = Resolves r2 ->
  retryable r0 = true -> retryable r1 = true -> retryable r2 = true ->
  fwFetchWithRetry provider 3 start
  = (Throw (Error (text r2)),
     {| calls := 3; trace := [Fetch; Wait 300; Fetch; Wait 600; Fetch; Wait 1200] |}).
Proof.
  intros H0 H1 H2 R0 R1 R2. unfold fwFetchWithRetry, start.
  rewrite (retryFrom_retries _ _ _ _ _ _ _ H0 R0).
  rewrite (retryFrom_retries _ _ _ _ _ _ _ H1 R1).
  now rewrite (retryFrom_retries _ _ _ _ _ _ _ H2 R2).
Qed.

(* ===================================================================== *)
(** ** The extraction step *)
(* ===================================================================== *)

Lemma matchHere_closing s :
  Regex.matchHere closing s = if String.eqb s "}" then Some s else None.
Proof.
  destruct s as [|c [|d s]]; simpl; try reflexivity.
  - destruct (Ascii.eqb c "}") eqn:E; [|reflexivity].
    apply Ascii.eqb_eq in E. now subst.
  - now destruct (Ascii.eqb c "}").
Qed.

(** [[\s\S]*\}$] matches a text exactly when it ends with a closing brace,
    and then all of it. *)
Lemma matchHere_rest s :
  Regex.matchHere (Regex.Star Regex.AnyUnit :: closing) s
  = if lastIs "}" s then Some s else None.
Proof.
  induction s as [|c s IH].
  - reflexivity.
  - change (Regex.matchHere (Regex.Star Regex.AnyUnit :: closing) (String c s))
      with (match Regex.matchHere (Regex.Star Regex.AnyUnit :: closing) s with
            | Some m => Some (String c m)
            | None => Regex.matchHere closing (String c s)
            end).
    rewrite IH. destruct s as [|d s].
    + simpl. now destruct (Ascii.eqb c "}").
    + change (lastIs "}" (String c (String d s))) with (lastIs "}" (String d s)).
      destruct (lastIs "}" (String d s)); [reflexivity|].
      rewrite matchHere_closing. simpl.
      now destruct (Ascii.eqb c "}").
Qed.

(** At a given position the whole pattern matches exactly when the text
    starts there with an opening brace and ends with a closing one. *)
Lemma matchHere_objectAtEnd s :
  Regex.matchHere objectAtEnd s
  = match s with
    | String c s' => if Ascii.eqb c "{" && lastIs "}" s' then Some s else None
    | EmptyString => None
    end.
Proof.
  destruct s as [|c s]; [reflexivity|].
  change (Regex.matchHere objectAtEnd (String c s))
    with (if Ascii.eqb c "{"
          then match Regex.matchHere (Regex.Star Regex.AnyUnit :: closing) s with
               | Some m => Some (String c m)
               | None => None
               end
          else None).
  rewrite matchHere_rest.
  destruct (Ascii.eqb c "{"); [|reflexivity]. now destruct (lastIs "}" s).
Qed.

Lemma lastIs_app c s t : lastIs c t = true -> lastIs c (s ++ t) = true.
Proof.
  intros H. induction s as [|d s IH]; simpl; [exact H|].
  destruct (s ++ t) eqn:E; [discriminate IH | exact IH].
Qed.

Lemma lastIs_tail c d s : lastIs c (String d s) = false -> lastIs c s = false.
Proof. destruct s; [reflexivity | trivial]. Qed.

(** The search finds nothing in a text that does not end with a closing
    brace. *)
Lemma search_none s : lastIs "}" s = false -> Regex.search objectAtEnd s = None.
Proof.
  induction s as [|c s IH]; intros H.
  - reflexivity.
  - unfold Regex.search; fold Regex.search.
    rewrite matchHere_objectAtEnd, (lastIs_tail _ _ _ H), andb_false_r.
    apply IH, (lastIs_tail _ _ _ H).
Qed.

(** The search passes over what has no opening brace. *)
Lemma search_skips c o :
  hasUnit "{" c = false ->
  Regex.search objectAtEnd (c ++ o) = Regex.search objectAtEnd o.
Proof.
  induction c as [|d c IH]; intros H; [reflexivity|].
  simpl in H. apply orb_false_iff in H as [D H].
  change ((String d c ++ o)) with (String d (c ++ o)).
  unfold Regex.search; fold Regex.search.
  rewrite matchHere_objectAtEnd, D. simpl. auto.
Qed.

Lemma search_object m :
  Regex.search objectAtEnd ("{" ++ m ++ "}") = Some ("{" ++ m ++ "}").
Proof.
  change ("{" ++ m ++ "}") with (String "{" (m ++ "}")).
  unfold Regex.search; fold Regex.search.
  rewrite matchHere_objectAtEnd. simpl.
  now rewrite (lastIs_app "}" m "}" eq_refl).
Qed.

Lemma extract_object c m :
  hasUnit "{" c = false ->
  extract (JStr (c ++ "{" ++ m ++ "}")) = Normal ("{" ++ m ++ "}").
Proof.
  intros H. unfold extract. now rewrite (search_skips _ _ H), search_object.
Qed.

Lemma extract_whole s : lastIs "}" s = false -> extract (JStr s) = Normal s.
Proof. intros H. unfold extract. now rewrite (search_none _ H). Qed.

(* ===================================================================== *)
(** ** The two branches *)
(* ===================================================================== *)

(** *** Sections of a landing payload *)

Lemma normalizeSection_inv s o :
  normalizeSection s = Normal o ->
  exists ms x,
    s = JObj ms /\ lookup "title" ms = Some (JStr x) /\
    textOrAbsent (lookup "url" ms) = true /\ textOrAbsent (lookup "teaser" ms) = true /\
    exists te,
      o = JObj [("title", JStr (trim (toUpperCase x))); ("teaser", JStr te);
                ("url", if startsWithSolidus (lookup "url" ms)
                        then nullish (lookup "url" ms) JNull
                        else JStr ("/recipes/" ++ slugify (trim (toUpperCase x))))] /\
      trim te = te.
Proof.
  unfold normalizeSection. destruct s; simpl; try discriminate.
  destruct (lookup "title" members) as [[| | |x| |]|] eqn:T; simpl; try discriminate.
  intros H. exists members, x. split; [reflexivity|]. split; [exact T|].
  destruct (lookup "url" members) as [[| | |u| |]|] eqn:U; simpl in *; try discriminate;
    destruct (lookup "teaser" members) as [[| | |te| |]|] eqn:Te; simpl in *; try discriminate;
    inv H; (split; [reflexivity|]); (split; [reflexivity|]);
    first [ exists (trim te); split; [|apply trim_idem] | exists ""; split; [|reflexivity] ];
    try reflexivity; destruct (startsWith "/" _); reflexivity.
Qed.

Lemma normalizeSection_normal s o : normalizeSection s = Normal o -> isNormalSection o.
Proof.
  intros H. apply normalizeSection_inv in H as (ms & x & _ & _ & _ & _ & te & -> & Hte).
  unfold isNormalSection.
  assert (N : trim (toUpperCase (trim (toUpperCase x))) = trim (toUpperCase x)).
  { now rewrite toUpperCase_trim, toUpperCase_idem, trim_idem. }
  destruct (lookup "url" ms) as [[| | |u| |]|]; simpl; try (now eexists _, _, _; eauto).
  destruct (startsWith "/" u) eqn:S; now eexists _, _, _; eauto.
Qed.

Lemma normalizeSection_fixed o : isNormalSection o -> normalizeSection o = Normal o.
Proof.
  intros (t & te & u & -> & Ht & Hte & Hu).
  unfold normalizeSection. simpl. now rewrite Ht, Hte, Hu.
Qed.

Lemma normalizeSection_total s :
  validSection s = true -> exists o, normalizeSection s = Normal o.
Proof.
  unfold validSection, normalizeSection. destruct s; try discriminate. simpl.
  destruct (lookup "title" members) as [[| | |x| |]|]; simpl; try discriminate.
  destruct (lookup "url" members) as [[| | |u| |]|]; simpl; try discriminate;
    destruct (lookup "teaser" members) as [[| | |te| |]|]; simpl; try discriminate;
    intros _; eexists; reflexivity.
Qed.

(** The callback throws nothing but a [TypeError]. *)
Lemma normalizeSection_throws s e : normalizeSection s = Throw e -> e = TypeError.
Proof.
  unfold normalizeSection. destruct s; simpl; try (intros H; now inv H).
  destruct (lookup "title" members) as [[| | |x| |]|]; simpl; try (intros H; now inv H).
  destruct (lookup "url" members) as [[| | |u| |]|]; simpl; try (intros H; now inv H);
    destruct (lookup "teaser" members) as [[| | |te| |]|]; simpl; try (intros H; now inv H).
Qed.

(** It throws on a section whose title is not a text. *)
Lemma normalizeSection_no_title s :
  (forall x, get s "title" <> Normal (Some (JStr x))) -> normalizeSection s = Throw TypeError.
Proof.
  intros H. unfold normalizeSection.
  destruct (get s "title") as [[[| | |x| |]|]|e] eqn:T; simpl; try reflexivity.
  - now destruct (H x).
  - destruct s; simpl in T; try discriminate. now inv T.
Qed.

(** *** The landing branch *)

Lemma validate_landing ms sections :
  landingShape ms sections ->
  validate (JObj ms)
  = (out <- mapM normalizeSection (firstn 8 sections) ;;
     Normal (success (JObj (set "sections" (JArr out) ms)))).
Proof.
  intros (M & I & S). unfold validate, landing. rewrite M, S.
  destruct (lookup "intro" ms) as [[| | |x| |]|]; try discriminate. reflexivity.
Qed.

Lemma Forall2_nth_error {A B} (R : A -> B -> Prop) xs ys i x :
  Forall2 R xs ys -> nth_error xs i = Some x ->
  exists y, nth_error ys i = Some y /\ R x y.
Proof.
  intros H. revert i. induction H as [|x' y' xs ys Hxy _ IH]; intros [|i]; simpl; try discriminate.
  - intros E. inv E. eauto.
  - apply IH.
Qed.

Lemma landing_bad_title ms sections s :
  landingShape ms sections ->
  In s (firstn 8 sections) ->
  (forall x, get s "title" <> Normal (Some (JStr x))) ->
  validate (JObj ms) = Throw TypeError.
Proof.
  intros L I T. rewrite (validate_landing _ _ L).
  rewrite (mapM_throws normalizeSection TypeError); [reflexivity| |].
  - apply Forall_forall. intros x _ e. apply normalizeSection_throws.
  - apply Exists_exists. exists s. split; [exact I|]. now apply normalizeSection_no_title.
Qed.

(** *** Texts of a recipe payload *)

Lemma trimmed_text v s : trimmed v = Normal s -> trimmedText s.
Proof.
  unfold trimmed, trimmedText. destruct (ToString v); simpl; intros H; inv H.
  apply trim_idem.
Qed.

Lemma trimmed_fixed s : trimmedText s -> trimmed (JStr s) = Normal s.
Proof. unfold trimmed, trimmedText. simpl. now intros ->. Qed.

Lemma mapM_trimmed_texts l xs : mapM trimmed l = Normal xs -> Forall trimmedText xs.
Proof. apply mapM_results. apply trimmed_text. Qed.

Lemma mapM_trimmed_fixed xs :
  Forall trimmedText xs -> mapM trimmed (map JStr xs) = Normal xs.
Proof.
  induction 1 as [|x xs Hx _ IH]; cbn [map mapM]; [reflexivity|].
  now rewrite (trimmed_fixed _ Hx), IH.
Qed.

Lemma filterBoolean_clean xs : Forall trimmedText xs -> Forall cleanText (filterBoolean xs).
Proof.
  induction 1 as [|x xs Hx _ IH]; simpl; [constructor|].
  destruct (isEmpty x) eqn:E; simpl; [exact IH|].
  constructor; [now split | exact IH].
Qed.

Lemma filterBoolean_fixed xs : Forall cleanText xs -> filterBoolean xs = xs.
Proof.
  induction 1 as [|x xs [_ Hx] _ IH]; simpl; [reflexivity|].
  now rewrite Hx, IH.
Qed.

Lemma cleanText_trimmed xs : Forall cleanText xs -> Forall trimmedText xs.
Proof. apply Forall_impl. now intros x [H _]. Qed.

Lemma normalizeGroup_normal g o : normalizeGroup g = Normal o -> isNormalGroup o.
Proof.
  unfold normalizeGroup, isNormalGroup.
  destruct (get g "group") as [grp|] eqn:G; simpl; [|discriminate].
  assert (I : forall group : option string,
             (forall s, group = Some s -> trimmedText s) ->
             (its <- get g "items" ;;
              items <- match its with
                       | Some (JArr l) => xs <- mapM trimmed l ;; Normal (filterBoolean xs)
                       | _ => Normal []
                       end ;;
              Normal (JObj (match group with
                            | Some s => [("group", JStr s)]
                            | None => []
                            end ++ [("items", JArr (map JStr items))]))) = Normal o ->
             exists items label,
               o = JObj (match label with
                         | Some s => [("group", JStr s)]
                         | None => []
                         end ++ [("items", JArr (map JStr items))]) /\
               Forall cleanText items /\
               (forall s, label = Some s -> trimmedText s)).
  { intros group Hg. destruct (get g "items") as [its|]; simpl; [|discriminate].
    destruct its as [[| | | |l|]|]; simpl;
      try (intros H; inv H; exists [], group; now repeat split).
    destruct (mapM trimmed l) as [xs|] eqn:M; simpl; [|discriminate].
    intros H; inv H. exists (filterBoolean xs), group. repeat split; [|exact Hg].
    apply filterBoolean_clean. eapply mapM_trimmed_texts, M. }
  destruct grp as [v|]; [|apply (I None); discriminate].
  destruct (truthy (Some v)); [|apply (I None); discriminate].
  destruct (trimmed v) as [s|] eqn:T; simpl; [|discriminate].
  apply (I (Some s)). intros s' E. inv E. eapply trimmed_text, T.
Qed.

Lemma normalizeGroup_fixed g :
  isNormalGroup g -> emptyLabel g = false -> normalizeGroup g = Normal g.
Proof.
  intros (items & label & -> & Hi & Hl) E.
  unfold normalizeGroup, emptyLabel in *. destruct label as [s|]; simpl in *.
  - rewrite E. simpl. rewrite (Hl s eq_refl).
    rewrite (mapM_trimmed_fixed _ (cleanText_trimmed _ Hi)). simpl.
    now rewrite (filterBoolean_fixed _ Hi).
  - rewrite (mapM_trimmed_fixed _ (cleanText_trimmed _ Hi)). simpl.
    now rewrite (filterBoolean_fixed _ Hi).
Qed.

Lemma trimmedList_texts v u :
  trimmedList v = Normal u -> exists xs, u = JArr (map JStr xs) /\ Forall trimmedText xs.
Proof.
  unfold trimmedList. destruct (nullish v (JArr [])); try discriminate.
  destruct (mapM trimmed elements) as [xs|] eqn:M; simpl; [|discriminate].
  intros H; inv H. exists xs. split; [reflexivity|]. eapply mapM_trimmed_texts, M.
Qed.

Lemma trimmedList_fixed xs :
  Forall trimmedText xs ->
  trimmedList (Some (JArr (map JStr xs))) = Normal (JArr (map JStr xs)).
Proof. intros H. unfold trimmedList. simpl. now rewrite (mapM_trimmed_fixed _ H). Qed.

Lemma trimIntro_other ms ms' k :
  trimIntro ms = Normal ms' -> String.eqb k "intro" = false -> lookup k ms' = lookup k ms.
Proof.
  unfold trimIntro. destruct (lookup "intro" ms) as [v|]; [|intros H; now inv H].
  destruct (truthy (Some v)); [|intros H; now inv H].
  destruct (trimmed v); simpl; [|discriminate].
  intros H N; inv H. now apply lookup_set_other.
Qed.

Lemma trimIntro_intro ms ms' v :
  trimIntro ms = Normal ms' -> lookup "intro" ms' = Some v -> truthy (Some v) = true ->
  exists s, v = JStr s /\ trimmedText s.
Proof.
  unfold trimIntro. destruct (lookup "intro" ms) as [v0|] eqn:L.
  - destruct (truthy (Some v0)) eqn:Tr.
    + destruct (trimmed v0) as [s|] eqn:T; simpl; [|discriminate].
      intros H; inv H. rewrite lookup_set_same. intros E _; inv E.
      exists s. split; [reflexivity|]. eapply trimmed_text, T.
    + intros H; inv H. rewrite L. intros E; inv E. congruence.
  - intros H; inv H. congruence.
Qed.

Lemma trimIntro_fixed ms :
  (forall v, lookup "intro" ms = Some v -> truthy (Some v) = true ->
             exists s, v = JStr s /\ trimmedText s) ->
  trimIntro ms = Normal ms.
Proof.
  intros H. unfold trimIntro. destruct (lookup "intro" ms) as [v|] eqn:L; [|reflexivity].
  destruct (truthy (Some v)) eqn:T; [|reflexivity].
  destruct (H v eq_refl T) as (s & -> & Hs).
  rewrite (trimmed_fixed _ Hs). simpl. now rewrite (set_unchanged _ _ _ L).
Qed.

(** *** The recipe branch *)

Lemma strictEq_recipe_not_landing v :
  strictEq v "recipe" = true -> strictEq v "landing" = false.
Proof.
  destruct v as [[| | |s| |]|]; simpl; try discriminate.
  intros H. apply String.eqb_eq in H. now subst.
Qed.

Lemma validate_recipe ms :
  strictEq (lookup "mode" ms) "recipe" = true ->
  validate (JObj ms) = recipe (JObj ms) ms.
Proof.
  intros M. unfold validate. now rewrite (strictEq_recipe_not_landing _ M), M.
Qed.

(** The steps of a successful run of the recipe branch. *)
Lemma recipe_inv parsed ms p :
  recipe parsed ms = Normal (success p) ->
  exists title ingredients steps groups xs ms4 used suggested,
    lookup "title" ms = Some (JStr title) /\
    mapM normalizeGroup ingredients = Normal groups /\
    mapM trimmed steps = Normal xs /\
    trimIntro (set "steps" (JArr (map JStr (filterBoolean xs)))
                 (set "ingredients" (JArr groups)
                    (set "title" (JStr (trim title)) ms))) = Normal ms4 /\
    trimmedList (lookup "used_ingredients" ms4) = Normal used /\
    trimmedList (lookup "suggested_additions" (set "used_ingredients" used ms4))
    = Normal suggested /\
    p = JObj (set "suggested_additions" suggested (set "used_ingredients" used ms4)).
Proof.
  unfold recipe.
  destruct (lookup "title" ms) as [[| | |title| |]|]; try discriminate;
    try (destruct (lookup "ingredients" ms) as [[| | | | |]|]; discriminate).
  destruct (lookup "ingredients" ms) as [[| | | |ingredients|]|]; try discriminate.
  destruct (lookup "steps" ms) as [[| | | |steps|]|]; try discriminate.
  destruct (mapM normalizeGroup ingredients) as [groups|] eqn:G; cbn [cbind]; [|discriminate].
  destruct (mapM trimmed steps) as [xs|] eqn:X; cbn [cbind]; [|discriminate].
  destruct (trimIntro _) as [ms4|] eqn:I; cbn [cbind]; [|discriminate].
  destruct (trimmedList (lookup "used_ingredients" ms4)) as [used|] eqn:U; cbn [cbind];
    [|discriminate].
  destruct (trimmedList (lookup "suggested_additions" _)) as [suggested|] eqn:S;
    cbn [cbind]; [|discriminate].
  intros H. inv H. now exists title, ingredients, steps, groups, xs, ms4, used, suggested.
Qed.

(** The steps of a successful run of the recipe branch, with what the
    shape check read. *)
Lemma recipe_run parsed ms p :
  recipe parsed ms = Normal (success p) ->
  exists title ingredients steps groups xs ms4 used suggested,
    lookup "title" ms = Some (JStr title) /\
    lookup "ingredients" ms = Some (JArr ingredients) /\
    lookup "steps" ms = Some (JArr steps) /\
    mapM normalizeGroup ingredients = Normal groups /\
    mapM trimmed steps = Normal xs /\
    trimIntro (set "steps" (JArr (map JStr (filterBoolean xs)))
                 (set "ingredients" (JArr groups)
                    (set "title" (JStr (trim title)) ms))) = Normal ms4 /\
    trimmedList (lookup "used_ingredients" ms4) = Normal used /\
    trimmedList (lookup "suggested_additions" (set "used_ingredients" used ms4))
    = Normal suggested /\
    p = JObj (set "suggested_additions" suggested (set "used_ingredients" used ms4)).
Proof.
  unfold recipe.
  destruct (lookup "title" ms) as [[| | |title| |]|]; try discriminate;
    try (destruct (lookup "ingredients" ms) as [[| | | | |]|]; discriminate).
  destruct (lookup "ingredients" ms) as [[| | | |ingredients|]|]; try discriminate.
  destruct (lookup "steps" ms) as [[| | | |steps|]|]; try discriminate.
  destruct (mapM normalizeGroup ingredients) as [groups|] eqn:G; cbn [cbind]; [|discriminate].
  destruct (mapM trimmed steps) as [xs|] eqn:X; cbn [cbind]; [|discriminate].
  destruct (trimIntro _) as [ms4|] eqn:I; cbn [cbind]; [|discriminate].
  destruct (trimmedList (lookup "used_ingredients" ms4)) as [used|] eqn:U; cbn [cbind];
    [|discriminate].
  destruct (trimmedList (lookup "suggested_additions" _)) as [suggested|] eqn:S;
    cbn [cbind]; [|discriminate].
  intros H. inv H.
  now exists title, ingredients, steps, groups, xs, ms4, used, suggested.
Qed.

Ltac through_sets :=
  repeat first
    [ rewrite lookup_set_same
    | rewrite lookup_set_other by reflexivity ].

Lemma recipe_normalized parsed ms ms' :
  recipe parsed ms = Normal (success (JObj ms')) -> RecipeNormalized ms'.
Proof.
  intros H.
  apply recipe_inv in H
    as (title & ingredients & steps & groups & xs & ms4 & used & suggested
        & T & G & X & I & U & S & E).
  inv E.
  destruct (trimmedList_texts _ _ U) as (us & -> & Hus).
  destruct (trimmedList_texts _ _ S) as (ss & -> & Hss).
  constructor; through_sets.
  - exists (trim title). rewrite (trimIntro_other _ _ "title" I eq_refl). through_sets.
    split; [reflexivity | apply trim_idem].
  - exists groups. rewrite (trimIntro_other _ _ "ingredients" I eq_refl). through_sets.
    split; [reflexivity|]. eapply mapM_results; [|exact G]. apply normalizeGroup_normal.
  - exists (filterBoolean xs). rewrite (trimIntro_other _ _ "steps" I eq_refl). through_sets.
    split; [reflexivity|]. eapply filterBoolean_clean, mapM_trimmed_texts, X.
  - intros v. apply (trimIntro_intro _ _ _ I).
  - now exists us.
  - now exists ss.
Qed.

(** Frame: the recipe branch leaves every other property as it was. *)
Lemma recipe_frame parsed ms ms' k :
  recipe parsed ms = Normal (success (JObj ms')) ->
  rewritten k = false -> lookup k ms' = lookup k ms.
Proof.
  intros H K.
  apply recipe_inv in H
    as (title & ingredients & steps & groups & xs & ms4 & used & suggested
        & T & G & X & I & U & S & E).
  inv E. unfold rewritten in K. cbn [existsb] in K.
  repeat (apply orb_false_iff in K as [? K]).
  rewrite !lookup_set_other by assumption.
  rewrite (trimIntro_other _ _ k I) by assumption.
  now rewrite !lookup_set_other by assumption.
Qed.

Lemma recipe_fixed ms :
  RecipeNormalized ms ->
  (forall gs, lookup "ingredients" ms = Some (JArr gs) ->
              Forall (fun g => emptyLabel g = false) gs) ->
  recipe (JObj ms) ms = Normal (success (JObj ms)).
Proof.
  intros [(t & T & Ht) (gs & G & Hgs) (xs & X & Hxs) I (us & U & Hus) (ss & S & Hss)] L.
  unfold recipe. rewrite T, G, X, Ht.
  rewrite (set_unchanged _ _ _ T).
  rewrite (mapM_fixed normalizeGroup gs).
  2:{ specialize (L gs G). rewrite Forall_forall in *. intros g Hg.
      apply normalizeGroup_fixed; auto. }
  cbn [cbind]. rewrite (set_unchanged _ _ _ G).
  rewrite (mapM_trimmed_fixed _ (cleanText_trimmed _ Hxs)). cbn [cbind].
  rewrite (filterBoolean_fixed _ Hxs), (set_unchanged _ _ _ X).
  rewrite (trimIntro_fixed _ I). cbn [cbind].
  rewrite U, (trimmedList_fixed _ Hus). cbn [cbind].
  rewrite (set_unchanged _ _ _ U).
  rewrite S, (trimmedList_fixed _ Hss). cbn [cbind].
  now rewrite (set_unchanged _ _ _ S).
Qed.

(** *** Outputs of the declared type *)

Lemma mapM_trimmed_total l :
  forallb isText l = true -> exists xs, mapM trimmed l = Normal xs.
Proof.
  intros H. apply mapM_total. rewrite forallb_forall in H. apply Forall_forall.
  intros x Hx. specialize (H x Hx). destruct x; try discriminate.
  now exists (trim s).
Qed.

Lemma normalizeGroup_total g :
  typedGroup g = true -> exists o, normalizeGroup g = Normal o.
Proof.
  unfold typedGroup, normalizeGroup. destruct g as [| | | | |ms]; try discriminate.
  intros H. apply andb_true_iff in H as [G I]. cbn [get cbind].
  destruct (lookup "items" ms) as [[| | | |l|]|]; try discriminate.
  destruct (mapM_trimmed_total l I) as [xs X]. rewrite X.
  destruct (lookup "group" ms) as [[| | |s| |]|]; try discriminate; cbn [cbind].
  - destruct (truthy (Some (JStr s))); cbn [cbind]; eexists; reflexivity.
  - eexists; reflexivity.
Qed.

Lemma trimmedList_total v :
  optional textArray v = true -> exists u, trimmedList v = Normal u.
Proof.
  unfold trimmedList. destruct v as [[| | | |l|]|]; try discriminate; cbn.
  - intros H. destruct (mapM_trimmed_total l H) as [xs X]. rewrite X. eexists; reflexivity.
  - intros _. eexists; reflexivity.
Qed.

Lemma trimIntro_total ms :
  optional isString (lookup "intro" ms) = true -> exists ms', trimIntro ms = Normal ms'.
Proof.
  unfold trimIntro. destruct (lookup "intro" ms) as [[| | |s| |]|]; try discriminate; intros _.
  - destruct (truthy (Some (JStr s))); eexists; reflexivity.
  - eexists; reflexivity.
Qed.

Lemma recipe_total parsed ms :
  typedRecipe ms = true -> exists p, recipe parsed ms = Normal (success p).
Proof.
  unfold typedRecipe. intros H.
  repeat (apply andb_true_iff in H as [H ?]).
  unfold recipe.
  destruct (lookup "title" ms) as [[| | |title| |]|] eqn:T; try discriminate.
  destruct (lookup "ingredients" ms) as [[| | | |gs|]|] eqn:G; try discriminate.
  destruct (lookup "steps" ms) as [[| | | |steps|]|] eqn:S; try discriminate.
  destruct (mapM_total normalizeGroup gs) as [groups Hg].
  { apply Forall_forall. intros g Hg. apply normalizeGroup_total.
    match goal with F : forallb typedGroup gs = true |- _ =>
      rewrite forallb_forall in F; now apply F end. }
  rewrite Hg. cbn [cbind].
  destruct (mapM_trimmed_total steps) as [xs Hx]; [assumption|].
  rewrite Hx. cbn [cbind].
  destruct (trimIntro_total
              (set "steps" (JArr (map JStr (filterBoolean xs)))
                 (set "ingredients" (JArr groups) (set "title" (JStr (trim title)) ms))))
    as [ms4 I].
  { now rewrite !lookup_set_other by reflexivity. }
  rewrite I. cbn [cbind].
  destruct (trimmedList_total (lookup "used_ingredients" ms4)) as [used U].
  { rewrite (trimIntro_other _ _ "used_ingredients" I eq_refl).
    now rewrite !lookup_set_other by reflexivity. }
  rewrite U. cbn [cbind].
  destruct (trimmedList_total (lookup "suggested_additions" (set "used_ingredients" used ms4)))
    as [suggested Sg].
  { rewrite lookup_set_other by reflexivity.
    rewrite (trimIntro_other _ _ "suggested_additions" I eq_refl).
    now rewrite !lookup_set_other by reflexivity. }
  rewrite Sg. cbn [cbind]. eexists; reflexivity.
Qed.

(** A successful reply comes from one of the two branches. *)
Lemma validate_success parsed p :
  validate parsed = Normal (success p) ->
  exists ms,
    parsed = JObj ms /\
    ((strictEq (lookup "mode" ms) "landing" = true /\ landing parsed ms = Normal (success p))
     \/ (strictEq (lookup "mode" ms) "recipe" = true /\ recipe parsed ms = Normal (success p))).
Proof.
  unfold validate. destruct parsed; try discriminate. intros H. exists members.
  split; [reflexivity|].
  destruct (strictEq (lookup "mode" members) "landing"); [now left|].
  destruct (strictEq (lookup "mode" members) "recipe"); [now right | discriminate].
Qed.

Lemma landing_inv parsed ms p :
  landing parsed ms = Normal (success p) ->
  exists sections out,
    isString (lookup "intro" ms) = true /\
    lookup "sections" ms = Some (JArr sections) /\
    mapM normalizeSection (firstn 8 sections) = Normal out /\
    p = JObj (set "sections" (JArr out) ms).
Proof.
  unfold landing.
  destruct (lookup "intro" ms) as [[| | |intro| |]|]; try discriminate.
  destruct (lookup "sections" ms) as [[| | | |sections|]|]; try discriminate.
  destruct (mapM normalizeSection (firstn 8 sections)) as [out|] eqn:M; cbn [cbind];
    [|discriminate].
  intros H. inv H. now exists sections, out.
Qed.

(** *** The handler around the transport *)

Lemma POST_try_accepted env provider request w :
  accepted env request ->
  POST_try env provider request w
  = bind (fwFetchWithRetry provider 3) (fun fwRes => lift (fromResponse fwRes)) w.
Proof.
  intros (req & p & k & P & G & Hp & K & Hk).
  unfold POST_try, JSON_parse. rewrite P. unfold bind at 1, lift at 1.
  rewrite G. unfold bind at 1, lift at 1. simpl. rewrite Hp, K, Hk. reflexivity.
Qed.

Lemma POST_answers env provider request w fwRes w' :
  accepted env request ->
  fwFetchWithRetry provider 3 w = (Normal fwRes, w') ->
  POST env provider request w
  = (match fromResponse fwRes with
     | Normal res => res
     | Throw err => NextResponse_json (Caught err) 500
     end, w').
Proof.
  intros A F. unfold POST. rewrite (POST_try_accepted _ _ _ _ A).
  unfold bind. rewrite F. unfold lift. now destruct (fromResponse fwRes).
Qed.

(** The handler's reply to a 2xx response whose completion yields the JSON
    value [parsed] is what the validation makes of that value. *)
Lemma POST_validates env provider request w fwRes w' data raw parsed :
  accepted env request ->
  fwFetchWithRetry provider 3 w = (Normal fwRes, w') ->
  ok fwRes = true ->
  JsonText.parse (text fwRes) = Some data ->
  extract (completionText data) = Normal raw ->
  JsonText.parse raw = Some parsed ->
  POST env provider request w
  = (match validate parsed with
     | Normal res => res
     | Throw err => NextResponse_json (Caught err) 500
     end, w').
Proof.
  intros A F O D X P. rewrite (POST_answers _ _ _ _ _ _ A F).
  unfold fromResponse, JSON_parse. rewrite O, D. cbn [negb cbind].
  unfold fromEnvelope. rewrite X. cbn [cbind]. now rewrite P.
Qed.

Lemma POST_transport_throws env provider request w err w' :
  accepted env request ->
  fwFetchWithRetry provider 3 w = (Throw err, w') ->
  POST env provider request w = (NextResponse_json (Caught err) 500, w').
Proof.
  intros A F. unfold POST. rewrite (POST_try_accepted _ _ _ _ A).
  unfold bind. now rewrite F.
Qed.

Lemma sample_accepted : accepted Sample.env Sample.request.
Proof.
  exists (JObj [("prompt", JStr "Give me dinner ideas")]), "Give me dinner ideas", "fw-key".
  repeat split.
Qed.

(* ===================================================================== *)
(** ** Runs of the handler *)
(* ===================================================================== *)

(** The end-to-end scenario of the specification: the stubbed provider
    returns a recipe with padded texts and a blank item. *)
Example POST_spicy_tuna_roll :
  POST Sample.env (Sample.answering Sample.tunaRollEnvelope)
    (quoted "{'prompt':'Give me a sushi roll recipe','strict':true}") start
  = (success
       (JObj [("mode", JStr "recipe"); ("title", JStr "spicy tuna roll");
              ("ingredients", JArr [JObj [("items", JArr [JStr "tuna"; JStr "rice"])]]);
              ("steps", JArr [JStr "Cook rice."; JStr "Roll it."]);
              ("used_ingredients", JArr []); ("suggested_additions", JArr [])]),
     Sample.once).
Proof. vm_compute. reflexivity. Qed.

Example POST_unknown_mode :
  POST Sample.env
    (Sample.answering
       (quoted "{'choices':[{'message':{'content':'{\'mode\':\'summary\'}'}}]}"))
    Sample.request start
  = (NextResponse_json
       (Failure "Unknown mode" (Parsed (JObj [("mode", JStr "summary")]))) 502,
     Sample.once).
Proof. vm_compute. reflexivity. Qed.

Example POST_missing_prompt :
  POST Sample.env Sample.busy (quoted "{'prompt':''}") start
  = (NextResponse_json (Failure "Missing prompt" NoExtra) 400, start).
Proof. reflexivity. Qed.

Example POST_missing_key :
  POST {| FIREWORKS_API_KEY := None; FIREWORKS_MODEL := None |}
    Sample.busy Sample.request start
  = (NextResponse_json (Failure "Missing FIREWORKS_API_KEY" NoExtra) 500, start).
Proof. reflexivity. Qed.

Example POST_provider_error :
  POST Sample.env (scripted [] {| status := 404; text := "no such model" |})
    Sample.request start
  = (NextResponse_json (Failure "Fireworks error" (Details "no such model")) 502,
     Sample.once).
Proof. reflexivity. Qed.

Example slugify_spicy_tuna : slugify "  Spicy  Tuna Roll! " = "spicy-tuna-roll".
Proof. reflexivity. Qed.

(* ===================================================================== *)
(** * The claims                                                          *)
(* ===================================================================== *)

(** ** C1: extraction of a trailing object *)

(** C1, as the code has it.  When the completion is commentary without an
    opening brace followed by a span that starts with an opening brace and
    ends, at the very end of the text, with a closing brace, the extraction
    step hands exactly that span to [JSON.parse], and the handler answers as
    it does for the span alone.  A text that does not end with a closing
    brace is handed over whole, and is answered with the invalid-JSON 502
    when it is not JSON as a whole. *)
Theorem trailing_object_is_extracted (c m s : string) :
  (hasUnit "{" c = false ->
   extract (JStr (c ++ "{" ++ m ++ "}")) = Normal ("{" ++ m ++ "}") /\
   forall data,
     completionText data = JStr (c ++ "{" ++ m ++ "}") ->
     fromEnvelope data = fromEnvelope (envelope (JStr ("{" ++ m ++ "}"))))
  /\ (lastIs "}" s = false ->
      extract (JStr s) = Normal s /\
      forall data,
        completionText data = JStr s -> JsonText.parse s = None ->
        fromEnvelope data = Normal (invalidModelJSON s)).
Proof.
  split.
  - intros H. split; [now apply extract_object|].
    intros data E. unfold fromEnvelope. rewrite E, (extract_object _ _ H).
    change (completionText (envelope (JStr ("{" ++ m ++ "}"))))
      with (JStr ("" ++ "{" ++ m ++ "}")).
    now rewrite (extract_object "" m eq_refl).
  - intros H. split; [now apply extract_whole|].
    intros data E P. unfold fromEnvelope. rewrite E, (extract_whole _ H).
    cbn [cbind]. now rewrite P.
Qed.

(** A recipe object after a greeting is extracted; the fenced text is
    handed over whole. *)
Lemma trailing_object_is_extracted_witness :
  extract (JStr ("Here you go: " ++ Sample.recipeObject)) = Normal Sample.recipeObject
  /\ extract (JStr Sample.fenced) = Normal Sample.fenced.
Proof.
  split.
  - exact (proj1 (proj1 (trailing_object_is_extracted
                           "Here you go: " Sample.recipeMembers "") eq_refl)).
  - exact (proj1 (proj2 (trailing_object_is_extracted "" "" Sample.fenced) eq_refl)).
Defined.

(** C1 as stated fails on the specification's own example: a recipe object
    inside a code fence after a greeting is not JSON as a whole, contains
    the balanced object, and is answered with the invalid-JSON 502.  So is
    a trailing object after commentary that has a brace of its own: the
    match starts at the first opening brace of the text. *)
Lemma fenced_object_is_not_extracted :
  Sample.fenced = quoted "Sure! ```json|" ++ Sample.recipeObject ++ quoted "|```"
  /\ JsonText.parse Sample.fenced = None
  /\ JsonText.parse Sample.recipeObject
     = Some (JObj [("mode", JStr "recipe"); ("title", JStr "Toast");
                   ("ingredients", JArr []); ("steps", JArr [])])
  /\ JsonText.parse Sample.fencedEnvelope = Some (envelope (JStr Sample.fenced))
  /\ POST Sample.env (Sample.answering Sample.fencedEnvelope) Sample.request start
     = (invalidModelJSON Sample.fenced, Sample.once)
  /\ JsonText.parse Sample.braced = None
  /\ fromEnvelope (envelope (JStr Sample.braced))
     = Normal (invalidModelJSON ("{toast}: " ++ Sample.recipeObject)).
Proof. repeat split; vm_compute; reflexivity. Qed.

(** ** C2: exhausted retries *)

(** C2, as the code has it.  When the three attempts of the default budget
    are all answered with 429 or 5xx, the transport throws an error whose
    message is the body of the last response, and the handler answers with
    status 500 and that message. *)
Theorem exhausted_retries_are_a_500 env provider request r0 r1 r2 :
  accepted env request ->
  provider 0%nat = Resolves r0 -> provider 1%nat = Resolves r1 ->
  provider 2%nat = Resolves r2 ->
  transient r0 -> transient r1 -> transient r2 ->
  fwFetchWithRetry provider 3 start
  = (Throw (Error (text r2)),
     {| calls := 3; trace := [Fetch; Wait 300; Fetch; Wait 600; Fetch; Wait 1200] |})
  /\ POST env provider request start
     = (NextResponse_json (Caught (Error (text r2))) 500,
        {| calls := 3; trace := [Fetch; Wait 300; Fetch; Wait 600; Fetch; Wait 1200] |}).
Proof.
  intros A H0 H1 H2 R0 R1 R2. apply retryable_transient in R0, R1, R2.
  pose proof (fwFetchWithRetry_exhausted _ _ _ _ H0 H1 H2 R0 R1 R2) as F.
  split; [exact F|]. now apply POST_transport_throws.
Qed.

(** The provider that answers 429 to every attempt. *)
Lemma exhausted_retries_are_a_500_witness :
  fwFetchWithRetry Sample.busy 3 start
  = (Throw (Error "slow down"),
     {| calls := 3; trace := [Fetch; Wait 300; Fetch; Wait 600; Fetch; Wait 1200] |})
  /\ POST Sample.env Sample.busy Sample.request start
     = (NextResponse_json (Caught (Error "slow down")) 500,
        {| calls := 3; trace := [Fetch; Wait 300; Fetch; Wait 600; Fetch; Wait 1200] |}).
Proof.
  apply (exhausted_retries_are_a_500 Sample.env Sample.busy Sample.request
           {| status := 429; text := "slow down" |}
           {| status := 429; text := "slow down" |}
           {| status := 429; text := "slow down" |});
    solve [ reflexivity | apply sample_accepted | left; reflexivity ].
Defined.

(** C2 as stated fails: with a provider that answers 429 to every attempt
    the reply has status 500, not 502. *)
Lemma exhausted_retries_are_not_a_502 :
  Sample.busy 0%nat = Resolves {| status := 429; text := "slow down" |}
  /\ Sample.busy 1%nat = Resolves {| status := 429; text := "slow down" |}
  /\ Sample.busy 2%nat = Resolves {| status := 429; text := "slow down" |}
  /\ fst (POST Sample.env Sample.busy Sample.request start)
     = NextResponse_json (Caught (Error "slow down")) 500
  /\ httpStatus (fst (POST Sample.env Sample.busy Sample.request start)) <> 502.
Proof. repeat split; try (vm_compute; reflexivity). vm_compute. discriminate. Qed.

(** ** C3: trimmed and filtered texts *)

(** *** The texts of a payload against the model's output *)

Lemma trimmed_of v x : trimmed v = Normal x -> TrimmedOf v x.
Proof.
  unfold trimmed, TrimmedOf. destruct (ToString v) as [s|]; cbn [cbind]; [|discriminate].
  intros H. inv H. now exists s.
Qed.

Lemma mapM_trimmed_of l xs : mapM trimmed l = Normal xs -> Forall2 TrimmedOf l xs.
Proof.
  intros H. apply mapM_Forall2 in H.
  induction H as [|v x l xs Hv _ IH]; constructor; [now apply trimmed_of | exact IH].
Qed.

Lemma trimmedList_list v u : trimmedList v = Normal u -> ListTexts v (Some u).
Proof.
  unfold trimmedList, ListTexts. destruct (nullish v (JArr [])) as [| | | |l|]; try discriminate.
  destruct (mapM trimmed l) as [xs|] eqn:M; cbn [cbind]; [|discriminate].
  intros H. inv H. exists l, xs. split; [reflexivity|]. split; [|reflexivity].
  now apply mapM_trimmed_of.
Qed.

Lemma normalizeGroup_texts g o : normalizeGroup g = Normal o -> GroupTexts g o.
Proof.
  unfold normalizeGroup, GroupTexts, TextIfTruthy, CleanTexts.
  destruct g as [| | | | |gm]; cbn [get cbind optGet]; try discriminate;
    try (intros H; inv H; cbn; split; [reflexivity|]; exists []; split; [constructor|reflexivity]).
  assert (I : forall label : option string,
             (its <- Normal (lookup "items" gm) ;;
              items <- match its with
                       | Some (JArr l) => xs <- mapM trimmed l ;; Normal (filterBoolean xs)
                       | _ => Normal []
                       end ;;
              Normal (JObj (match label with
                            | Some s => [("group", JStr s)]
                            | None => []
                            end ++ [("items", JArr (map JStr items))]))) = Normal o ->
             optGet (Some o) "group" = option_map JStr label /\
             exists xs,
               Forall2 TrimmedOf
                 (match lookup "items" gm with Some (JArr l) => l | _ => [] end) xs /\
               optGet (Some o) "items" = Some (JArr (map JStr (filterBoolean xs)))).
  { intros label. cbn [cbind].
    assert (E : forall items,
               Normal (JObj (match label with
                             | Some s => [("group", JStr s)]
                             | None => []
                             end ++ [("items", JArr (map JStr items))])) = Normal o ->
               optGet (Some o) "group" = option_map JStr label /\
               optGet (Some o) "items" = Some (JArr (map JStr items))).
    { intros items H. inv H. now destruct label. }
    destruct (lookup "items" gm) as [[| | | |l|]|];
      try (cbn [cbind]; intros H; destruct (E [] H) as [G It]; split; [exact G|];
           exists []; split; [constructor | exact It]).
    destruct (mapM trimmed l) as [xs|] eqn:M; cbn [cbind]; [|discriminate].
    intros H. destruct (E _ H) as [G It]. split; [exact G|].
    exists xs. split; [now apply mapM_trimmed_of | exact It]. }
  destruct (lookup "group" gm) as [v|] eqn:G; cbn [cbind].
  - destruct (truthy (Some v)) eqn:Tr; cbn [cbind].
    + destruct (trimmed v) as [x|] eqn:T; cbn [cbind]; [|discriminate].
      intros H. destruct (I (Some x) H) as [L It]. split; [|exact It].
      exists v, x. split; [reflexivity|]. split; [now apply trimmed_of | exact L].
    + intros H. destruct (I None H) as [L It]. now split.
  - cbn [truthy]. intros H. destruct (I None H) as [L It]. now split.
Qed.

Lemma trimIntro_texts ms ms' :
  trimIntro ms = Normal ms' ->
  TextIfTruthy (lookup "intro" ms) (lookup "intro" ms') (lookup "intro" ms).
Proof.
  unfold trimIntro, TextIfTruthy. destruct (lookup "intro" ms) as [v|] eqn:L.
  - destruct (truthy (Some v)) eqn:Tr.
    + destruct (trimmed v) as [x|] eqn:T; cbn [cbind]; [|discriminate].
      intros H. inv H. exists v, x. split; [reflexivity|].
      split; [now apply trimmed_of | apply lookup_set_same].
    + intros H. now inv H.
  - cbn [truthy]. intros H. now inv H.
Qed.

Lemma recipe_texts parsed ms ms' :
  recipe parsed ms = Normal (success (JObj ms')) -> RecipeTexts ms ms'.
Proof.
  intros H.
  apply recipe_run in H
    as (title & ingredients & steps & groups & xs & ms4 & used & suggested
        & T & G & St & Gr & X & I & U & S & E).
  inv E.
  assert (GT : Forall2 GroupTexts ingredients groups).
  { clear - Gr. apply mapM_Forall2 in Gr.
    induction Gr as [|g o gs os Hg _ IH]; constructor;
      [now apply normalizeGroup_texts | exact IH]. }
  pose proof (trimIntro_texts _ _ I) as In.
  rewrite !lookup_set_other in In by reflexivity.
  apply trimmedList_list in U. apply trimmedList_list in S.
  rewrite lookup_set_other in S by reflexivity.
  rewrite (trimIntro_other _ _ "used_ingredients" I eq_refl) in U.
  rewrite (trimIntro_other _ _ "suggested_additions" I eq_refl) in S.
  rewrite !lookup_set_other in U, S by reflexivity.
  constructor; through_sets.
  - exists title. split; [exact T|].
    rewrite (trimIntro_other _ _ "title" I eq_refl). now through_sets.
  - exists ingredients, groups. split; [exact G|]. split.
    + rewrite (trimIntro_other _ _ "ingredients" I eq_refl). now through_sets.
    + exact GT.
  - exists steps. split; [exact St|]. exists xs. split; [now apply mapM_trimmed_of|].
    rewrite (trimIntro_other _ _ "steps" I eq_refl). now through_sets.
  - exact In.
  - exact U.
  - exact S.
  - rewrite (trimIntro_other _ _ "notes" I eq_refl). now through_sets.
Qed.

Lemma normalizeSection_texts s o : normalizeSection s = Normal o -> SectionTexts s o.
Proof.
  unfold normalizeSection, SectionTexts. destruct s as [| | | | |ms]; simpl; try discriminate.
  destruct (lookup "title" ms) as [[| | |x| |]|]; simpl; try discriminate.
  intros H. exists x. split; [reflexivity|].
  destruct (lookup "url" ms) as [[| | |u| |]|]; simpl in *; try discriminate;
    destruct (lookup "teaser" ms) as [[| | |te| |]|]; simpl in *; try discriminate;
    inv H; split; reflexivity.
Qed.

Lemma landing_texts parsed ms ms' :
  landing parsed ms = Normal (success (JObj ms')) -> LandingTexts ms ms'.
Proof.
  intros H. apply landing_inv in H as (sections & out & _ & S & O & E). inv E.
  split.
  - exists sections, out. split; [exact S|]. split; [apply lookup_set_same|].
    apply mapM_Forall2 in O. clear - O.
    induction O as [|s o ss os Hs _ IH]; constructor;
      [now apply normalizeSection_texts | exact IH].
  - now rewrite lookup_set_other.
Qed.

(** C3, as the code has it.  In a payload the handler returns, the steps
    and the items of every ingredient group are the trimmed texts of the
    output's entries, in their order, with the empty ones removed; the
    entries of used_ingredients and suggested_additions are the trimmed
    texts of the output's entries, one for each entry, the empty ones
    kept (and the list is empty when the output has none); notes is as the
    model gave it; the title of a recipe is trimmed, and its intro too
    unless it was a falsy value, which stays; the label of a group is
    trimmed, and left out when it was falsy; the title and the teaser of a
    landing section are trimmed (the landing intro is not touched). *)
Theorem normalized_texts parsed p :
  validate parsed = Normal (success p) ->
  exists input ms,
    parsed = JObj input /\ p = JObj ms /\
    ((strictEq (lookup "mode" ms) "landing" = true /\
      LandingNormalized ms /\ LandingTexts input ms)
     \/ (strictEq (lookup "mode" ms) "recipe" = true /\
         RecipeNormalized ms /\ RecipeTexts input ms)).
Proof.
  intros H. apply validate_success in H as (input & -> & [[M H] | [M H]]).
  - pose proof H as H'. apply landing_inv in H' as (sections & out & I & S & O & ->).
    eexists input, _. split; [reflexivity|]. split; [reflexivity|]. left. split; [|split].
    + now rewrite lookup_set_other.
    + exists out. rewrite lookup_set_same. split; [reflexivity|].
      eapply mapM_results; [|exact O]. apply normalizeSection_normal.
    + eapply landing_texts, H.
  - destruct p as [| | | | |ms'];
      try (apply recipe_inv in H; now destruct H as (?&?&?&?&?&?&?&?&?&?&?&?&?&?&?)).
    exists input, ms'. split; [reflexivity|]. split; [reflexivity|]. right. split; [|split].
    + now rewrite (recipe_frame _ _ _ "mode" H eq_refl).
    + eapply recipe_normalized, H.
    + eapply recipe_texts, H.
Qed.

(** The texts of a recipe with a blank label, a padded step, a padded note
    and a blank used ingredient. *)
Lemma normalized_texts_witness :
  exists p,
    validate (JObj Sample.blankLabel) = Normal (success p) /\
    exists input ms,
      JObj Sample.blankLabel = JObj input /\ p = JObj ms /\
      ((strictEq (lookup "mode" ms) "landing" = true /\
        LandingNormalized ms /\ LandingTexts input ms)
       \/ (strictEq (lookup "mode" ms) "recipe" = true /\
           RecipeNormalized ms /\ RecipeTexts input ms)).
Proof.
  eexists. split; [vm_compute; reflexivity|].
  apply (normalized_texts (JObj Sample.blankLabel)). vm_compute. reflexivity.
Defined.

(** C3 as stated fails: a blank entry of used_ingredients is trimmed to the
    empty text and kept, a padded note is returned as it is, and so is the
    padded intro of a landing payload. *)
Lemma blank_entries_survive :
  (exists p,
      validate (JObj Sample.blankLabel) = Normal (success p) /\
      optGet (Some p) "used_ingredients" = Some (JArr [JStr "bread"; JStr ""]) /\
      cleanList (optGet (Some p) "used_ingredients") = false /\
      optGet (Some p) "notes" = Some (JArr [JStr " Serve warm. "]) /\
      cleanList (optGet (Some p) "notes") = false)
  /\ (exists p,
      validate (JObj Sample.paddedLanding) = Normal (success p) /\
      optGet (Some p) "intro" = Some (JStr " Two soups. ") /\
      trim " Two soups. " <> " Two soups. ").
Proof.
  split; eexists; repeat split; try (vm_compute; reflexivity).
  vm_compute. discriminate.
Qed.

(** ** C4: an envelope without completion *)

(** C4, as the code has it.  When the provider's 2xx body is JSON without
    a completion at [choices[0].message.content], the completion defaults
    to the empty text and the handler answers with the same 502 as for a
    completion that is not JSON: error "Invalid JSON from model", raw text
    empty. *)
Theorem missing_completion_is_invalid_json env provider request fwRes data w w' :
  accepted env request ->
  fwFetchWithRetry provider 3 w = (Normal fwRes, w') ->
  ok fwRes = true ->
  JsonText.parse (text fwRes) = Some data ->
  lacksCompletion data ->
  POST env provider request w = (invalidModelJSON "", w').
Proof.
  intros A F O P L. rewrite (POST_answers _ _ _ _ _ _ A F).
  unfold fromResponse, JSON_parse. rewrite O, P. cbn [negb cbind].
  unfold fromEnvelope, completionText. now destruct L as [-> | ->].
Qed.

(** The envelope with an empty list of choices. *)
Lemma missing_completion_is_invalid_json_witness :
  POST Sample.env (Sample.answering Sample.noChoices) Sample.request start
  = (invalidModelJSON "", Sample.once).
Proof.
  apply (missing_completion_is_invalid_json Sample.env
           (Sample.answering Sample.noChoices) Sample.request
           {| status := 200; text := Sample.noChoices |}
           (JObj [("choices", JArr [])]) start Sample.once).
  - apply sample_accepted.
  - reflexivity.
  - reflexivity.
  - vm_compute. reflexivity.
  - left. reflexivity.
Defined.

(** C4 as stated fails: an envelope with no choice and an envelope whose
    completion is prose get the same error, the one of invalid model
    JSON. *)
Lemma missing_completion_is_not_distinct :
  JsonText.parse Sample.noChoices = Some (JObj [("choices", JArr [])])
  /\ completionAt (JObj [("choices", JArr [])]) = None
  /\ POST Sample.env (Sample.answering Sample.noChoices) Sample.request start
     = (NextResponse_json (Failure "Invalid JSON from model" (Raw "")) 502, Sample.once)
  /\ JsonText.parse Sample.proseEnvelope
     = Some (envelope (JStr "Sorry, no recipe today."))
  /\ POST Sample.env (Sample.answering Sample.proseEnvelope) Sample.request start
     = (NextResponse_json (Failure "Invalid JSON from model"
                             (Raw "Sorry, no recipe today.")) 502, Sample.once).
Proof. repeat split; vm_compute; reflexivity. Qed.

(** ** C5: the retry policy *)

(** C5.  The transport retries exactly the statuses 429 and 500 to 599,
    and waits 300 * 2^i ms after attempt i (300, 600 and 1200 ms with the
    default budget of three attempts): a response with another status is
    returned at once, after one attempt and no wait; after 500, 500, 200
    the 200 response is returned after the waits 300 and 600 and three
    attempts; a 404 is returned after one attempt and no wait. *)
Theorem retry_policy :
  (forall res, retryable res = true <-> transient res)
  /\ (forall provider res,
      provider 0%nat = Resolves res -> retryable res = false ->
      fwFetchWithRetry provider 3 start
      = (Normal res, {| calls := 1; trace := [Fetch] |}))
  /\ (forall provider r0 r1 r2,
      provider 0%nat = Resolves r0 -> provider 1%nat = Resolves r1 ->
      provider 2%nat = Resolves r2 ->
      retryable r0 = true -> retryable r1 = true -> retryable r2 = false ->
      fwFetchWithRetry provider 3 start
      = (Normal r2, {| calls := 3; trace := [Fetch; Wait 300; Fetch; Wait 600; Fetch] |}))
  /\ (forall provider n,
      (forall k, (k < n)%nat -> exists res, provider k = Resolves res /\ transient res) ->
      snd (fwFetchWithRetry provider n start) = {| calls := n; trace := retries 0 n |})
  /\ retries 0 3 = [Fetch; Wait 300; Fetch; Wait 600; Fetch; Wait 1200]
  /\ (forall b0 b1 b2 final,
      fwFetchWithRetry
        (scripted [{| status := 500; text := b0 |}; {| status := 500; text := b1 |};
                   {| status := 200; text := b2 |}] final) 3 start
      = (Normal {| status := 200; text := b2 |},
         {| calls := 3; trace := [Fetch; Wait 300; Fetch; Wait 600; Fetch] |}))
  /\ (forall b0 final,
      fwFetchWithRetry (scripted [{| status := 404; text := b0 |}] final) 3 start
      = (Normal {| status := 404; text := b0 |}, {| calls := 1; trace := [Fetch] |})).
Proof.
  split; [|split; [|split; [|split; [|split; [|split]]]]].
  - apply retryable_transient.
  - intros provider res H R. unfold fwFetchWithRetry, start.
    now rewrite (retryFrom_returns _ _ _ _ _ _ _ H R).
  - intros provider r0 r1 r2 H0 H1 H2 R0 R1 R2. unfold fwFetchWithRetry, start.
    rewrite (retryFrom_retries _ _ _ _ _ _ _ H0 R0).
    rewrite (retryFrom_retries _ _ _ _ _ _ _ H1 R1).
    now rewrite (retryFrom_returns _ _ _ _ _ _ _ H2 R2).
  - intros provider n H. unfold fwFetchWithRetry, start.
    destruct (retryFrom_exhausts provider n 0 None 0 [] H) as (message & R & _).
    now rewrite R.
  - reflexivity.
  - reflexivity.
  - reflexivity.
Qed.

(** A run 503, 429, 200. *)
Lemma retry_policy_witness :
  fwFetchWithRetry
    (scripted [{| status := 503; text := "busy" |}; {| status := 429; text := "wait" |}]
       {| status := 200; text := "{}" |}) 3 start
  = (Normal {| status := 200; text := "{}" |},
     {| calls := 3; trace := [Fetch; Wait 300; Fetch; Wait 600; Fetch] |}).
Proof.
  apply (proj1 (proj2 (proj2 retry_policy))
           (scripted [{| status := 503; text := "busy" |};
                      {| status := 429; text := "wait" |}]
              {| status := 200; text := "{}" |})
           {| status := 503; text := "busy" |}
           {| status := 429; text := "wait" |}
           {| status := 200; text := "{}" |});
    reflexivity.
Defined.

(** ** C6: at most eight sections *)

(** C6.  A landing object that passes the shape check, has more than eight
    sections and whose first eight sections are valid is answered with a
    payload of exactly eight sections, the i-th being the normalized i-th
    section of the input. *)
Theorem landing_truncates_to_eight ms sections :
  landingShape ms sections ->
  (8 < length sections)%nat ->
  Forall (fun s => validSection s = true) (firstn 8 sections) ->
  exists out,
    validate (JObj ms) = Normal (success (JObj (set "sections" (JArr out) ms))) /\
    length out = 8%nat /\
    Forall2 (fun s o => normalizeSection s = Normal o) (firstn 8 sections) out.
Proof.
  intros L N V. rewrite (validate_landing _ _ L).
  destruct (mapM_total normalizeSection (firstn 8 sections)) as [out H].
  { eapply Forall_impl; [|exact V]. apply normalizeSection_total. }
  exists out. rewrite H. split; [reflexivity|]. split.
  - rewrite (mapM_length _ _ _ H), length_firstn. lia.
  - now apply mapM_Forall2.
Qed.

(** Nine ideas give eight sections. *)
Lemma landing_truncates_to_eight_witness :
  exists out,
    validate (JObj Sample.nineIdeasLanding)
    = Normal (success (JObj (set "sections" (JArr out) Sample.nineIdeasLanding))) /\
    length out = 8%nat /\
    Forall2 (fun s o => normalizeSection s = Normal o) (firstn 8 Sample.nineIdeas) out.
Proof.
  apply (landing_truncates_to_eight Sample.nineIdeasLanding Sample.nineIdeas).
  - repeat split.
  - simpl. lia.
  - repeat constructor.
Defined.

(** ** C7: the url of a section *)

(** *** The slug as words joined by hyphens *)

Lemma wordsOf_spaces s : allUnits isWhiteSpace s = true -> wordsOf s = [].
Proof.
  induction s as [|c s IH]; cbn [allUnits wordsOf]; [reflexivity|].
  intros H. apply andb_true_iff in H as [Hc Hs]. now rewrite Hc, IH.
Qed.

Lemma wordsOf_nil s : wordsOf s = [] -> allUnits isWhiteSpace s = true.
Proof.
  induction s as [|c s IH]; cbn [allUnits wordsOf]; [reflexivity|].
  destruct (isWhiteSpace c); cbn [andb]; [exact IH|].
  unfold extendWords. now destruct (startsWord s), (wordsOf s).
Qed.

Lemma trimEnd_nil s : trimEnd s = "" -> allUnits isWhiteSpace s = true.
Proof.
  induction s as [|c s IH]; cbn [trimEnd allUnits]; [reflexivity|].
  destruct (isWhiteSpace c); cbn [andb]; [|discriminate].
  destruct (trimEnd s); cbn [isEmpty]; [intros _; now apply IH | discriminate].
Qed.

(** After a trim at the end, the runs of white space that are left each
    stand between two words. *)
Lemma replaceRuns_trimEnd s :
  forall inRun,
    replaceRuns inRun (trimEnd s)
    = match wordsOf s with
      | [] => ""
      | ws => (if negb inRun && negb (startsWord s) then "-" else "") ++ hyphenated ws
      end.
Proof.
  induction s as [|c s IH]; intros inRun; [reflexivity|].
  cbn [trimEnd wordsOf startsWord]. destruct (isWhiteSpace c) eqn:W; cbn [andb negb].
  - destruct (isEmpty (trimEnd s)) eqn:E.
    + apply isEmpty_true, trimEnd_nil, wordsOf_spaces in E. now rewrite E.
    + cbn [replaceRuns]. rewrite W.
      assert (N : wordsOf s <> []).
      { intros N. apply wordsOf_nil in N.
        destruct (trimEnd s) eqn:T; [discriminate|].
        assert (T' : trimEnd s = "") by (clear - N; induction s as [|d s IH];
          [reflexivity | cbn [allUnits trimEnd] in *; apply andb_true_iff in N as [Hd Hs];
           now rewrite Hd, (IH Hs)]).
        congruence. }
      destruct inRun; rewrite IH; destruct (wordsOf s) as [|w ws]; try now destruct N.
      * reflexivity.
      * reflexivity.
  - cbn [replaceRuns]. rewrite W, (IH false). cbn [negb andb].
    rewrite andb_false_r. cbn [append].
    unfold extendWords, hyphenated.
    destruct (wordsOf s) as [|w ws] eqn:Ws.
    + now destruct (startsWord s).
    + destruct (startsWord s); cbn [negb]; cbn [String.concat append]; now destruct ws.
Qed.

Lemma wordsOf_trimStart s : wordsOf (trimStart s) = wordsOf s.
Proof.
  induction s as [|c s IH]; cbn [trimStart]; [reflexivity|].
  destruct (isWhiteSpace c) eqn:W; [|reflexivity]. cbn [wordsOf]. now rewrite W.
Qed.

Lemma startsWord_trimStart s : trimStart s <> "" -> startsWord (trimStart s) = true.
Proof.
  induction s as [|c s IH]; cbn [trimStart]; [now intros []|].
  destruct (isWhiteSpace c) eqn:W; [exact IH|]. intros _. cbn. now rewrite W.
Qed.

Lemma replaceRuns_trim s : replaceRuns false (trim s) = hyphenated (wordsOf s).
Proof.
  unfold trim. rewrite replaceRuns_trimEnd, wordsOf_trimStart.
  destruct (wordsOf s) as [|w ws] eqn:Ws; [reflexivity|].
  rewrite startsWord_trimStart; [reflexivity|].
  intros E. rewrite <- wordsOf_trimStart, E in Ws. discriminate.
Qed.

(** The slug of a text is made of the words of the text, in lower case
    and without the characters outside the class, joined by hyphens. *)
Lemma slugify_words s :
  slugify s = hyphenated (wordsOf (filterChars slugChar (toLowerCase s))).
Proof. unfold slugify. apply replaceRuns_trim. Qed.

Lemma normalizeSection_bad_url s :
  textOrAbsent (optGet (Some s) "url") = false -> normalizeSection s = Throw TypeError.
Proof.
  unfold normalizeSection. destruct s as [| | | | |ms]; cbn [optGet textOrAbsent];
    try discriminate.
  cbn [get cbind].
  destruct (lookup "title" ms) as [[| | |x| |]|]; cbn [cbind]; try reflexivity.
  destruct (lookup "url" ms) as [[| | |u| |]|]; cbn [cbind textOrAbsent]; try discriminate;
    reflexivity.
Qed.

(** C7.  In a landing payload, the url of each of the first eight
    sections is the section's own url when that is a text starting with a
    solidus, and otherwise [/recipes/] followed by the slug of the
    section's title as the payload has it (upper case, trimmed).  The slug
    is made of the words of the title, in lower case and without the
    characters outside [a-z0-9], white space and hyphen, joined by single
    hyphens; for a title of the modelled alphabet it is also the slug of
    the title as the model gave it.  A landing whose first eight sections
    have a text for title and texts, [null] or nothing for url and teaser
    has a payload; a url that is there and is neither a text nor [null]
    makes the validation throw. *)
Theorem landing_section_url ms sections i s :
  landingShape ms sections ->
  (i < 8)%nat -> nth_error sections i = Some s ->
  (forall p,
      validate (JObj ms) = Normal (success p) ->
      exists out o T,
        p = JObj (set "sections" (JArr out) ms) /\
        nth_error out i = Some o /\
        optGet (Some o) "title" = Some (JStr T) /\
        optGet (Some o) "url"
        = (if startsWithSolidus (optGet (Some s) "url") then optGet (Some s) "url"
           else Some (JStr ("/recipes/" ++ slugify T))) /\
        slugify T = hyphenated (wordsOf (filterChars slugChar (toLowerCase T))) /\
        forall title,
          optGet (Some s) "title" = Some (JStr title) -> asciiText title = true ->
          T = trim (toUpperCase title) /\ slugify T = slugify title)
  /\ (Forall (fun s => validSection s = true) (firstn 8 sections) ->
      exists p, validate (JObj ms) = Normal (success p))
  /\ (textOrAbsent (optGet (Some s) "url") = false ->
      validate (JObj ms) = Throw TypeError).
Proof.
  intros L I N.
  assert (N' : nth_error (firstn 8 sections) i = Some s).
  { rewrite nth_error_firstn. apply Nat.ltb_lt in I. now rewrite I. }
  rewrite (validate_landing _ _ L). split; [|split].
  - intros p H.
    destruct (mapM normalizeSection (firstn 8 sections)) as [out|] eqn:M; cbn [cbind] in H;
      [|discriminate].
    inv H. apply mapM_Forall2 in M.
    destruct (Forall2_nth_error _ _ _ _ _ M N') as (o & No & Ho).
    apply normalizeSection_inv in Ho as (ms' & x & -> & Tx & _ & _ & te & -> & _).
    eexists out, _, (trim (toUpperCase x)).
    split; [reflexivity|]. split; [exact No|]. split; [reflexivity|].
    split; [|split; [apply slugify_words|]].
    + simpl. destruct (lookup "url" ms') as [[| | |u| |]|]; simpl; try reflexivity.
      now destruct (startsWith "/" u).
    + intros title T _. simpl in T. rewrite Tx in T. inv T.
      split; [reflexivity | apply slugify_normalized_title].
  - intros V. destruct (mapM_total normalizeSection (firstn 8 sections)) as [out H].
    { eapply Forall_impl; [|exact V]. apply normalizeSection_total. }
    rewrite H. cbn [cbind]. now eexists.
  - intros U. rewrite (mapM_throws normalizeSection TypeError); [reflexivity| |].
    + apply Forall_forall. intros x _ e. apply normalizeSection_throws.
    + apply Exists_exists. exists s. split; [eapply nth_error_In, N'|].
      now apply normalizeSection_bad_url.
Qed.

(** A relative url is replaced by the path of the slug, and a number for
    url makes the validation throw. *)
Lemma landing_section_url_witness :
  (exists out o,
      validate (JObj Sample.soupsLanding)
      = Normal (success (JObj (set "sections" (JArr out) Sample.soupsLanding))) /\
      nth_error out 0 = Some o /\
      optGet (Some o) "title" = Some (JStr "MISO  SOUP!") /\
      optGet (Some o) "url" = Some (JStr "/recipes/miso-soup") /\
      slugify "MISO  SOUP!" = hyphenated ["miso"; "soup"] /\
      slugify "MISO  SOUP!" = slugify " Miso  Soup! ")
  /\ validate (JObj Sample.numberUrlLanding) = Throw TypeError.
Proof.
  split.
  - destruct (landing_section_url Sample.soupsLanding Sample.soups 0
                (JObj [("title", JStr " Miso  Soup! "); ("url", JStr "miso")]))
      as (Url & Total & _).
    + repeat split.
    + lia.
    + reflexivity.
    + destruct Total as [p V]; [repeat constructor|].
      destruct (Url p V) as (out & o & T & -> & No & Ti & U & _ & A).
      destruct (A " Miso  Soup! " eq_refl eq_refl) as [-> S].
      exists out, o. split; [exact V|]. split; [exact No|]. split; [exact Ti|].
      split; [exact U|]. split; [reflexivity | exact S].
  - apply (landing_section_url Sample.numberUrlLanding
             [JObj [("title", JStr "Ramen"); ("url", JNum 7)]] 0
             (JObj [("title", JStr "Ramen"); ("url", JNum 7)])).
    + repeat split.
    + lia.
    + reflexivity.
    + reflexivity.
Defined.

(** ** C8: normalizing twice *)

(** C8, as the code has it.  A payload the handler returned is returned
    unchanged when the handler's validation and normalization run on it
    again, provided that, if it is a recipe, none of its ingredient groups
    has the empty text for label. *)
Theorem renormalizing_is_identity parsed p :
  validate parsed = Normal (success p) ->
  noEmptyLabel p ->
  validate p = Normal (success p).
Proof.
  intros H L. apply validate_success in H as (ms & -> & [[M H] | [M H]]).
  - apply landing_inv in H as (sections & out & I & S & O & ->).
    assert (L' : landingShape (set "sections" (JArr out) ms) out).
    { unfold landingShape. through_sets. now rewrite M, I. }
    rewrite (validate_landing _ _ L').
    rewrite firstn_all2.
    2:{ rewrite (mapM_length _ _ _ O). apply firstn_le_length. }
    rewrite (mapM_fixed normalizeSection out).
    2:{ eapply Forall_impl; [apply normalizeSection_fixed|].
        eapply mapM_results; [|exact O]. apply normalizeSection_normal. }
    cbn [cbind]. now rewrite (set_unchanged _ _ _ (lookup_set_same _ _ _)).
  - destruct p as [| | | | |ms'];
      try (apply recipe_inv in H; now destruct H as (?&?&?&?&?&?&?&?&?&?&?&?&?&?&?)).
    assert (M' : strictEq (lookup "mode" ms') "recipe" = true).
    { now rewrite (recipe_frame _ _ _ "mode" H eq_refl). }
    rewrite (validate_recipe _ M').
    apply recipe_fixed; [eapply recipe_normalized, H|].
    intros gs G. now apply (L M' gs).
Qed.

(** The payload of a recipe without group labels is a fixed point. *)
Lemma renormalizing_is_identity_witness :
  exists p,
    validate (JObj Sample.timedRecipe) = Normal (success p) /\
    validate p = Normal (success p).
Proof.
  eexists. split; [vm_compute; reflexivity|].
  apply (renormalizing_is_identity (JObj Sample.timedRecipe)).
  - vm_compute. reflexivity.
  - intros _ gs E. inversion E. repeat constructor.
Defined.

(** C8 as stated fails: a group label of white space becomes the empty
    text in the first pass, and the second pass, which tests the label
    before trimming it, leaves the label out. *)
Lemma blank_label_is_dropped_by_second_pass :
  exists p1 p2,
    validate (JObj Sample.blankLabel) = Normal (success p1) /\
    validate p1 = Normal (success p2) /\
    optGet (Some p1) "ingredients"
    = Some (JArr [JObj [("group", JStr ""); ("items", JArr [JStr "bread"])]]) /\
    optGet (Some p2) "ingredients"
    = Some (JArr [JObj [("items", JArr [JStr "bread"])]]) /\
    p1 <> p2.
Proof.
  eexists. eexists.
  split; [vm_compute; reflexivity|].
  split; [vm_compute; reflexivity|].
  split; [reflexivity|].
  split; [reflexivity|].
  discriminate.
Qed.

(** ** C9: a section without title *)

(** C9.  There is a landing output that passes the shape check and has a
    section without title: the callback throws, and the handler answers
    with status 500 and the message of the error, not with the shape
    failure. *)
Theorem section_without_title_is_a_500 :
  exists ms sections s,
    JsonText.parse Sample.untitledLanding = Some (JObj ms) /\
    landingShape ms sections /\ In s sections /\ get s "title" = Normal None /\
    validate (JObj ms) = Throw TypeError /\
    JsonText.parse Sample.untitledLandingEnvelope
    = Some (envelope (JStr Sample.untitledLanding)) /\
    POST Sample.env (Sample.answering Sample.untitledLandingEnvelope) Sample.request start
    = (NextResponse_json (Caught TypeError) 500, Sample.once).
Proof.
  pose (s := JObj [("teaser", JStr "Warm and quick")]).
  pose (ms := [("mode", JStr "landing"); ("intro", JStr "Ideas"); ("sections", JArr [s])]).
  assert (P : JsonText.parse Sample.untitledLanding = Some (JObj ms))
    by (vm_compute; reflexivity).
  assert (L : landingShape ms [s]) by (repeat split).
  assert (V : validate (JObj ms) = Throw TypeError).
  { apply (landing_bad_title ms [s] s L); [left; reflexivity | discriminate]. }
  assert (E : JsonText.parse Sample.untitledLandingEnvelope
              = Some (envelope (JStr Sample.untitledLanding)))
    by (vm_compute; reflexivity).
  exists ms, [s], s.
  split; [exact P|]. split; [exact L|]. split; [left; reflexivity|].
  split; [reflexivity|]. split; [exact V|]. split; [exact E|].
  rewrite (POST_validates Sample.env _ Sample.request start
             {| status := 200; text := Sample.untitledLandingEnvelope |} Sample.once
             (envelope (JStr Sample.untitledLanding)) Sample.untitledLanding (JObj ms));
    [now rewrite V | apply sample_accepted | reflexivity | reflexivity | exact E
    | vm_compute; reflexivity | exact P].
Qed.

(** ** C10: the frame of the recipe branch *)

(** C10.  A recipe object of the declared type is answered with a payload,
    and in every payload of a recipe object the properties servings, time
    and notes, and every property other than title, ingredients, steps,
    intro, used_ingredients and suggested_additions, have the value they
    had in the model's output, or are absent as they were there. *)
Theorem recipe_leaves_other_fields ms :
  strictEq (lookup "mode" ms) "recipe" = true ->
  (typedRecipe ms = true -> exists p, validate (JObj ms) = Normal (success p))
  /\ forall p,
       validate (JObj ms) = Normal (success p) ->
       exists ms',
         p = JObj ms' /\
         lookup "servings" ms' = lookup "servings" ms /\
         lookup "time" ms' = lookup "time" ms /\
         lookup "notes" ms' = lookup "notes" ms /\
         forall k, rewritten k = false -> lookup k ms' = lookup k ms.
Proof.
  intros M. rewrite (validate_recipe _ M). split; [apply recipe_total|].
  intros p H.
  destruct p as [| | | | |ms'];
    try (apply recipe_inv in H; now destruct H as (?&?&?&?&?&?&?&?&?&?&?&?&?&?&?)).
  exists ms'. split; [reflexivity|].
  repeat split; try (now apply (recipe_frame _ _ _ _ H)).
  intros k. apply (recipe_frame _ _ _ _ H).
Qed.

(** Servings, time and notes of a recipe come back as they were, the padded
    texts inside them too. *)
Lemma recipe_leaves_other_fields_witness :
  (exists p, validate (JObj Sample.timedRecipe) = Normal (success p))
  /\ exists p ms',
       validate (JObj Sample.timedRecipe) = Normal (success p) /\
       p = JObj ms' /\
       lookup "servings" ms' = Some (JNum 2) /\
       lookup "time" ms'
       = Some (JObj [("prep", JStr " 2 min "); ("total", JStr "5 min")]) /\
       lookup "notes" ms' = Some (JArr [JStr " Serve warm. "]) /\
       forall k, rewritten k = false -> lookup k ms' = lookup k Sample.timedRecipe.
Proof.
  destruct (recipe_leaves_other_fields Sample.timedRecipe eq_refl) as [T F].
  split; [exact (T eq_refl)|].
  eexists.
  assert (V : validate (JObj Sample.timedRecipe) = Normal (success _))
    by (vm_compute; reflexivity).
  destruct (F _ V) as (ms' & E & S & Ti & N & K).
  exists ms'. repeat split; assumption.
Defined.

(* ===================================================================== *)
(** * Further properties of the code *)
(* ===================================================================== *)


(* ===================================================================== *)
(** ** Slugs ([slugify] of route.ts and page.tsx, [unslugify]) *)
(* ===================================================================== *)

Lemma slugUnit_spec c :
  slugUnit c = true <->
  (let n := N_of_ascii c in
   (97 <= n <= 122)%N \/ (48 <= n <= 57)%N \/ n = 45%N).
Proof. by_cases_on_unit c; cbv; intuition (try discriminate; try lia). Qed.

Lemma allUnits_filterChars p s : allUnits p (filterChars p s) = true.
Proof.
  induction s as [|c s IH]; simpl; [reflexivity|].
  destruct (p c) eqn:E; simpl; [now rewrite E|exact IH].
Qed.

Lemma allUnits_trimStart p s : allUnits p s = true -> allUnits p (trimStart s) = true.
Proof.
  induction s as [|c s IH]; simpl; [trivial|].
  intros H. apply andb_true_iff in H as [Hc Hs].
  destruct (isWhiteSpace c); [auto|]. simpl. now rewrite Hc, Hs.
Qed.

Lemma allUnits_trimEnd p s : allUnits p s = true -> allUnits p (trimEnd s) = true.
Proof.
  induction s as [|c s IH]; simpl; [trivial|].
  intros H. apply andb_true_iff in H as [Hc Hs].
  destruct (isWhiteSpace c && isEmpty (trimEnd s)); [reflexivity|].
  simpl. now rewrite Hc, IH.
Qed.

Lemma allUnits_trim p s : allUnits p s = true -> allUnits p (trim s) = true.
Proof. intros H. now apply allUnits_trimEnd, allUnits_trimStart. Qed.

Lemma slugUnit_hyphen : slugUnit "-" = true.
Proof. reflexivity. Qed.

Lemma allUnits_replaceRuns b s :
  allUnits slugChar s = true -> allUnits slugUnit (replaceRuns b s) = true.
Proof.
  revert b. induction s as [|c s IH]; intros b; simpl; [trivial|].
  intros H. apply andb_true_iff in H as [Hc Hs].
  destruct (isWhiteSpace c) eqn:W.
  - destruct b; simpl; auto.
  - simpl. unfold slugUnit at 1. rewrite Hc, W. simpl. auto.
Qed.

(** X1.  Whatever the title, its slug is made of lower-case letters, digits
    and hyphens only. *)
Theorem slugify_alphabet s : allUnits slugUnit (slugify s) = true.
Proof.
  unfold slugify. apply allUnits_replaceRuns, allUnits_trim, allUnits_filterChars.
Qed.

Lemma slugUnit_toLowerChar c : slugUnit c = true -> toLowerChar c = c.
Proof. by_cases_on_unit c. Qed.

Lemma slugUnit_slugChar c : slugUnit c = true -> slugChar c = true.
Proof. unfold slugUnit. intros H. now apply andb_true_iff in H. Qed.

Lemma slugUnit_not_space c : slugUnit c = true -> isWhiteSpace c = false.
Proof. unfold slugUnit. intros H. apply andb_true_iff in H as [_ H]. now destruct (isWhiteSpace c). Qed.

(** [slugify] leaves a text of slug characters as it is. *)
Lemma slugify_fixed s : allUnits slugUnit s = true -> slugify s = s.
Proof.
  intros H. unfold slugify.
  assert (L : toLowerCase s = s).
  { induction s as [|c s IH]; simpl in *; [reflexivity|].
    apply andb_true_iff in H as [Hc Hs].
    unfold toLowerCase in *. simpl. now rewrite (slugUnit_toLowerChar _ Hc), IH. }
  assert (F : filterChars slugChar s = s).
  { clear L. induction s as [|c s IH]; simpl in *; [reflexivity|].
    apply andb_true_iff in H as [Hc Hs].
    now rewrite (slugUnit_slugChar _ Hc), IH. }
  assert (TS : trimStart s = s).
  { destruct s as [|c s]; simpl in *; [reflexivity|].
    apply andb_true_iff in H as [Hc Hs]. now rewrite (slugUnit_not_space _ Hc). }
  assert (TE : trimEnd s = s).
  { clear L F TS. induction s as [|c s IH]; simpl in *; [reflexivity|].
    apply andb_true_iff in H as [Hc Hs].
    now rewrite (slugUnit_not_space _ Hc), IH. }
  assert (R : replaceRuns false s = s).
  { clear L F TS TE. induction s as [|c s IH]; simpl in *; [reflexivity|].
    apply andb_true_iff in H as [Hc Hs].
    now rewrite (slugUnit_not_space _ Hc), IH. }
  unfold trim. now rewrite L, F, TS, TE, R.
Qed.

(** X2.  [slugify] is idempotent: the slug of a slug is that slug. *)
Theorem slugify_idempotent s : slugify (slugify s) = slugify s.
Proof.
  apply slugify_fixed. unfold slugify.
  apply allUnits_replaceRuns, allUnits_trim, allUnits_filterChars.
Qed.

Lemma trimStart_empty s : trimStart s = "" <-> allUnits isWhiteSpace s = true.
Proof.
  induction s as [|c s IH]; simpl; [tauto|].
  destruct (isWhiteSpace c); simpl; [exact IH|]. split; discriminate.
Qed.

Lemma trimEnd_empty s : trimEnd s = "" <-> allUnits isWhiteSpace s = true.
Proof.
  induction s as [|c s IH]; simpl; [tauto|].
  destruct (isWhiteSpace c); simpl.
  - destruct (isEmpty (trimEnd s)) eqn:E.
    + apply isEmpty_true in E. tauto.
    + split; [discriminate|]. intros H. apply IH in H. rewrite H in E. discriminate.
  - split; discriminate.
Qed.

Lemma allUnits_space_trimStart s :
  allUnits isWhiteSpace (trimStart s) = allUnits isWhiteSpace s.
Proof.
  induction s as [|c s IH]; simpl; [reflexivity|].
  destruct (isWhiteSpace c) eqn:W; simpl; [exact IH | now rewrite W].
Qed.

Lemma trim_empty_iff s : trim s = "" <-> allUnits isWhiteSpace s = true.
Proof. unfold trim. now rewrite trimEnd_empty, allUnits_space_trimStart. Qed.

Lemma replaceRuns_empty b s : replaceRuns b s = "" -> allUnits isWhiteSpace s = true.
Proof.
  revert b. induction s as [|c s IH]; intros b; simpl; [trivial|].
  destruct (isWhiteSpace c); simpl.
  - destruct b; [apply IH | discriminate].
  - discriminate.
Qed.

Lemma allUnits_filter_lower s :
  allUnits isWhiteSpace (filterChars slugChar (toLowerCase s)) = true <->
  allUnits (fun c => negb (slugUnit (toLowerChar c))) s = true.
Proof.
  unfold toLowerCase. induction s as [|c s IH]; simpl; [tauto|].
  unfold slugUnit at 1. 
  destruct (slugChar (toLowerChar c)) eqn:K; simpl.
  - destruct (isWhiteSpace (toLowerChar c)); simpl; [exact IH | split; discriminate].
  - exact IH.
Qed.

(** X3.  The slug is empty exactly when no character of the title is a
    letter, a digit or a hyphen: the character in lower case is no slug
    character. *)
Theorem slugify_empty s :
  slugify s = "" <-> allUnits (fun c => negb (slugUnit (toLowerChar c))) s = true.
Proof.
  rewrite <- allUnits_filter_lower, <- trim_empty_iff. unfold slugify. split.
  - intros H. apply replaceRuns_empty in H. apply trim_empty_iff in H.
    now rewrite trim_idem in H.
  - now intros ->.
Qed.

(** *** From the slug back to a title *)

Lemma toLowerCase_capitalizeWords b s :
  toLowerCase s = s -> toLowerCase (capitalizeWords b s) = s.
Proof.
  revert b. induction s as [|c s IH]; intros b H; [reflexivity|].
  cbn [toLowerCase mapChars capitalizeWords] in *.
  injection H as Hc Hs. f_equal; [|now apply IH].
  destruct (isWordChar c && negb b); [|exact Hc].
  revert Hc. clear. by_cases_on_unit c.
Qed.

Lemma hyphenToSpace_slugChar c : slugUnit c = true -> slugChar (hyphenToSpace c) = true.
Proof. by_cases_on_unit c. Qed.

Lemma hyphenToSpace_lower c : slugUnit c = true -> toLowerChar (hyphenToSpace c) = hyphenToSpace c.
Proof. by_cases_on_unit c. Qed.

Lemma hyphenToSpace_other c : Ascii.eqb c "-" = false -> hyphenToSpace c = c.
Proof. unfold hyphenToSpace. now intros ->. Qed.

Lemma wordsFrom_units b s : wordsFrom b s = true -> allUnits slugUnit s = true.
Proof.
  revert b. induction s as [|c s IH]; intros b; cbn [wordsFrom allUnits]; [trivial|].
  destruct (Ascii.eqb c "-") eqn:E.
  - apply Ascii.eqb_eq in E. subst c. intros H. apply andb_true_iff in H as [_ H].
    now rewrite (IH _ H).
  - intros H. apply andb_true_iff in H as [Hc H]. now rewrite Hc, (IH _ H).
Qed.

Lemma filterChars_fixed p s : allUnits p s = true -> filterChars p s = s.
Proof.
  induction s as [|c s IH]; cbn [allUnits filterChars]; [trivial|].
  intros H. apply andb_true_iff in H as [Hc H]. now rewrite Hc, IH.
Qed.

Lemma allUnits_mapChars p q f s :
  (forall c, p c = true -> q (f c) = true) ->
  allUnits p s = true -> allUnits q (mapChars f s) = true.
Proof.
  intros F. induction s as [|c s IH]; cbn [allUnits mapChars]; [trivial|].
  intros H. apply andb_true_iff in H as [Hc H]. now rewrite (F _ Hc), IH.
Qed.

Lemma mapChars_fixed (p : ascii -> bool) f s :
  (forall c, p c = true -> f c = c) -> allUnits p s = true -> mapChars f s = s.
Proof.
  intros F. induction s as [|c s IH]; cbn [allUnits mapChars]; [trivial|].
  intros H. apply andb_true_iff in H as [Hc H]. now rewrite (F _ Hc), IH.
Qed.

Lemma wordsFrom_trimEnd b s :
  wordsFrom b s = true -> trimEnd (mapChars hyphenToSpace s) = mapChars hyphenToSpace s.
Proof.
  revert b. induction s as [|c s IH]; intros b; cbn [wordsFrom mapChars trimEnd]; [trivial|].
  destruct (Ascii.eqb c "-") eqn:E.
  - intros H. apply andb_true_iff in H as [_ H]. rewrite (IH _ H).
    destruct s as [|d s]; [discriminate|]. cbn [mapChars isEmpty].
    now rewrite andb_false_r.
  - intros H. apply andb_true_iff in H as [Hc H]. rewrite (IH _ H).
    rewrite (hyphenToSpace_other _ E), (slugUnit_not_space _ Hc). reflexivity.
Qed.

Lemma wordsFrom_replaceRuns b s :
  wordsFrom b s = true -> replaceRuns b (mapChars hyphenToSpace s) = s.
Proof.
  revert b. induction s as [|c s IH]; intros b; cbn [wordsFrom mapChars replaceRuns];
    [trivial|].
  destruct (Ascii.eqb c "-") eqn:E.
  - intros H. apply andb_true_iff in H as [Hb H]. apply Ascii.eqb_eq in E. subst c.
    destruct b; [discriminate|]. cbn. now rewrite (IH _ H).
  - intros H. apply andb_true_iff in H as [Hc H].
    rewrite (hyphenToSpace_other _ E), (slugUnit_not_space _ Hc). now rewrite (IH _ H).
Qed.

Lemma slugify_trim s : slugify (trim s) = slugify s.
Proof.
  unfold slugify. f_equal. unfold toLowerCase.
  rewrite <- (trim_mapChars toLowerChar isWhiteSpace_toLowerChar).
  rewrite <- (trim_filterChars slugChar slugChar_whiteSpace).
  rewrite trim_idem.
  now rewrite (trim_filterChars slugChar slugChar_whiteSpace).
Qed.

(** X4.  The recipe page's [unslugify] is undone by [slugify] on a slug of
    words: slug characters with single hyphens between the words and none
    at either end. *)
Theorem slugify_unslugify s : wordSlug s = true -> slugify (unslugify s) = s.
Proof.
  unfold wordSlug. destruct s as [|c0 s0]; [reflexivity|]. cbn [isEmpty orb].
  set (s := String c0 s0). intros W.
  pose proof (wordsFrom_units _ _ W) as U.
  unfold unslugify. rewrite slugify_trim. unfold slugify.
  rewrite toLowerCase_capitalizeWords.
  2:{ unfold toLowerCase. rewrite mapChars_mapChars.
      clear W. induction s as [|c s IH]; [reflexivity|].
      cbn [allUnits mapChars] in *. apply andb_true_iff in U as [Hc U].
      now rewrite (hyphenToSpace_lower _ Hc), IH. }
  rewrite filterChars_fixed
    by (apply (allUnits_mapChars slugUnit); [apply hyphenToSpace_slugChar | exact U]).
  unfold trim.
  assert (T : trimStart (mapChars hyphenToSpace s) = mapChars hyphenToSpace s).
  { subst s. cbn [wordsFrom mapChars trimStart] in *.
    destruct (Ascii.eqb c0 "-") eqn:E; [discriminate|].
    apply andb_true_iff in W as [Hc _].
    now rewrite (hyphenToSpace_other _ E), (slugUnit_not_space _ Hc). }
  rewrite T, (wordsFrom_trimEnd _ _ W).
  subst s. cbn [wordsFrom mapChars replaceRuns] in *.
  destruct (Ascii.eqb c0 "-") eqn:E; [discriminate|].
  apply andb_true_iff in W as [Hc W].
  rewrite (hyphenToSpace_other _ E), (slugUnit_not_space _ Hc).
  now rewrite (wordsFrom_replaceRuns _ _ W).
Qed.

(** The title of the recipe page for a slug, and its slug again. *)
Lemma slugify_unslugify_witness :
  unslugify "spicy-tuna-roll" = "Spicy Tuna Roll"
  /\ slugify (unslugify "spicy-tuna-roll") = "spicy-tuna-roll".
Proof.
  split; [reflexivity|]. apply (slugify_unslugify "spicy-tuna-roll"). reflexivity.
Defined.

Lemma plainUnit_word c : plainUnit c = true -> isWhiteSpace c = false -> slugUnit c = true.
Proof.
  unfold plainUnit, slugUnit. intros H W. apply andb_true_iff in H as [H _].
  now rewrite H, W.
Qed.

Lemma plainUnit_not_hyphen c : plainUnit c = true -> Ascii.eqb c "-" = false.
Proof.
  unfold plainUnit. intros H. apply andb_true_iff in H as [_ H].
  now destruct (Ascii.eqb c "-").
Qed.

Lemma trimEnd_tail c s : trimEnd (String c s) = String c s -> trimEnd s = s.
Proof.
  cbn [trimEnd]. destruct (isWhiteSpace c && isEmpty (trimEnd s)); [discriminate|].
  now intros H; injection H.
Qed.

Lemma trimEnd_after_space c s :
  isWhiteSpace c = true -> trimEnd (String c s) = String c s -> s <> "".
Proof.
  cbn [trimEnd]. intros -> H ->. discriminate.
Qed.

Lemma wordsFrom_runs s :
  allUnits plainUnit s = true -> trimEnd s = s ->
  forall inRun, (inRun = true -> s <> "") -> wordsFrom inRun (replaceRuns inRun s) = true.
Proof.
  induction s as [|c s IH]; intros U T inRun N.
  - destruct inRun; [now destruct N|reflexivity].
  - cbn [allUnits] in U. apply andb_true_iff in U as [Hc U].
    pose proof (trimEnd_tail _ _ T) as T'.
    cbn [replaceRuns]. destruct (isWhiteSpace c) eqn:W.
    + pose proof (trimEnd_after_space _ _ W T) as N'.
      destruct inRun.
      * now apply IH.
      * cbn [wordsFrom]. change (Ascii.eqb "-" "-") with true. cbn [negb andb].
        now apply IH.
    + cbn [wordsFrom]. rewrite (plainUnit_not_hyphen _ Hc), (plainUnit_word _ Hc W).
      cbn [andb]. now apply IH.
Qed.

Lemma trimStart_head s c r : trimStart s = String c r -> isWhiteSpace c = false.
Proof.
  induction s as [|d s IH]; cbn [trimStart]; [discriminate|].
  destruct (isWhiteSpace d) eqn:W; [exact IH|]. intros H. now inv H.
Qed.

Lemma plain_kept s :
  hasUnit "-" s = false -> allUnits plainUnit (filterChars slugChar (toLowerCase s)) = true.
Proof.
  induction s as [|c s IH]; cbn [hasUnit toLowerCase mapChars filterChars]; [trivial|].
  intros H. apply orb_false_iff in H as [Hc H]. specialize (IH H).
  destruct (slugChar (toLowerChar c)) eqn:K; [|exact IH].
  cbn [allUnits]. apply andb_true_iff. split; [|exact IH].
  unfold plainUnit. rewrite K. revert Hc. clear. by_cases_on_unit c.
Qed.

(** X5.  The slug of a title without hyphens is a slug of words, the kind
    of slug the recipe page turns back into a title with that slug. *)
Theorem slug_of_plain_title t : hasUnit "-" t = false -> wordSlug (slugify t) = true.
Proof.
  intros H. unfold slugify.
  pose proof (allUnits_trim _ _ (plain_kept _ H)) as U.
  set (v := trim (filterChars slugChar (toLowerCase t))) in *.
  assert (T : trimEnd v = v) by apply trimEnd_idem.
  assert (S : forall c r, v = String c r -> isWhiteSpace c = false).
  { intros c r E. apply (trimStart_head (trimEnd (filterChars slugChar (toLowerCase t))) c r).
    rewrite <- trimEnd_trimStart. exact E. }
  unfold wordSlug. destruct v as [|c r]; [reflexivity|].
  specialize (S c r eq_refl). cbn [replaceRuns]. rewrite S. cbn [isEmpty orb wordsFrom].
  cbn [allUnits] in U. apply andb_true_iff in U as [Hc U].
  rewrite (plainUnit_not_hyphen _ Hc), (plainUnit_word _ Hc S). cbn [andb].
  apply wordsFrom_runs; [exact U | exact (trimEnd_tail _ _ T) | discriminate].
Qed.

Lemma slug_of_plain_title_witness :
  slugify " Spicy  Tuna Roll! " = "spicy-tuna-roll"
  /\ wordSlug (slugify " Spicy  Tuna Roll! ") = true.
Proof.
  split; [reflexivity|]. apply (slug_of_plain_title " Spicy  Tuna Roll! "). reflexivity.
Defined.

(* ===================================================================== *)
(** ** The transport, whatever the provider does *)
(* ===================================================================== *)

Lemma waited_app t u : waited (t ++ u) = waited t + waited u.
Proof. induction t as [|[|ms] t IH]; simpl; lia. Qed.

Lemma fetches_app t u : fetches (t ++ u) = (fetches t + fetches u)%nat.
Proof. induction t as [|[|ms] t IH]; simpl; lia. Qed.

(** One turn of the loop, whatever the provider does. *)
Lemma retryFrom_step provider n i lastErr c t :
  retryFrom provider (S n) i lastErr {| calls := c; trace := t |}
  = match provider c with
    | Rejects e => (Throw e, {| calls := S c; trace := t ++ [Fetch] |})
    | Resolves res =>
        if retryable res
        then retryFrom provider n (S i) (Some (text res))
               {| calls := S c; trace := t ++ [Fetch; Wait (300 * 2 ^ Z.of_nat i)] |}
        else (Normal res, {| calls := S c; trace := t ++ [Fetch] |})
    end.
Proof.
  destruct (provider c) as [res|e] eqn:P.
  - destruct (retryable res) eqn:R.
    + now apply retryFrom_retries.
    + now apply retryFrom_returns.
  - cbn [retryFrom]. unfold bind, fetch. cbn [calls trace]. now rewrite P.
Qed.

Lemma retryFrom_bounds provider n :
  forall i lastErr c t,
    let w' := snd (retryFrom provider n i lastErr {| calls := c; trace := t |}) in
    exists u,
      trace w' = (t ++ u)%list /\
      calls w' = (c + fetches u)%nat /\
      (fetches u <= n)%nat /\ (min 1 n <= fetches u)%nat /\
      0 <= waited u <= 300 * 2 ^ Z.of_nat i * (2 ^ Z.of_nat n - 1).
Proof.
  induction n as [|n IH]; intros i lastErr c t w'; subst w'.
  - exists []. cbn. rewrite app_nil_r, Nat.add_0_r. repeat split; lia.
  - rewrite retryFrom_step.
    assert (P2 : 0 < 2 ^ Z.of_nat i) by (apply Z.pow_pos_nonneg; lia).
    assert (P3 : 0 < 2 ^ Z.of_nat n) by (apply Z.pow_pos_nonneg; lia).
    assert (E : 2 ^ Z.of_nat (S n) = 2 * 2 ^ Z.of_nat n).
    { rewrite Nat2Z.inj_succ, Z.pow_succ_r; lia. }
    assert (One : exists u, (t ++ [Fetch])%list = (t ++ u)%list /\
               S c = (c + fetches u)%nat /\ (fetches u <= S n)%nat /\
               (min 1 (S n) <= fetches u)%nat /\
               0 <= waited u <= 300 * 2 ^ Z.of_nat i * (2 ^ Z.of_nat (S n) - 1)).
    { exists [Fetch]. cbn [fetches waited]. repeat split; try lia. rewrite E. nia. }
    destruct (provider c) as [res|e]; [|exact One].
    destruct (retryable res); [|exact One].
    destruct (IH (S i) (Some (text res)) (S c)
                (t ++ [Fetch; Wait (300 * 2 ^ Z.of_nat i)])%list)
      as (u & Tr & Ca & Le & _ & Wa).
    exists (Fetch :: Wait (300 * 2 ^ Z.of_nat i) :: u).
    rewrite Tr, Ca, <- app_assoc. cbn [app fetches waited].
    assert (E' : 2 ^ Z.of_nat (S i) = 2 * 2 ^ Z.of_nat i).
    { rewrite Nat2Z.inj_succ, Z.pow_succ_r; lia. }
    rewrite E' in Wa. rewrite E.
    repeat split; try lia; nia.
Qed.

(** What a call of the transport adds to the world: calls of [fetch] and
    waits after the events that were there. *)
Lemma fwFetchWithRetry_bounds provider tries w out w' :
  fwFetchWithRetry provider tries w = (out, w') ->
  exists u,
    trace w' = (trace w ++ u)%list /\
    calls w' = (calls w + fetches u)%nat /\
    (min 1 tries <= fetches u <= tries)%nat /\
    0 <= waited u <= 300 * (2 ^ Z.of_nat tries - 1).
Proof.
  destruct w as [c t]. unfold fwFetchWithRetry. intros E.
  destruct (retryFrom_bounds provider tries 0 None c t) as (u & Tr & Ca & Le & Ge & Wa).
  rewrite E in Tr, Ca. cbn [snd] in Tr, Ca. exists u. cbn [trace calls].
  change (2 ^ Z.of_nat 0) with 1 in Wa. repeat split; try assumption; lia.
Qed.

(** X6.  The transport calls [fetch] at least once when its budget is not
    zero, and never more often than the budget; the events of the call are
    added after those that were there. *)
Theorem fwFetchWithRetry_attempts provider tries w :
  exists out w' u,
    fwFetchWithRetry provider tries w = (out, w') /\
    trace w' = (trace w ++ u)%list /\
    calls w' = (calls w + fetches u)%nat /\
    (min 1 tries <= fetches u <= tries)%nat.
Proof.
  destruct (fwFetchWithRetry provider tries w) as [out w'] eqn:E.
  destruct (fwFetchWithRetry_bounds _ _ _ _ _ E) as (u & Tr & Ca & Fe & _).
  now exists out, w', u.
Qed.

(** X7.  The transport never waits longer than 300 * (2^tries - 1)
    milliseconds in all, 2100 ms for the three attempts of the route. *)
Theorem fwFetchWithRetry_waits provider tries w :
  exists out w',
    fwFetchWithRetry provider tries w = (out, w') /\
    waited (trace w) <= waited (trace w') <=
    waited (trace w) + 300 * (2 ^ Z.of_nat tries - 1).
Proof.
  destruct (fwFetchWithRetry provider tries w) as [out w'] eqn:E.
  destruct (fwFetchWithRetry_bounds _ _ _ _ _ E) as (u & Tr & _ & _ & Wa).
  exists out, w'. split; [reflexivity|]. rewrite Tr, waited_app. lia.
Qed.

Lemma retryFrom_result provider n :
  forall i lastErr c t res w',
    retryFrom provider n i lastErr {| calls := c; trace := t |} = (Normal res, w') ->
    retryable res = false /\ exists k, calls w' = S k /\ provider k = Resolves res.
Proof.
  induction n as [|n IH]; intros i lastErr c t res w'.
  - discriminate.
  - rewrite retryFrom_step. destruct (provider c) as [r|e] eqn:P; [|discriminate].
    destruct (retryable r) eqn:R.
    + apply IH.
    + intros H. inv H. split; [exact R|]. now exists c.
Qed.

(** X8.  A response the transport returns is the answer to its last call
    of [fetch], and it is not one to retry: its status is neither 429 nor
    5xx. *)
Theorem fwFetchWithRetry_returns_final provider tries w res w' :
  fwFetchWithRetry provider tries w = (Normal res, w') ->
  retryable res = false /\ exists k, calls w' = S k /\ provider k = Resolves res.
Proof. destruct w as [c t]. apply retryFrom_result. Qed.

Lemma fwFetchWithRetry_returns_final_witness :
  retryable {| status := 404; text := "gone" |} = false
  /\ exists k,
       calls {| calls := 2; trace := [Fetch; Wait 300; Fetch] |} = S k /\
       scripted [{| status := 503; text := "busy" |}] {| status := 404; text := "gone" |} k
       = Resolves {| status := 404; text := "gone" |}.
Proof.
  apply (fwFetchWithRetry_returns_final
           (scripted [{| status := 503; text := "busy" |}]
              {| status := 404; text := "gone" |}) 3 start).
  reflexivity.
Defined.

Lemma retryFrom_rejected provider k :
  forall n i lastErr c t e,
    (forall j, (j < k)%nat -> exists res, provider (c + j)%nat = Resolves res /\ transient res) ->
    provider (c + k)%nat = Rejects e ->
    retryFrom provider (k + S n) i lastErr {| calls := c; trace := t |}
    = (Throw e, {| calls := S (c + k); trace := t ++ retries i k ++ [Fetch] |}).
Proof.
  induction k as [|k IH]; intros n i lastErr c t e H R.
  - rewrite Nat.add_0_r in R. cbn [Nat.add retries app]. rewrite retryFrom_step, R.
    now rewrite Nat.add_0_r.
  - destruct (H 0%nat ltac:(lia)) as (res & P & T). rewrite Nat.add_0_r in P.
    apply retryable_transient in T.
    cbn [Nat.add]. rewrite retryFrom_step, P, T.
    rewrite (IH n (S i) (Some (text res)) (S c) _ e).
    + cbn [retries]. rewrite <- !app_assoc. cbn [app]. do 2 f_equal. lia.
    + intros j Hj. destruct (H (S j) ltac:(lia)) as (r & Pr & Tr).
      exists r. split; [|exact Tr]. now rewrite <- Pr, Nat.add_succ_r.
    + now rewrite <- R, Nat.add_succ_r.
Qed.

(** X9.  When [fetch] rejects, after any number of retried answers, the
    transport throws what [fetch] threw, at once: it does not wait and
    does not call again. *)
Theorem fwFetchWithRetry_rejection provider tries k e :
  (k < tries)%nat ->
  (forall j, (j < k)%nat -> exists res, provider j = Resolves res /\ transient res) ->
  provider k = Rejects e ->
  fwFetchWithRetry provider tries start
  = (Throw e, {| calls := S k; trace := retries 0 k ++ [Fetch] |}).
Proof.
  intros L H R. unfold fwFetchWithRetry, start.
  replace tries with (k + S (tries - S k))%nat by lia.
  now rewrite (retryFrom_rejected provider k _ 0 None 0 [] e H R).
Qed.

Lemma fwFetchWithRetry_rejection_witness :
  fwFetchWithRetry Sample.unreachable 3 start
  = (Throw TypeError, {| calls := 2; trace := [Fetch; Wait 300; Fetch] |}).
Proof.
  apply (fwFetchWithRetry_rejection Sample.unreachable 3 1 TypeError).
  - lia.
  - intros j Hj. exists {| status := 503; text := "busy" |}.
    destruct j as [|j]; [|lia]. split; [reflexivity|]. right. cbn. lia.
  - reflexivity.
Defined.

(** X10.  When every attempt of a budget that is not zero is answered by
    a response to retry, the transport throws an [Error] whose message is
    the body of the last response; with a budget of zero it throws
    [Fireworks retry failed] without a call. *)
Theorem fwFetchWithRetry_message provider n last :
  (forall k, (k < S n)%nat -> exists res, provider k = Resolves res /\ transient res) ->
  provider n = Resolves last ->
  fwFetchWithRetry provider (S n) start
  = (Throw (Error (text last)), {| calls := S n; trace := retries 0 (S n) |})
  /\ forall w, fwFetchWithRetry provider 0 w = (Throw (Error "Fireworks retry failed"), w).
Proof.
  intros H L. split; [|reflexivity]. unfold fwFetchWithRetry, start.
  destruct (retryFrom_exhausts provider (S n) 0 None 0 [] H) as (message & R & M).
  rewrite R. rewrite (M last); [reflexivity | | lia].
  now replace (0 + S n - 1)%nat with n by lia.
Qed.

Lemma fwFetchWithRetry_message_witness :
  fwFetchWithRetry Sample.busy 3 start
  = (Throw (Error "slow down"),
     {| calls := 3; trace := [Fetch; Wait 300; Fetch; Wait 600; Fetch; Wait 1200] |})
  /\ forall w, fwFetchWithRetry Sample.busy 0 w = (Throw (Error "Fireworks retry failed"), w).
Proof.
  apply (fwFetchWithRetry_message Sample.busy 2 {| status := 429; text := "slow down" |}).
  - intros k Hk. exists {| status := 429; text := "slow down" |}.
    split; [|left; reflexivity].
    destruct k as [|[|[|k]]]; reflexivity.
  - reflexivity.
Defined.

(* ===================================================================== *)
(** ** The replies of the handler *)
(* ===================================================================== *)

Lemma accepted_iff env request :
  accepted env request <->
  exists req, JsonText.parse request = Some req /\ validPrompt req = true /\ hasKey env = true.
Proof.
  unfold accepted, validPrompt, hasKey. split.
  - intros (req & p & k & P & G & Hp & K & Hk). exists req. split; [exact P|].
    destruct req; try discriminate. simpl in G. injection G as G.
    now rewrite G, Hp, K, Hk.
  - intros (req & P & V & K). destruct req as [| | | | |ms]; try discriminate.
    destruct (lookup "prompt" ms) as [[| | |p| |]|] eqn:L; try discriminate.
    destruct (FIREWORKS_API_KEY env) as [k|] eqn:E; try discriminate.
    exists (JObj ms), p, k. simpl. rewrite L.
    repeat split; try assumption; now apply negb_true_iff.
Qed.

(** X11.  A request whose JSON body is not [null] and has no [prompt]
    that is a text and not empty is answered 400 [Missing prompt], and
    the provider is not called. *)
Theorem POST_missing_prompt_is_400 env provider request req w :
  JsonText.parse request = Some req ->
  req <> JNull ->
  validPrompt req = false ->
  POST env provider request w
  = (NextResponse_json (Failure "Missing prompt" NoExtra) 400, w).
Proof.
  intros P N V. unfold POST, POST_try, JSON_parse. rewrite P.
  unfold bind at 1, lift at 1.
  destruct req as [| | | | |ms]; try reflexivity; [now destruct N|].
  unfold validPrompt in V. cbn [get]. unfold bind at 1, lift at 1.
  destruct (lookup "prompt" ms) as [[| | |p| |]|]; try reflexivity.
  - now destruct b.
  - destruct n; reflexivity.
  - apply negb_false_iff in V. cbn. now rewrite V.
Qed.

Lemma POST_missing_prompt_is_400_witness :
  POST Sample.env Sample.busy (quoted "{'prompt':['dinner']}") start
  = (NextResponse_json (Failure "Missing prompt" NoExtra) 400, start).
Proof.
  apply (POST_missing_prompt_is_400 Sample.env Sample.busy (quoted "{'prompt':['dinner']}")
           (JObj [("prompt", JArr [JStr "dinner"])]) start).
  - vm_compute. reflexivity.
  - discriminate.
  - reflexivity.
Defined.

(** X12.  A request whose body is not JSON, or is the JSON [null], is
    answered 500 with the message of the error that reading it threw, not
    400; the provider is not called. *)
Theorem POST_unreadable_request_is_500 env provider request w :
  (JsonText.parse request = None ->
   POST env provider request w = (NextResponse_json (Caught SyntaxError) 500, w))
  /\ (JsonText.parse request = Some JNull ->
      POST env provider request w = (NextResponse_json (Caught TypeError) 500, w)).
Proof.
  split; intros P; unfold POST, POST_try, JSON_parse; now rewrite P.
Qed.

(** X13.  Without the credential a request with a prompt is answered 500
    [Missing FIREWORKS_API_KEY], and the provider is not called. *)
Theorem POST_missing_key_is_500 env provider request req w :
  JsonText.parse request = Some req ->
  validPrompt req = true ->
  hasKey env = false ->
  POST env provider request w
  = (NextResponse_json (Failure "Missing FIREWORKS_API_KEY" NoExtra) 500, w).
Proof.
  intros P V K. unfold POST, POST_try, JSON_parse. rewrite P.
  unfold bind at 1, lift at 1.
  destruct req as [| | | | |ms]; try discriminate.
  unfold validPrompt in V. cbn [get]. unfold bind at 1, lift at 1.
  destruct (lookup "prompt" ms) as [[| | |p| |]|]; try discriminate.
  unfold hasKey in K. cbn [truthy isString]. rewrite V, K. reflexivity.
Qed.

Lemma POST_missing_key_is_500_witness :
  POST Sample.noKey Sample.busy Sample.request start
  = (NextResponse_json (Failure "Missing FIREWORKS_API_KEY" NoExtra) 500, start).
Proof.
  apply (POST_missing_key_is_500 Sample.noKey Sample.busy Sample.request
           (JObj [("prompt", JStr "Give me dinner ideas")]) start).
  - vm_compute. reflexivity.
  - reflexivity.
  - reflexivity.
Defined.

(** X14.  A first answer of the provider that is neither 2xx nor to be
    retried is passed on as 502 [Fireworks error] with the body of the
    answer as details, after one call. *)
Theorem POST_provider_error_is_502 env provider request res :
  accepted env request ->
  provider 0%nat = Resolves res ->
  ok res = false -> retryable res = false ->
  POST env provider request start
  = (NextResponse_json (Failure "Fireworks error" (Details (text res))) 502,
     {| calls := 1; trace := [Fetch] |}).
Proof.
  intros A P O R.
  rewrite (POST_answers env provider request start res {| calls := 1; trace := [Fetch] |} A).
  - unfold fromResponse. now rewrite O.
  - unfold fwFetchWithRetry, start. now rewrite (retryFrom_returns _ _ _ _ _ _ _ P R).
Qed.

Lemma POST_provider_error_is_502_witness :
  POST Sample.env (scripted [] {| status := 401; text := "no such key" |})
    Sample.request start
  = (NextResponse_json (Failure "Fireworks error" (Details "no such key")) 502,
     {| calls := 1; trace := [Fetch] |}).
Proof.
  apply (POST_provider_error_is_502 Sample.env
           (scripted [] {| status := 401; text := "no such key" |}) Sample.request
           {| status := 401; text := "no such key" |}).
  - apply sample_accepted.
  - reflexivity.
  - reflexivity.
  - reflexivity.
Defined.

(** X15.  A 2xx answer of the provider whose body is not JSON, or whose
    completion is there and is neither [null] nor a text, is answered 500
    from the [catch] clause, not 502. *)
Theorem POST_malformed_envelope_is_500 env provider request w fwRes w' :
  accepted env request ->
  fwFetchWithRetry provider 3 w = (Normal fwRes, w') ->
  ok fwRes = true ->
  (JsonText.parse (text fwRes) = None ->
   POST env provider request w = (NextResponse_json (Caught SyntaxError) 500, w'))
  /\ (forall data v,
        JsonText.parse (text fwRes) = Some data ->
        completionAt data = Some v -> v <> JNull -> isText v = false ->
        POST env provider request w = (NextResponse_json (Caught TypeError) 500, w')).
Proof.
  intros A F O. rewrite (POST_answers _ _ _ _ _ _ A F).
  unfold fromResponse, JSON_parse. rewrite O. cbn [negb]. split.
  - now intros ->.
  - intros data v -> C N T. cbn [cbind]. unfold fromEnvelope, completionText. rewrite C.
    destruct v; try discriminate; try reflexivity. now destruct N.
Qed.

Lemma POST_malformed_envelope_is_500_witness :
  (JsonText.parse "Bad gateway" = None ->
   POST Sample.env (Sample.answering "Bad gateway") Sample.request start
   = (NextResponse_json (Caught SyntaxError) 500, Sample.once))
  /\ (forall data v,
        JsonText.parse "Bad gateway" = Some data ->
        completionAt data = Some v -> v <> JNull -> isText v = false ->
        POST Sample.env (Sample.answering "Bad gateway") Sample.request start
        = (NextResponse_json (Caught TypeError) 500, Sample.once)).
Proof.
  apply (POST_malformed_envelope_is_500 Sample.env (Sample.answering "Bad gateway")
           Sample.request start {| status := 200; text := "Bad gateway" |} Sample.once).
  - apply sample_accepted.
  - reflexivity.
  - reflexivity.
Defined.

(** X16.  A model output that is not [null] and whose [mode] is neither
    [landing] nor [recipe] is answered 502 [Unknown mode] with the output
    as [parsed]: numbers, texts and arrays too. *)
Theorem unknown_mode_is_502 parsed :
  parsed <> JNull ->
  strictEq (optGet (Some parsed) "mode") "landing" = false ->
  strictEq (optGet (Some parsed) "mode") "recipe" = false ->
  validate parsed
  = Normal (NextResponse_json (Failure "Unknown mode" (Parsed parsed)) 502).
Proof.
  intros N L R. destruct parsed; try reflexivity; [now destruct N|].
  simpl in L, R. unfold validate. now rewrite L, R.
Qed.

Lemma unknown_mode_is_502_witness :
  validate (JObj [("mode", JStr "Recipe")])
  = Normal (NextResponse_json
              (Failure "Unknown mode" (Parsed (JObj [("mode", JStr "Recipe")]))) 502).
Proof.
  apply (unknown_mode_is_502 (JObj [("mode", JStr "Recipe")])).
  - discriminate.
  - reflexivity.
  - reflexivity.
Defined.

(** X17.  An output of mode [landing] whose [intro] is no text or whose
    [sections] is no array is answered 502 [Landing shape invalid]; an
    output of mode [recipe] whose [title] is no text or whose
    [ingredients] or [steps] is no array is answered 502 [Recipe shape
    invalid]. *)
Theorem invalid_shape_is_502 ms :
  (strictEq (lookup "mode" ms) "landing" = true ->
   isString (lookup "intro" ms) = false \/
   (forall sections, lookup "sections" ms <> Some (JArr sections)) ->
   validate (JObj ms)
   = Normal (NextResponse_json (Failure "Landing shape invalid" (Parsed (JObj ms))) 502))
  /\ (strictEq (lookup "mode" ms) "recipe" = true ->
      isString (lookup "title" ms) = false \/
      (forall l, lookup "ingredients" ms <> Some (JArr l)) \/
      (forall l, lookup "steps" ms <> Some (JArr l)) ->
      validate (JObj ms)
      = Normal (NextResponse_json (Failure "Recipe shape invalid" (Parsed (JObj ms))) 502)).
Proof.
  split; intros M H.
  - unfold validate, landing. rewrite M.
    destruct (lookup "intro" ms) as [[| | |x| |]|]; try reflexivity.
    destruct H as [H|H]; [discriminate|].
    destruct (lookup "sections" ms) as [[| | | |l|]|]; try reflexivity.
    now destruct (H l).
  - rewrite (validate_recipe _ M). unfold recipe.
    destruct (lookup "title" ms) as [[| | |x| |]|];
      try (destruct (lookup "ingredients" ms) as [[| | | | |]|]; reflexivity).
    destruct (lookup "ingredients" ms) as [[| | | |l|]|]; try reflexivity.
    destruct (lookup "steps" ms) as [[| | | |l'|]|]; try reflexivity.
    destruct H as [H|[H|H]]; [discriminate | now destruct (H l) | now destruct (H l')].
Qed.

(** The replies of the validation: a payload with status 200 or one of
    the route's failures with status 502. *)
Lemma validate_replies parsed r :
  validate parsed = Normal r ->
  (exists p, r = success p) \/ (exists e x, r = NextResponse_json (Failure e x) 502).
Proof.
  unfold validate. destruct parsed; try discriminate;
    try (intros H; inv H; right; eexists _, _; reflexivity).
  destruct (strictEq (lookup "mode" members) "landing").
  - unfold landing.
    destruct (lookup "intro" members) as [[| | |x| |]|];
      try (intros H; inv H; right; eexists _, _; reflexivity).
    destruct (lookup "sections" members) as [[| | | |l|]|];
      try (intros H; inv H; right; eexists _, _; reflexivity).
    destruct (mapM normalizeSection (firstn 8 l)); cbn [cbind]; [|discriminate].
    intros H; inv H. left. eexists; reflexivity.
  - destruct (strictEq (lookup "mode" members) "recipe");
      [|intros H; inv H; right; eexists _, _; reflexivity].
    unfold recipe.
    destruct (lookup "title" members) as [[| | |x| |]|];
      try (destruct (lookup "ingredients" members) as [[| | | | |]|];
           intros H; inv H; right; eexists _, _; reflexivity).
    destruct (lookup "ingredients" members) as [[| | | |l|]|];
      try (intros H; inv H; right; eexists _, _; reflexivity).
    destruct (lookup "steps" members) as [[| | | |l'|]|];
      try (intros H; inv H; right; eexists _, _; reflexivity).
    destruct (mapM normalizeGroup l); cbn [cbind]; [|discriminate].
    destruct (mapM trimmed l'); cbn [cbind]; [|discriminate].
    destruct (trimIntro _); cbn [cbind]; [|discriminate].
    destruct (trimmedList _); cbn [cbind]; [|discriminate].
    destruct (trimmedList _); cbn [cbind]; [|discriminate].
    intros H; inv H. left. eexists; reflexivity.
Qed.

(** A payload has the mode of the branch that built it. *)
Lemma payload_mode parsed p :
  validate parsed = Normal (success p) ->
  strictEq (optGet (Some p) "mode") "landing" = true \/
  strictEq (optGet (Some p) "mode") "recipe" = true.
Proof.
  intros H. apply validate_success in H as (ms & -> & [[M H] | [M H]]).
  - apply landing_inv in H as (sections & out & _ & _ & _ & ->).
    left. cbn [optGet]. now rewrite lookup_set_other.
  - destruct p as [| | | | |ms'];
      try (apply recipe_inv in H; now destruct H as (?&?&?&?&?&?&?&?&?&?&?&?&?&?&?)).
    right. cbn [optGet]. now rewrite (recipe_frame _ _ _ "mode" H eq_refl).
Qed.

Lemma fromResponse_replies fwRes r :
  fromResponse fwRes = Normal r ->
  (exists p, r = success p /\
             (strictEq (optGet (Some p) "mode") "landing" = true \/
              strictEq (optGet (Some p) "mode") "recipe" = true))
  \/ (exists e x, r = NextResponse_json (Failure e x) 502).
Proof.
  unfold fromResponse. destruct (ok fwRes); cbn [negb];
    [|intros H; inv H; right; eexists _, _; reflexivity].
  destruct (JSON_parse (text fwRes)) as [data|]; cbn [cbind]; [|discriminate].
  unfold fromEnvelope. destruct (extract (completionText data)) as [raw|]; cbn [cbind];
    [|discriminate].
  destruct (JsonText.parse raw) as [parsed|];
    [|intros H; inv H; right; eexists _, _; reflexivity].
  intros H. destruct (validate_replies _ _ H) as [[p ->] | F]; [|now right].
  left. exists p. split; [reflexivity|]. eapply payload_mode, H.
Qed.

(** The [try] block, step by step. *)
Lemma POST_try_cases env provider request w :
  POST_try env provider request w
  = match JsonText.parse request with
    | None => (Throw SyntaxError, w)
    | Some req =>
        match get req "prompt" with
        | Throw e => (Throw e, w)
        | Normal prompt =>
            if negb (truthy prompt) || negb (isString prompt)
            then (Normal (NextResponse_json (Failure "Missing prompt" NoExtra) 400), w)
            else if negb (hasKey env)
            then (Normal (NextResponse_json (Failure "Missing FIREWORKS_API_KEY" NoExtra) 500), w)
            else match fwFetchWithRetry provider 3 w with
                 | (Normal fwRes, w') => (fromResponse fwRes, w')
                 | (Throw e, w') => (Throw e, w')
                 end
        end
    end.
Proof.
  unfold POST_try, JSON_parse, hasKey.
  destruct (JsonText.parse request) as [req|]; [|reflexivity].
  unfold bind at 1, lift at 1.
  destruct (get req "prompt") as [prompt|]; [|reflexivity].
  unfold bind at 1, lift at 1.
  destruct (negb (truthy prompt) || negb (isString prompt)); [reflexivity|].
  destruct (negb _); [reflexivity|].
  unfold bind, lift. now destruct (fwFetchWithRetry provider 3 w) as [[fwRes|e] w'].
Qed.

(** X18.  Every reply of the handler is one of: 200 with a payload of
    mode [landing] or [recipe]; 400 [Missing prompt]; 502 with one of the
    route's errors; 500 [Missing FIREWORKS_API_KEY] or 500 with the
    message of a caught error. *)
Theorem POST_statuses env provider request w :
  exists r w',
    POST env provider request w = (r, w') /\
    ((httpStatus r = 200 /\
      exists p, body r = Payload p /\
                (strictEq (optGet (Some p) "mode") "landing" = true \/
                 strictEq (optGet (Some p) "mode") "recipe" = true))
     \/ (httpStatus r = 400 /\ body r = Failure "Missing prompt" NoExtra)
     \/ (httpStatus r = 502 /\ exists e x, body r = Failure e x)
     \/ (httpStatus r = 500 /\
         (body r = Failure "Missing FIREWORKS_API_KEY" NoExtra \/
          exists err, body r = Caught err))).
Proof.
  unfold POST. rewrite POST_try_cases.
  assert (C : forall err (w' : World),
             exists r w'',
               (NextResponse_json (Caught err) 500, w') = (r, w'') /\
               ((httpStatus r = 200 /\
                 exists p, body r = Payload p /\
                           (strictEq (optGet (Some p) "mode") "landing" = true \/
                            strictEq (optGet (Some p) "mode") "recipe" = true))
                \/ (httpStatus r = 400 /\ body r = Failure "Missing prompt" NoExtra)
                \/ (httpStatus r = 502 /\ exists e x, body r = Failure e x)
                \/ (httpStatus r = 500 /\
                    (body r = Failure "Missing FIREWORKS_API_KEY" NoExtra \/
                     exists e, body r = Caught e)))).
  { intros err w'. eexists _, _. split; [reflexivity|]. do 3 right.
    split; [reflexivity|]. right. now exists err. }
  destruct (JsonText.parse request) as [req|]; [|apply C].
  destruct (get req "prompt") as [prompt|]; [|apply C].
  destruct (negb (truthy prompt) || negb (isString prompt)).
  { eexists _, _. split; [reflexivity|]. right. left. now split. }
  destruct (negb (hasKey env)).
  { eexists _, _. split; [reflexivity|]. do 3 right. split; [reflexivity|]. now left. }
  destruct (fwFetchWithRetry provider 3 w) as [[fwRes|err] w']; [|apply C].
  destruct (fromResponse fwRes) as [r|err] eqn:F; [|apply C].
  exists r, w'. split; [reflexivity|].
  destruct (fromResponse_replies _ _ F) as [(p & -> & M) | (e & x & ->)].
  - left. split; [reflexivity|]. now exists p.
  - right. right. left. split; [reflexivity|]. now exists e, x.
Qed.

(** X19.  Whatever the reply, the handler calls the provider at most three
    times and waits at most 2100 ms; a request answered 400 and a handler
    without the credential leave the world as it was. *)
Theorem POST_effects env provider request w :
  exists r w',
    POST env provider request w = (r, w') /\
    (calls w <= calls w' <= calls w + 3)%nat /\
    waited (trace w) <= waited (trace w') <= waited (trace w) + 2100 /\
    (httpStatus r = 400 -> w' = w) /\
    (hasKey env = false -> w' = w).
Proof.
  unfold POST. rewrite POST_try_cases.
  assert (Same : forall r,
             exists r' w',
               (r, w) = (r', w') /\
               (calls w <= calls w' <= calls w + 3)%nat /\
               waited (trace w) <= waited (trace w') <= waited (trace w) + 2100 /\
               (httpStatus r' = 400 -> w' = w) /\ (hasKey env = false -> w' = w)).
  { intros r. exists r, w. repeat split; lia. }
  destruct (JsonText.parse request) as [req|]; [|apply Same].
  destruct (get req "prompt") as [prompt|]; [|apply Same].
  destruct (negb (truthy prompt) || negb (isString prompt)); [apply Same|].
  destruct (hasKey env) eqn:K; cbn [negb]; [|apply Same].
  destruct (fwFetchWithRetry provider 3 w) as [out w'] eqn:F.
  destruct (fwFetchWithRetry_bounds _ _ _ _ _ F) as (u & Tr & Ca & Fe & Wa).
  change (300 * (2 ^ Z.of_nat 3 - 1)) with 2100 in Wa.
  assert (B : (calls w <= calls w' <= calls w + 3)%nat /\
              waited (trace w) <= waited (trace w') <= waited (trace w) + 2100).
  { rewrite Tr, waited_app. lia. }
  destruct out as [fwRes|err].
  - destruct (fromResponse fwRes) as [r|err] eqn:R.
    + exists r, w'. split; [reflexivity|]. split; [apply B|]. split; [apply B|].
      split; [|discriminate].
      destruct (fromResponse_replies _ _ R) as [(p & -> & _) | (e & x & ->)]; discriminate.
    + eexists _, w'. split; [reflexivity|]. split; [apply B|]. split; [apply B|].
      split; discriminate.
  - eexists _, w'. split; [reflexivity|]. split; [apply B|]. split; [apply B|].
    split; discriminate.
Qed.

(* ===================================================================== *)
(** ** What the validation throws *)
(* ===================================================================== *)

(** Induction on JSON values, through the elements of arrays and the
    values of objects. *)
Section JsonInduction.
Variable P : json -> Prop.
Hypothesis P_null : P JNull.
Hypothesis P_bool : forall b, P (JBool b).
Hypothesis P_num : forall n, P (JNum n).
Hypothesis P_str : forall s, P (JStr s).
Hypothesis P_arr : forall l, Forall P l -> P (JArr l).
Hypothesis P_obj : forall ms, Forall (fun kv => P (snd kv)) ms -> P (JObj ms).

Fixpoint json_nested_ind (v : json) : P v :=
  match v with
  | JNull => P_null
  | JBool b => P_bool b
  | JNum n => P_num n
  | JStr s => P_str s
  | JArr l =>
      P_arr l ((fix elements (l : list json) : Forall P l :=
                  match l with
                  | [] => Forall_nil P
                  | x :: rest => Forall_cons x (json_nested_ind x) (elements rest)
                  end) l)
  | JObj ms =>
      P_obj ms ((fix members (ms : list (string * json))
                   : Forall (fun kv => P (snd kv)) ms :=
                   match ms with
                   | [] => Forall_nil _
                   | kv :: rest =>
                       Forall_cons kv (json_nested_ind (snd kv)) (members rest)
                   end) ms)
  end.
End JsonInduction.

(** [String(v)] throws nothing but a [TypeError]. *)
Lemma ToString_array l :
  ToString (JArr l)
  = match l with
    | [] => Normal ""
    | x :: rest =>
        s <- match x with JNull => Normal "" | _ => ToString x end ;;
        match rest with
        | [] => Normal s
        | _ :: _ => r <- ToString (JArr rest) ;; Normal (s ++ "," ++ r)
        end
    end.
Proof. now destruct l. Qed.

Lemma ToString_throws v : forall e, ToString v = Throw e -> e = TypeError.
Proof.
  induction v as [| b | n | s | l IH | ms _] using json_nested_ind; intros e;
    try discriminate.
  - now destruct b.
  - induction IH as [|x rest Hx _ IHrest]; [discriminate|].
    rewrite ToString_array.
    destruct (match x with JNull => Normal "" | _ => ToString x end) as [s|e'] eqn:X;
      cbn [cbind].
    + destruct rest as [|y rest']; [discriminate|].
      destruct (ToString (JArr (y :: rest'))) as [r|e''] eqn:J; cbn [cbind]; [discriminate|].
      intros H. inv H. now apply IHrest.
    + intros H. inv H. destruct x; try discriminate; now apply Hx.
  - cbn [ToString]. destruct (lookup "toString" ms); [|discriminate]. intros H. now inv H.
Qed.

Lemma mapM_throws_only {A B} (f : A -> completion B) err xs e :
  (forall x e, f x = Throw e -> e = err) -> mapM f xs = Throw e -> e = err.
Proof.
  intros F. induction xs as [|x xs IH]; cbn [mapM]; [discriminate|].
  destruct (f x) as [y|e'] eqn:Fx; cbn [cbind].
  - destruct (mapM f xs); cbn [cbind]; [discriminate|]. intros H. inv H. now apply IH.
  - intros H. inv H. eapply F, Fx.
Qed.

Lemma trimmed_throws v e : trimmed v = Throw e -> e = TypeError.
Proof.
  unfold trimmed. destruct (ToString v) eqn:T; cbn [cbind]; [discriminate|].
  intros H. inv H. eapply ToString_throws, T.
Qed.

Lemma normalizeGroup_throws g e : normalizeGroup g = Throw e -> e = TypeError.
Proof.
  unfold normalizeGroup. destruct g; cbn [get cbind]; try discriminate;
    try (intros H; now inv H).
  destruct (lookup "group" members) as [v|]; cbn [cbind].
  - destruct (truthy (Some v)); cbn [cbind].
    + destruct (trimmed v) eqn:T; cbn [cbind].
      * destruct (lookup "items" members) as [[| | | |l|]|]; cbn [cbind]; try discriminate.
        destruct (mapM trimmed l) eqn:M; cbn [cbind]; [discriminate|].
        intros H. inv H. eapply mapM_throws_only; [apply trimmed_throws | exact M].
      * intros H. inv H. eapply trimmed_throws, T.
    + destruct (lookup "items" members) as [[| | | |l|]|]; cbn [cbind]; try discriminate.
      destruct (mapM trimmed l) eqn:M; cbn [cbind]; [discriminate|].
      intros H. inv H. eapply mapM_throws_only; [apply trimmed_throws | exact M].
  - destruct (lookup "items" members) as [[| | | |l|]|]; cbn [cbind]; try discriminate.
    destruct (mapM trimmed l) eqn:M; cbn [cbind]; [discriminate|].
    intros H. inv H. eapply mapM_throws_only; [apply trimmed_throws | exact M].
Qed.

Lemma trimmedList_throws v e : trimmedList v = Throw e -> e = TypeError.
Proof.
  unfold trimmedList. destruct (nullish v (JArr [])); try (intros H; now inv H).
  destruct (mapM trimmed elements) eqn:M; cbn [cbind]; [discriminate|].
  intros H. inv H. eapply mapM_throws_only; [apply trimmed_throws | exact M].
Qed.

Lemma trimIntro_throws ms e : trimIntro ms = Throw e -> e = TypeError.
Proof.
  unfold trimIntro. destruct (lookup "intro" ms) as [v|]; [|discriminate].
  destruct (truthy (Some v)); [|discriminate].
  destruct (trimmed v) eqn:T; cbn [cbind]; [discriminate|].
  intros H. inv H. eapply trimmed_throws, T.
Qed.

Lemma validate_throws parsed e :
  validate parsed = Throw e -> e = TypeError.
Proof.
  unfold validate. destruct parsed; try discriminate; [intros H; now inv H|].
  destruct (strictEq (lookup "mode" members) "landing").
  - unfold landing.
    destruct (lookup "intro" members) as [[| | |x| |]|]; try discriminate.
    destruct (lookup "sections" members) as [[| | | |l|]|]; try discriminate.
    destruct (mapM normalizeSection (firstn 8 l)) eqn:M; cbn [cbind]; [discriminate|].
    intros H. inv H. eapply mapM_throws_only; [apply normalizeSection_throws | exact M].
  - destruct (strictEq (lookup "mode" members) "recipe"); [|discriminate].
    unfold recipe.
    destruct (lookup "title" members) as [[| | |x| |]|];
      try (destruct (lookup "ingredients" members) as [[| | | | |]|]; discriminate).
    destruct (lookup "ingredients" members) as [[| | | |l|]|]; try discriminate.
    destruct (lookup "steps" members) as [[| | | |l'|]|]; try discriminate.
    destruct (mapM normalizeGroup l) eqn:G; cbn [cbind].
    2:{ intros H. inv H. eapply mapM_throws_only; [apply normalizeGroup_throws | exact G]. }
    destruct (mapM trimmed l') eqn:X; cbn [cbind].
    2:{ intros H. inv H. eapply mapM_throws_only; [apply trimmed_throws | exact X]. }
    destruct (trimIntro _) eqn:I; cbn [cbind].
    2:{ intros H. inv H. eapply trimIntro_throws, I. }
    destruct (trimmedList _) eqn:U; cbn [cbind].
    2:{ intros H. inv H. eapply trimmedList_throws, U. }
    match goal with |- context [trimmedList ?a] => destruct (trimmedList a) eqn:S end;
      cbn [cbind]; [discriminate|].
    intros H. inv H. eapply trimmedList_throws, S.
Qed.

Lemma fromResponse_throws fwRes e :
  fromResponse fwRes = Throw e -> e = SyntaxError \/ e = TypeError.
Proof.
  unfold fromResponse. destruct (ok fwRes); cbn [negb]; [|discriminate].
  unfold JSON_parse. destruct (JsonText.parse (text fwRes)) as [data|]; cbn [cbind].
  - unfold fromEnvelope, extract.
    destruct (completionText data); cbn [cbind]; try (intros H; inv H; now right).
    destruct (JsonText.parse _) as [parsed|]; [|discriminate].
    intros H. right. eapply validate_throws, H.
  - intros H. inv H. now left.
Qed.

(** X20.  The error of a 500 reply from the [catch] clause is a
    [SyntaxError], a [TypeError], or what the transport threw for an
    accepted request: reading the request and the model's output throws
    nothing else, so an [Error] with a message comes from the transport. *)
Theorem caught_errors env provider request w r w' err :
  POST env provider request w = (r, w') -> body r = Caught err ->
  err = SyntaxError \/ err = TypeError \/
  (accepted env request /\ fwFetchWithRetry provider 3 w = (Throw err, w')).
Proof.
  unfold POST. rewrite POST_try_cases.
  destruct (JsonText.parse request) as [req|] eqn:P.
  2:{ intros H B. inv H. inv B. now left. }
  destruct (get req "prompt") as [prompt|e] eqn:G.
  2:{ intros H B. inv H. inv B. right. left.
      destruct req; try discriminate. cbn in G. now inv G. }
  destruct (negb (truthy prompt) || negb (isString prompt)) eqn:V.
  { intros H B. inv H. discriminate. }
  destruct (hasKey env) eqn:K; cbn [negb].
  2:{ intros H B. inv H. discriminate. }
  assert (A : accepted env request).
  { apply accepted_iff. exists req. split; [exact P|]. split; [|exact K].
    apply orb_false_iff in V as [T S]. apply negb_false_iff in T, S.
    destruct req; try discriminate; cbn in G; inv G; try discriminate.
    unfold validPrompt. destruct (lookup "prompt" members) as [[| | |p| |]|];
      try discriminate. exact T. }
  destruct (fwFetchWithRetry provider 3 w) as [[fwRes|e] w''] eqn:F.
  - destruct (fromResponse fwRes) as [r'|e] eqn:R.
    + intros H B. inv H.
      destruct (fromResponse_replies _ _ R) as [(p & -> & _) | (e & x & ->)]; discriminate.
    + intros H B. inv H. inv B.
      destruct (fromResponse_throws _ _ R) as [-> | ->]; [now left | right; now left].
  - intros H B. inv H. inv B. right. right. now split.
Qed.

Lemma caught_errors_witness :
  Error "slow down" = SyntaxError \/ Error "slow down" = TypeError \/
  (accepted Sample.env Sample.request /\
   fwFetchWithRetry Sample.busy 3 start
   = (Throw (Error "slow down"),
      {| calls := 3; trace := [Fetch; Wait 300; Fetch; Wait 600; Fetch; Wait 1200] |})).
Proof.
  apply (caught_errors Sample.env Sample.busy Sample.request start
           (NextResponse_json (Caught (Error "slow down")) 500)).
  - vm_compute. reflexivity.
  - reflexivity.
Defined.

Lemma mapM_In_throws {A B} (f : A -> completion B) xs x e :
  In x xs -> f x = Throw e -> exists e', mapM f xs = Throw e'.
Proof.
  induction xs as [|y xs IH]; [easy|]. intros [->|I] Fx; cbn [mapM].
  - exists e. now rewrite Fx.
  - destruct (f y) as [r|e1]; cbn [cbind]; [|now exists e1].
    destruct (IH I Fx) as [e' ->]. now exists e'.
Qed.

Lemma trimmedList_not_list v : listOrAbsent v = false -> trimmedList v = Throw TypeError.
Proof.
  unfold listOrAbsent, trimmedList. now destruct (nullish v (JArr [])).
Qed.

Lemma validate_only_type_error parsed :
  (exists e, validate parsed = Throw e) -> validate parsed = Throw TypeError.
Proof. intros [e H]. now rewrite H, (validate_throws _ _ H). Qed.

Lemma validate_recipe_shaped ms title ingredients steps :
  strictEq (lookup "mode" ms) "recipe" = true ->
  lookup "title" ms = Some (JStr title) ->
  lookup "ingredients" ms = Some (JArr ingredients) ->
  lookup "steps" ms = Some (JArr steps) ->
  validate (JObj ms)
  = (groups <- mapM normalizeGroup ingredients ;;
     xs <- mapM trimmed steps ;;
     ms4 <- trimIntro (set "steps" (JArr (map JStr (filterBoolean xs)))
                         (set "ingredients" (JArr groups)
                            (set "title" (JStr (trim title)) ms))) ;;
     used <- trimmedList (lookup "used_ingredients" ms4) ;;
     suggested <- trimmedList
                    (lookup "suggested_additions" (set "used_ingredients" used ms4)) ;;
     Normal (success (JObj (set "suggested_additions" suggested
                              (set "used_ingredients" used ms4))))).
Proof.
  intros M T I S. unfold validate.
  rewrite (strictEq_recipe_not_landing _ M), M. unfold recipe. now rewrite T, I, S.
Qed.

(** X21.  A recipe that passes the shape check and has [null] among its
    ingredient groups is not answered [Recipe shape invalid]: the
    validation throws a [TypeError], which the handler answers 500. *)
Theorem recipe_null_group_is_a_type_error ms title ingredients steps :
  strictEq (lookup "mode" ms) "recipe" = true ->
  lookup "title" ms = Some (JStr title) ->
  lookup "ingredients" ms = Some (JArr ingredients) ->
  lookup "steps" ms = Some (JArr steps) ->
  In JNull ingredients ->
  validate (JObj ms) = Throw TypeError.
Proof.
  intros M T I S N. apply validate_only_type_error.
  rewrite (validate_recipe_shaped _ _ _ _ M T I S).
  destruct (mapM_In_throws normalizeGroup _ _ TypeError N eq_refl) as [e' ->].
  now exists e'.
Qed.

Lemma recipe_null_group_is_a_type_error_witness :
  validate (JObj Sample.nullGroupRecipe) = Throw TypeError.
Proof.
  apply (recipe_null_group_is_a_type_error Sample.nullGroupRecipe "Toast"
           [JObj [("items", JArr [JStr "bread"])]; JNull] [JStr "Toast."]).
  - reflexivity.
  - reflexivity.
  - reflexivity.
  - reflexivity.
  - right. left. reflexivity.
Defined.

(** X22.  A recipe that passes the shape check and whose
    [used_ingredients] or [suggested_additions] is there, not [null] and
    no array is not answered [Recipe shape invalid]: the validation
    throws a [TypeError], which the handler answers 500. *)
Theorem recipe_list_not_array_is_a_type_error ms title ingredients steps :
  strictEq (lookup "mode" ms) "recipe" = true ->
  lookup "title" ms = Some (JStr title) ->
  lookup "ingredients" ms = Some (JArr ingredients) ->
  lookup "steps" ms = Some (JArr steps) ->
  listOrAbsent (lookup "used_ingredients" ms) = false \/
  listOrAbsent (lookup "suggested_additions" ms) = false ->
  validate (JObj ms) = Throw TypeError.
Proof.
  intros M T I S L. apply validate_only_type_error.
  rewrite (validate_recipe_shaped _ _ _ _ M T I S).
  destruct (mapM normalizeGroup ingredients) as [groups|e1]; cbn [cbind]; [|now exists e1].
  destruct (mapM trimmed steps) as [xs|e2]; cbn [cbind]; [|now exists e2].
  destruct (trimIntro _) as [ms4|e3] eqn:E; cbn [cbind]; [|now exists e3].
  assert (U : lookup "used_ingredients" ms4 = lookup "used_ingredients" ms).
  { rewrite (trimIntro_other _ _ _ E) by reflexivity. now through_sets. }
  assert (G : lookup "suggested_additions" ms4 = lookup "suggested_additions" ms).
  { rewrite (trimIntro_other _ _ _ E) by reflexivity. now through_sets. }
  destruct (trimmedList (lookup "used_ingredients" ms4)) as [used|e4] eqn:D; cbn [cbind];
    [|now exists e4].
  destruct L as [L|L].
  - rewrite U, (trimmedList_not_list _ L) in D. discriminate.
  - rewrite lookup_set_other by reflexivity. rewrite G, (trimmedList_not_list _ L).
    now exists TypeError.
Qed.

Lemma recipe_list_not_array_is_a_type_error_witness :
  validate (JObj Sample.usedTextRecipe) = Throw TypeError.
Proof.
  apply (recipe_list_not_array_is_a_type_error Sample.usedTextRecipe "Toast"
           [] [JStr "Toast."]).
  - reflexivity.
  - reflexivity.
  - reflexivity.
  - reflexivity.
  - left. reflexivity.
Defined.

(* ===================================================================== *)
(** ** Payloads and the extraction step *)
(* ===================================================================== *)

(** X23.  The payload of a landing has as many sections as the output,
    up to eight: none is dropped when there are eight or fewer. *)
Theorem landing_section_count ms sections p :
  landingShape ms sections ->
  validate (JObj ms) = Normal (success p) ->
  exists out,
    p = JObj (set "sections" (JArr out) ms) /\
    length out = min 8 (length sections).
Proof.
  intros L H. rewrite (validate_landing _ _ L) in H.
  destruct (mapM normalizeSection (firstn 8 sections)) as [out|] eqn:M; cbn [cbind] in H;
    [|discriminate].
  inv H. exists out. split; [reflexivity|].
  now rewrite (mapM_length _ _ _ M), length_firstn.
Qed.

Lemma landing_section_count_witness :
  exists p out,
    validate (JObj Sample.soupsLanding) = Normal (success p) /\
    p = JObj (set "sections" (JArr out) Sample.soupsLanding) /\
    length out = 2%nat.
Proof.
  eexists.
  assert (V : validate (JObj Sample.soupsLanding) = Normal (success _))
    by (vm_compute; reflexivity).
  assert (L : landingShape Sample.soupsLanding Sample.soups) by (repeat split).
  destruct (landing_section_count Sample.soupsLanding Sample.soups _ L V) as (out & E & N).
  exists out. repeat split; assumption.
Defined.

Lemma mapM_trimmed_map xs : mapM trimmed (map JStr xs) = Normal (map trim xs).
Proof.
  induction xs as [|x xs IH]; cbn [map mapM]; [reflexivity|].
  unfold trimmed at 1. cbn [ToString cbind]. now rewrite IH.
Qed.

(** X24.  The steps of a recipe payload are the texts of the output's
    steps, trimmed, without those that are empty after trimming, in the
    order of the output. *)
Theorem recipe_steps_in_order ms xs p :
  strictEq (lookup "mode" ms) "recipe" = true ->
  lookup "steps" ms = Some (JArr (map JStr xs)) ->
  validate (JObj ms) = Normal (success p) ->
  optGet (Some p) "steps" = Some (JArr (map JStr (filterBoolean (map trim xs)))).
Proof.
  intros M S H. rewrite (validate_recipe _ M) in H.
  apply recipe_run in H
    as (title & ingredients & steps & groups & ys & ms4 & used & suggested
        & T & G & St & Gr & X & I & U & Sg & ->).
  cbn [optGet]. through_sets.
  rewrite (trimIntro_other _ _ "steps" I eq_refl). through_sets.
  rewrite S in St. inv St. rewrite mapM_trimmed_map in X. now inv X.
Qed.

Lemma recipe_steps_in_order_witness :
  exists p,
    validate (JObj Sample.sparseRecipe) = Normal (success p) /\
    optGet (Some p) "steps" = Some (JArr [JStr "Slice."; JStr "Toast."]).
Proof.
  eexists.
  assert (V : validate (JObj Sample.sparseRecipe) = Normal (success _))
    by (vm_compute; reflexivity).
  split; [exact V|].
  apply (recipe_steps_in_order Sample.sparseRecipe [" Slice. "; "  "; "Toast."] _
           eq_refl eq_refl V).
Defined.

(** X25.  A recipe payload always has the two lists [used_ingredients]
    and [suggested_additions]: each is the empty array when the output
    has [null] there or nothing. *)
Theorem recipe_list_defaults ms p :
  strictEq (lookup "mode" ms) "recipe" = true ->
  validate (JObj ms) = Normal (success p) ->
  (nullOrAbsent (lookup "used_ingredients" ms) = true ->
   optGet (Some p) "used_ingredients" = Some (JArr []))
  /\ (nullOrAbsent (lookup "suggested_additions" ms) = true ->
      optGet (Some p) "suggested_additions" = Some (JArr []))
  /\ exists used suggested,
       optGet (Some p) "used_ingredients" = Some (JArr used) /\
       optGet (Some p) "suggested_additions" = Some (JArr suggested).
Proof.
  intros M H. rewrite (validate_recipe _ M) in H.
  apply recipe_run in H
    as (title & ingredients & steps & groups & ys & ms4 & used & suggested
        & T & G & St & Gr & X & I & U & Sg & ->).
  rewrite lookup_set_other in Sg by reflexivity.
  rewrite (trimIntro_other _ _ "used_ingredients" I eq_refl) in U.
  rewrite (trimIntro_other _ _ "suggested_additions" I eq_refl) in Sg.
  rewrite !lookup_set_other in U, Sg by reflexivity.
  cbn [optGet]. through_sets. split; [|split].
  - intros N. unfold trimmedList in U.
    destruct (lookup "used_ingredients" ms) as [[| | | | |]|]; try discriminate;
      cbn in U; now inv U.
  - intros N. unfold trimmedList in Sg.
    destruct (lookup "suggested_additions" ms) as [[| | | | |]|]; try discriminate;
      cbn in Sg; now inv Sg.
  - unfold trimmedList in U, Sg.
    destruct (nullish (lookup "used_ingredients" ms) (JArr [])) as [| | | |l|];
      try discriminate.
    destruct (nullish (lookup "suggested_additions" ms) (JArr [])) as [| | | |l'|];
      try discriminate.
    destruct (mapM trimmed l); cbn [cbind] in U; [|discriminate].
    destruct (mapM trimmed l'); cbn [cbind] in Sg; [|discriminate].
    inv U. inv Sg. now eexists _, _.
Qed.

Lemma recipe_list_defaults_witness :
  exists p,
    validate (JObj Sample.sparseRecipe) = Normal (success p) /\
    optGet (Some p) "used_ingredients" = Some (JArr []) /\
    optGet (Some p) "suggested_additions" = Some (JArr []).
Proof.
  eexists.
  assert (V : validate (JObj Sample.sparseRecipe) = Normal (success _))
    by (vm_compute; reflexivity).
  destruct (recipe_list_defaults Sample.sparseRecipe _ eq_refl V) as (U & S & _).
  split; [exact V|]. split; [exact (U eq_refl) | exact (S eq_refl)].
Defined.

(** X26.  The items of a normalized ingredient group are the texts of the
    group's items, trimmed, without those that are empty after trimming,
    in their order. *)
Theorem group_items_in_order gm xs o :
  lookup "items" gm = Some (JArr (map JStr xs)) ->
  normalizeGroup (JObj gm) = Normal o ->
  optGet (Some o) "items" = Some (JArr (map JStr (filterBoolean (map trim xs)))).
Proof.
  intros I. unfold normalizeGroup. cbn [get cbind]. rewrite I, mapM_trimmed_map. cbn [cbind].
  destruct (lookup "group" gm) as [v|]; cbn [cbind].
  - destruct (truthy (Some v)); cbn [cbind].
    + destruct (trimmed v); cbn [cbind]; [|discriminate]. intros H. now inv H.
    + intros H. now inv H.
  - intros H. now inv H.
Qed.

Lemma group_items_in_order_witness :
  optGet (Some (JObj [("items", JArr [JStr "bread"; JStr "butter"])])) "items"
  = Some (JArr [JStr "bread"; JStr "butter"]).
Proof.
  apply (group_items_in_order [("items", JArr [JStr " bread "; JStr ""; JStr "butter"])]
           [" bread "; ""; "butter"]).
  - reflexivity.
  - reflexivity.
Defined.

(** *** The extraction step, in general *)

Lemma lastIs_split c s : lastIs c s = true -> exists m, s = m ++ String c "".
Proof.
  induction s as [|d s IH]; [discriminate|].
  destruct s as [|e s].
  - simpl. intros H. apply Ascii.eqb_eq in H. subst. now exists "".
  - intros H. destruct (IH H) as [m E]. exists (String d m). simpl. now rewrite <- E.
Qed.

Lemma search_cases s :
  (Regex.search objectAtEnd s = None /\ (lastIs "}" s = false \/ hasUnit "{" s = false))
  \/ exists c m,
       s = c ++ "{" ++ m ++ "}" /\ hasUnit "{" c = false /\
       Regex.search objectAtEnd s = Some ("{" ++ m ++ "}").
Proof.
  induction s as [|d s IH].
  - left. split; [reflexivity | now left].
  - unfold Regex.search; fold Regex.search. rewrite matchHere_objectAtEnd.
    destruct (Ascii.eqb d "{") eqn:D.
    + apply Ascii.eqb_eq in D. subst d. destruct (lastIs "}" s) eqn:L; cbn [andb].
      * right. destruct (lastIs_split _ _ L) as [m ->]. exists "", m. now repeat split.
      * left. split; [now apply search_none|]. left. destruct s; [reflexivity | exact L].
    + cbn [andb]. destruct IH as [[N H] | (c & m & E & H & S)].
      * left. split; [exact N|]. destruct H as [H|H].
        -- destruct s; [right; simpl; now rewrite D | left; exact H].
        -- right. simpl. now rewrite D, H.
      * right. exists (String d c), m. subst s. repeat split; [|exact S].
        simpl. now rewrite D, H.
Qed.

(** X27.  The extraction step never fails on a text and returns an end of
    it: the whole text, or the part from the first opening brace on, which
    then ends with a closing brace. *)
Theorem extract_is_a_suffix s :
  exists c r,
    s = c ++ r /\ extract (JStr s) = Normal r /\
    (c = "" \/ (hasUnit "{" c = false /\ exists m, r = "{" ++ m ++ "}")).
Proof.
  unfold extract. destruct (search_cases s) as [[N _] | (c & m & E & H & S)].
  - exists "", s. rewrite N. repeat split. now left.
  - exists c, ("{" ++ m ++ "}"). rewrite S. repeat split; [exact E|].
    right. split; [exact H|]. now exists m.
Qed.

(** X28.  The extraction step leaves a text that starts with an opening
    brace as it is, and extracting twice is extracting once. *)
Theorem extract_keeps_objects m :
  extract (JStr ("{" ++ m)) = Normal ("{" ++ m)
  /\ forall s r, extract (JStr s) = Normal r -> extract (JStr r) = Normal r.
Proof.
  assert (K : forall m, extract (JStr ("{" ++ m)) = Normal ("{" ++ m)).
  { intros m'. unfold extract. cbn [append].
    unfold Regex.search; fold Regex.search. rewrite matchHere_objectAtEnd.
    cbn [Ascii.eqb Bool.eqb andb].
    change (Ascii.eqb "{" "{") with true. cbn [andb].
    destruct (lastIs "}" m') eqn:L; [reflexivity|].
    rewrite search_none; [reflexivity | exact L]. }
  split; [apply K|].
  intros s r H. unfold extract in H.
  destruct (search_cases s) as [[N _] | (c & m' & E & _ & S)].
  - rewrite N in H. inv H. unfold extract. now rewrite N.
  - rewrite S in H. inv H. apply K.
Qed.

(* ===================================================================== *)
(** ** The requests of the pages *)
(* ===================================================================== *)

Lemma readChars_quoteUnit c rest t r :
  JsonText.readChars rest = Some (t, r) ->
  JsonText.readChars (JsonStringify.quoteUnit c ++ rest) = Some (String c t, r).
Proof.
  intros H.
  destruct c as [[] [] [] [] [] [] [] []];
    cbv - [JsonText.readChars]; cbn [JsonText.readChars];
    cbv - [JsonText.readChars]; cbn [JsonText.readChars];
    rewrite ?H; reflexivity.
Qed.

Lemma append_assoc (a b c : string) : (a ++ b) ++ c = a ++ (b ++ c).
Proof. induction a as [|x a IH]; cbn [String.append]; [reflexivity|now rewrite IH]. Qed.

Lemma readChars_quoteUnits p r :
  JsonText.readChars (JsonStringify.quoteUnits p ++ String (ascii_of_N 34) r) = Some (p, r).
Proof.
  induction p as [|c p IH]; [reflexivity|].
  cbn [JsonStringify.quoteUnits]. rewrite append_assoc.
  now apply readChars_quoteUnit.
Qed.

Lemma stringifyPrompt_text p :
  JsonStringify.stringifyPrompt p
  = String "{" (String (ascii_of_N 34)
      ("prompt" ++ String (ascii_of_N 34) (String ":" (String (ascii_of_N 34)
         (JsonStringify.quoteUnits p ++ String (ascii_of_N 34) "}"))))).
Proof.
  unfold JsonStringify.stringifyPrompt, JsonStringify.quoteJSONString. cbn [String.append JsonStringify.quoteUnits].
  do 4 f_equal. cbv [JsonStringify.quoteUnit]. cbn. do 9 f_equal. now rewrite append_assoc.
Qed.

Lemma readValue_prompt fuel p :
  JsonText.readValue (S (S (S fuel))) (JsonStringify.stringifyPrompt p)
  = Some (JObj [("prompt", JStr p)], "").
Proof.
  rewrite stringifyPrompt_text.
  pose proof (readChars_quoteUnits p "}") as R.
  set (body := JsonStringify.quoteUnits p ++ String (ascii_of_N 34) "}") in *. clearbody body.
  cbn - [JsonText.readChars]. cbn [JsonText.readChars]. cbn - [JsonText.readChars].
  now rewrite R.
Qed.

Lemma parse_stringifyPrompt p :
  JsonText.parse (JsonStringify.stringifyPrompt p) = Some (JObj [("prompt", JStr p)]).
Proof.
  unfold JsonText.parse.
  assert (F : exists fuel,
             (2 * String.length (JsonStringify.stringifyPrompt p) + 2)%nat
             = S (S (S fuel))).
  { exists (2 * String.length (JsonStringify.stringifyPrompt p) - 1)%nat.
    unfold JsonStringify.stringifyPrompt. cbn [String.append String.length]. lia. }
  destruct F as [fuel ->]. now rewrite readValue_prompt.
Qed.

(** X29.  What the pages post is read back by the route as it was meant:
    [JSON.parse(JSON.stringify({ prompt: p }))] is the object whose only
    property is [prompt] with the text [p], whatever characters [p] has. *)
Theorem request_round_trip p :
  JSON_parse (JsonStringify.stringifyPrompt p) = Normal (JObj [("prompt", JStr p)]).
Proof. unfold JSON_parse. now rewrite parse_stringifyPrompt. Qed.

Lemma requestOf_prompt a body :
  Page.requestOf a = Some body ->
  exists p, body = JsonStringify.stringifyPrompt p /\ isEmpty p = false.
Proof.
  destruct a as [prompt|title|slug]; cbn [Page.requestOf].
  - unfold Page.onSubmit. destruct (isEmpty (trim prompt)) eqn:E; [discriminate|].
    intros H. inv H. now exists (trim prompt).
  - intros H. inv H. now exists (Page.recipePrompt title).
  - intros H. inv H. now exists (Page.recipePrompt (unslugify slug)).
Qed.

(** X30.  Every request the pages send (the submitted form, an opened
    idea, the recipe page loaded for a slug) carries its prompt as a text
    that is not empty: the route accepts it when the credential is
    configured, and never answers it 400. *)
Theorem page_requests_carry_a_prompt a body env provider w :
  Page.requestOf a = Some body ->
  (exists p, body = JsonStringify.stringifyPrompt p /\
             JSON_parse body = Normal (JObj [("prompt", JStr p)]) /\ isEmpty p = false)
  /\ (hasKey env = true -> accepted env body)
  /\ httpStatus (fst (POST env provider body w)) <> 400.
Proof.
  intros R. destruct (requestOf_prompt _ _ R) as (p & -> & N).
  pose proof (parse_stringifyPrompt p) as J.
  split; [exists p; unfold JSON_parse; now rewrite J|]. split.
  - intros K. apply accepted_iff. exists (JObj [("prompt", JStr p)]).
    split; [exact J|]. split; [|exact K]. cbn. now rewrite N.
  - unfold POST. rewrite POST_try_cases, J. cbn [get lookup String.eqb Ascii.eqb Bool.eqb].
    cbn [truthy isString]. rewrite N. cbn [negb orb].
    destruct (negb (hasKey env)); [discriminate|].
    destruct (fwFetchWithRetry provider 3 w) as [[fwRes|err] w']; [|discriminate].
    destruct (fromResponse fwRes) as [r|err] eqn:F; [|discriminate].
    cbn [fst]. destruct (fromResponse_replies _ _ F) as [(q & -> & _) | (e & x & ->)];
      discriminate.
Qed.

(** The form submitted with a padded text, against a busy provider. *)
Lemma page_requests_carry_a_prompt_witness :
  Page.onSubmit "  dinner ideas " = Some (quoted "{'prompt':'dinner ideas'}")
  /\ (exists p, quoted "{'prompt':'dinner ideas'}" = JsonStringify.stringifyPrompt p /\
                JSON_parse (quoted "{'prompt':'dinner ideas'}")
                = Normal (JObj [("prompt", JStr p)]) /\ isEmpty p = false)
  /\ (hasKey Sample.env = true -> accepted Sample.env (quoted "{'prompt':'dinner ideas'}"))
  /\ httpStatus (fst (POST Sample.env Sample.busy (quoted "{'prompt':'dinner ideas'}") start))
     <> 400.
Proof.
  split; [reflexivity|].
  apply (page_requests_carry_a_prompt (Page.Submit "  dinner ideas ")
           (quoted "{'prompt':'dinner ideas'}") Sample.env Sample.busy start).
  reflexivity.
Defined.
